(** * ORBIT metadata codec: a shallow embedding of the TypeScript sources

    The development follows [src/core/xmp-processor.ts] (field canonicalizer,
    container classifier, packet serializer, JPEG embedder and extractor,
    packet parser, packet validation) and
    [src/tools/create-metadata-report.ts] (category organizer, schema
    detection, request validation, field enhancement and formatting).

    JavaScript strings are sequences of UTF-16 code units; they are modelled as
    lists of integers.  Byte buffers ([Uint8Array]) are lists of integers in
    [0, 256).  Case mapping ([toLowerCase], [toUpperCase]) is modelled on the
    ASCII letters, every other code unit being left unchanged: the key
    vocabulary of the three schemas is ASCII snake_case. *)

From Stdlib Require Import String Ascii DecimalString ZArith List Bool Lia.
Import ListNotations.
Open Scope Z_scope.

(** ** JavaScript strings *)

Module JS.

Definition jsstring := list Z.

Definition cu (a : ascii) : Z := Z.of_N (N_of_ascii a).

(** An ASCII literal as a JavaScript string. *)
Fixpoint js (s : string) : jsstring :=
  match s with
  | EmptyString => []
  | String a r => cu a :: js r
  end.

(** [a === b] on strings. *)
Fixpoint str_eqb (a b : jsstring) : bool :=
  match a, b with
  | [], [] => true
  | x :: a', y :: b' => (x =? y) && str_eqb a' b'
  | _, _ => false
  end.

(** [s.startsWith(p)] *)
Fixpoint startsWith (s p : jsstring) : bool :=
  match p, s with
  | [], _ => true
  | y :: p', x :: s' => (x =? y) && startsWith s' p'
  | _ :: _, [] => false
  end.

(** [s.endsWith(p)] *)
Definition endsWith (s p : jsstring) : bool :=
  startsWith (rev s) (rev p).

(** [s.includes(p)] *)
Fixpoint includes (s p : jsstring) : bool :=
  startsWith s p ||
  match s with
  | [] => false
  | _ :: s' => includes s' p
  end.

(** [s.substring(n)] for [0 <= n]. *)
Definition substring_from (n : nat) (s : jsstring) : jsstring := skipn n s.

(** [s.split(sep)] for a one-character separator: the result always has at
    least one part, [''.split('_')] being [['']]. *)
Fixpoint split_aux (sep : Z) (cur : jsstring) (s : jsstring) : list jsstring :=
  match s with
  | [] => [rev cur]
  | c :: s' => if c =? sep then rev cur :: split_aux sep [] s'
               else split_aux sep (c :: cur) s'
  end.

Definition split (sep : Z) (s : jsstring) : list jsstring := split_aux sep [] s.

(** [parts.join(sep)] *)
Fixpoint join (sep : jsstring) (parts : list jsstring) : jsstring :=
  match parts with
  | [] => []
  | [p] => p
  | p :: rest => p ++ sep ++ join sep rest
  end.

Definition is_upper (c : Z) : bool := (65 <=? c) && (c <=? 90).
Definition is_lower (c : Z) : bool := (97 <=? c) && (c <=? 122).

Definition lower_cu (c : Z) : Z := if is_upper c then c + 32 else c.
Definition upper_cu (c : Z) : Z := if is_lower c then c - 32 else c.

Definition toLowerCase (s : jsstring) : jsstring := map lower_cu s.
Definition toUpperCase (s : jsstring) : jsstring := map upper_cu s.

(** Text made of ASCII characters, on which this case mapping is exact. *)
Definition ascii_text (s : jsstring) : Prop := Forall (fun c => 0 <= c < 128) s.

(** [s.charAt(0)]: the first character as a string, or the empty string. *)
Definition charAt0 (s : jsstring) : jsstring :=
  match s with
  | [] => []
  | c :: _ => [c]
  end.

(** [s.slice(1)] *)
Definition slice1 (s : jsstring) : jsstring := tl s.

(** [parts.slice(-2)]: the last two elements (all of them when fewer). *)
Definition slice_last2 {A} (parts : list A) : list A :=
  skipn (length parts - 2)%nat parts.

(** The class [\s] of ECMAScript regular expressions. *)
Definition is_space (c : Z) : bool :=
  ((9 <=? c) && (c <=? 13)) || (c =? 32) || (c =? 160) || (c =? 5760) ||
  ((8192 <=? c) && (c <=? 8202)) || (c =? 8232) || (c =? 8233) ||
  (c =? 8239) || (c =? 8287) || (c =? 12288) || (c =? 65279).

(** [s.replace(/\s+/g, r)]: every maximal run of white space becomes [r]. *)
Fixpoint replace_spaces (r : jsstring) (in_run : bool) (s : jsstring) : jsstring :=
  match s with
  | [] => []
  | c :: s' =>
      if is_space c then
        (if in_run then [] else r) ++ replace_spaces r true s'
      else c :: replace_spaces r false s'
  end.

End JS.

Import JS.

(** ** Field canonicalizer ([beautifyFieldName], [toTitleCase]) *)

Module Canonicalizer.

Definition underscore : Z := 95.
Definition space : Z := 32.

(** One word of [toTitleCase]:
    [word.charAt(0).toUpperCase() + word.slice(1).toLowerCase()]. *)
Definition capitalize (word : jsstring) : jsstring :=
  toUpperCase (charAt0 word) ++ toLowerCase (slice1 word).

Definition toTitleCase (str : jsstring) : jsstring :=
  join [space] (map capitalize (split underscore str)).

Definition schemaNames : list jsstring :=
  [js "product"; js "lifestyle"; js "orbit"].

(** [cleanKey.replace(/^(product|lifestyle|orbit)_/, '')] *)
Fixpoint strip_schema_prefix (names : list jsstring) (key : jsstring) : jsstring :=
  match names with
  | [] => key
  | n :: rest =>
      if startsWith key (n ++ [underscore])
      then substring_from (length n + 1) key
      else strip_schema_prefix rest key
  end.

Definition sectionPrefixes : list jsstring :=
  [ js "scene_overview_"; js "human_elements_"; js "environment_";
    js "key_objects_"; js "atmospheric_elements_"; js "narrative_analysis_";
    js "photographic_elements_"; js "marketing_potential_";
    js "product_identification_"; js "physical_characteristics_";
    js "structural_elements_"; js "design_attributes_";
    js "commercial_analysis_"; js "quality_assessment_" ].

(** The loop over [sectionPrefixes]: the first matching prefix is removed and
    the loop is left. *)
Fixpoint strip_section_prefix (prefixes : list jsstring) (cleanKey : jsstring) : jsstring :=
  match prefixes with
  | [] => cleanKey
  | p :: rest =>
      if startsWith cleanKey p
      then substring_from (length p) cleanKey
      else strip_section_prefix rest cleanKey
  end.

Definition wholeTermPatterns : list jsstring :=
  [ js "time_of_day"; js "number_of_people"; js "age_group";
    js "construction_quality"; js "material_quality"; js "finish_quality" ].

Definition meaningfulPatterns : list (jsstring * jsstring) :=
  [ (js "emotional", js "hooks"); (js "social", js "dynamics");
    (js "primary", js "color"); (js "target", js "market");
    (js "product", js "type"); (js "design", js "style");
    (js "visual", js "style"); (js "market", js "positioning");
    (js "brand", js "alignment"); (js "lifestyle", js "values");
    (js "cultural", js "significance"); (js "technical", js "qualities");
    (js "focal", js "points") ].

(** The name kept for a compound key, before title-casing. *)
Definition processedName (cleanKey : jsstring) (parts : list jsstring) : jsstring :=
  let isWholeCompoundTerm :=
    existsb (fun pattern => endsWith cleanKey pattern || str_eqb cleanKey pattern)
            wholeTermPatterns in
  if isWholeCompoundTerm then cleanKey
  else if (length parts =? 2)%nat then join [underscore] parts
  else if (3 <=? length parts)%nat then
    let lastTwo := slice_last2 parts in
    let isMatchingPattern :=
      existsb (fun pattern =>
                 str_eqb (fst pattern) (nth 0 lastTwo []) &&
                 str_eqb (snd pattern) (nth 1 lastTwo []))
              meaningfulPatterns in
    if isMatchingPattern || (length parts =? 3)%nat
    then join [underscore] (slice_last2 parts)
    else join [underscore] (slice_last2 parts)
  else [].

Definition beautifyFieldName (key : jsstring) : jsstring :=
  let cleanKey := strip_schema_prefix schemaNames key in
  let cleanKey := strip_section_prefix sectionPrefixes cleanKey in
  let parts := split underscore cleanKey in
  if (length parts <=? 1)%nat then toTitleCase cleanKey
  else toTitleCase (processedName cleanKey parts).

(** The element name used by the serializer:
    [beautifyFieldName(key).replace(/\s+/g, '_')]. *)
Definition fieldNameOf (key : jsstring) : jsstring :=
  replace_spaces [underscore] false (beautifyFieldName key).

End Canonicalizer.

(** ** Semantic container classifier ([getSemanticContainerType]) *)

Module Classifier.

(** ['bag' | 'seq'] *)
Inductive container : Set := bag | seq.

Definition sequentialPatterns : list jsstring :=
  [ js "demographics"; js "age_group"; js "gender"; js "ethnicity";
    js "clothing_style";
    js "emotional_states"; js "emotions"; js "emotional_hooks";
    js "mood_indicators";
    js "food_and_beverage"; js "food_beverage"; js "furniture";
    js "key_objects"; js "defining_props";
    js "focal_points"; js "visual_elements"; js "primary_elements";
    js "color_palette"; js "primary_colors"; js "secondary_colors";
    js "color_scheme";
    js "story_elements"; js "narrative_elements"; js "activities";
    js "interactions";
    js "technical_qualities"; js "quality_indicators";
    js "architectural_elements"; js "natural_elements"; js "defining_props";
    js "aspirational_elements"; js "brand_alignment_opportunities" ].

Definition unorderedPatterns : list jsstring :=
  [ js "keywords"; js "tags"; js "categories"; js "classifications";
    js "organizations"; js "organisation"; js "person_names";
    js "people_names";
    js "equipment"; js "tools"; js "technology"; js "devices"; js "gadgets";
    js "target_market"; js "market_segments"; js "competitive_advantages";
    js "advantages";
    js "business_categories"; js "industry_categories";
    js "attributes"; js "characteristics"; js "features";
    js "sensory_cues"; js "ambient_sounds"; js "weather_conditions";
    js "personal_items"; js "accessories"; js "miscellaneous" ].

(** [v.match(/a|b|.../i)] for lower-case ASCII alternatives: the flag [i]
    folds the ASCII letters only when the pattern is ASCII. *)
Definition matches_any_i (alternatives : list jsstring) (v : jsstring) : bool :=
  existsb (fun alt => includes (toLowerCase v) alt) alternatives.

Definition ageWords : list jsstring :=
  [ js "young"; js "middle"; js "old"; js "adult"; js "child"; js "teen" ].
Definition intensityWords : list jsstring :=
  [ js "high"; js "low"; js "medium"; js "intense"; js "mild"; js "strong";
    js "weak" ].
Definition temporalWords : list jsstring :=
  [ js "first"; js "second"; js "primary"; js "secondary"; js "main";
    js "background" ].

Definition nameMatches (normalizedField normalizedKey : jsstring)
    (patterns : list jsstring) : bool :=
  existsb (fun pattern =>
             includes normalizedField pattern || includes normalizedKey pattern)
          patterns.

Definition getSemanticContainerType
    (fieldName originalKey : jsstring) (values : list jsstring) : container :=
  let normalizedField := toLowerCase fieldName in
  let normalizedKey := toLowerCase originalKey in
  (* unordered patterns are looked up first *)
  if nameMatches normalizedField normalizedKey unorderedPatterns then bag
  (* sequential patterns second *)
  else if nameMatches normalizedField normalizedKey sequentialPatterns then seq
  else
    let hasAgeProgression := existsb (matches_any_i ageWords) values in
    let hasIntensityProgression := existsb (matches_any_i intensityWords) values in
    let hasTemporalProgression := existsb (matches_any_i temporalWords) values in
    if (0 <? length values)%nat &&
       (hasAgeProgression || hasIntensityProgression || hasTemporalProgression)
    then seq
    else if includes normalizedField (js "human") ||
            includes normalizedField (js "people") ||
            includes normalizedField (js "emotional") ||
            includes normalizedField (js "visual") ||
            includes normalizedField (js "narrative") ||
            includes normalizedField (js "story")
    then seq
    else bag.

End Classifier.

(** ** Exceptions and the store of typed arrays *)

Module Effects.

(** The outcome of a call: a value, or a thrown [Error] with its message. *)
Inductive outcome (A : Type) : Type :=
| Return (a : A)
| Throw (message : jsstring).
Arguments Return {A} a.
Arguments Throw {A} message.

(** [Uint8Array] objects live in a store and are passed by reference. *)
Definition ref := nat.
Definition heap := list (list Z).

Definition M (A : Type) : Type := heap -> heap * outcome A.

Definition ret {A} (a : A) : M A := fun h => (h, Return a).
Definition throw {A} (message : jsstring) : M A := fun h => (h, Throw message).
Definition bind {A B} (m : M A) (k : A -> M B) : M B :=
  fun h => match m h with
           | (h', Return a) => k a h'
           | (h', Throw e) => (h', Throw e)
           end.
(** [try { m } catch (error) { handler(error.message) }] *)
Definition try_catch {A} (m : M A) (handler : jsstring -> M A) : M A :=
  fun h => match m h with
           | (h', Return a) => (h', Return a)
           | (h', Throw e) => handler e h'
           end.

(** [new Uint8Array(...)] *)
Definition alloc (content : list Z) : M ref :=
  fun h => (h ++ [content], Return (length h)).
(** The content of an array in a store. *)
Definition content (h : heap) (r : ref) : list Z := nth r h [].

(** Reading the content of an array. *)
Definition load (r : ref) : M (list Z) :=
  fun h => (h, Return (content h r)).

Fixpoint update_nth {A} (n : nat) (f : A -> A) (l : list A) : list A :=
  match l, n with
  | [], _ => []
  | x :: l', O => f x :: l'
  | x :: l', S n' => x :: update_nth n' f l'
  end.

(** [a[i] = v] on a typed array (a write past the end is ignored). *)
Definition store_byte (r : ref) (i : nat) (v : Z) : M unit :=
  fun h => (update_nth r (update_nth i (fun _ => v)) h, Return tt).

(** [dst.set(src, offset)] when [offset + src.length <= dst.length]. *)
Definition set_at (offset : nat) (src dst : list Z) : list Z :=
  firstn offset dst ++ src ++ skipn (offset + length src) dst.
Definition array_set (r : ref) (src : list Z) (offset : nat) : M unit :=
  fun h => (update_nth r (set_at offset src) h, Return tt).

End Effects.

Import Effects.

Notation "x <- m ;; k" := (bind m (fun x => k))
  (at level 61, m at next level, right associativity).
Notation "m ;;; k" := (bind m (fun _ => k))
  (at level 61, right associativity).

(** ** UTF-8 ([TextEncoder], [TextDecoder]) *)

Module Utf8.

Definition is_high (c : Z) : bool := (0xD800 <=? c) && (c <=? 0xDBFF).
Definition is_low (c : Z) : bool := (0xDC00 <=? c) && (c <=? 0xDFFF).

Definition replacement : Z := 0xFFFD.

(** The UTF-8 bytes of a scalar value. *)
Definition utf8_of_cp (cp : Z) : list Z :=
  if cp <? 0x80 then [cp]
  else if cp <? 0x800 then [0xC0 + cp / 64; 0x80 + cp mod 64]
  else if cp <? 0x10000 then
    [0xE0 + cp / 4096; 0x80 + (cp / 64) mod 64; 0x80 + cp mod 64]
  else
    [0xF0 + cp / 262144; 0x80 + (cp / 4096) mod 64;
     0x80 + (cp / 64) mod 64; 0x80 + cp mod 64].

(** [new TextEncoder().encode(s)]: surrogate pairs are combined, a lone
    surrogate is encoded as U+FFFD. *)
Fixpoint encode (s : jsstring) : list Z :=
  match s with
  | [] => []
  | c :: rest =>
      if is_high c then
        match rest with
        | d :: rest' =>
            if is_low d
            then utf8_of_cp (0x10000 + (c - 0xD800) * 1024 + (d - 0xDC00))
                   ++ encode rest'
            else utf8_of_cp replacement ++ encode rest
        | [] => utf8_of_cp replacement
        end
      else if is_low c then utf8_of_cp replacement ++ encode rest
      else utf8_of_cp c ++ encode rest
  end.

Definition in_range (lo hi b : Z) : bool := (lo <=? b) && (b <=? hi).
Definition continuation (b : Z) : bool := in_range 0x80 0xBF b.

(** The UTF-8 decoder of the Encoding standard, error mode "replacement":
    the scalar values of a byte sequence. *)
Fixpoint decode_scalars (bytes : list Z) : list Z :=
  match bytes with
  | [] => []
  | b0 :: r =>
      if in_range 0 0x7F b0 then b0 :: decode_scalars r
      else if in_range 0xC2 0xDF b0 then
        match r with
        | [] => [replacement]
        | b1 :: r1 =>
            if continuation b1
            then ((b0 - 0xC0) * 64 + (b1 - 0x80)) :: decode_scalars r1
            else replacement :: decode_scalars r
        end
      else if in_range 0xE0 0xEF b0 then
        let lo := if b0 =? 0xE0 then 0xA0 else 0x80 in
        let hi := if b0 =? 0xED then 0x9F else 0xBF in
        match r with
        | [] => [replacement]
        | b1 :: r1 =>
            if in_range lo hi b1 then
              match r1 with
              | [] => [replacement]
              | b2 :: r2 =>
                  if continuation b2
                  then ((b0 - 0xE0) * 4096 + (b1 - 0x80) * 64 + (b2 - 0x80))
                         :: decode_scalars r2
                  else replacement :: decode_scalars r1
              end
            else replacement :: decode_scalars r
        end
      else if in_range 0xF0 0xF4 b0 then
        let lo := if b0 =? 0xF0 then 0x90 else 0x80 in
        let hi := if b0 =? 0xF4 then 0x8F else 0xBF in
        match r with
        | [] => [replacement]
        | b1 :: r1 =>
            if in_range lo hi b1 then
              match r1 with
              | [] => [replacement]
              | b2 :: r2 =>
                  if continuation b2 then
                    match r2 with
                    | [] => [replacement]
                    | b3 :: r3 =>
                        if continuation b3
                        then ((b0 - 0xF0) * 262144 + (b1 - 0x80) * 4096 +
                              (b2 - 0x80) * 64 + (b3 - 0x80))
                               :: decode_scalars r3
                        else replacement :: decode_scalars r2
                    end
                  else replacement :: decode_scalars r1
              end
            else replacement :: decode_scalars r
        end
      else replacement :: decode_scalars r
  end.

(** The UTF-16 code units of a scalar value. *)
Definition units_of_cp (cp : Z) : jsstring :=
  if cp <? 0x10000 then [cp]
  else [0xD800 + (cp - 0x10000) / 1024; 0xDC00 + (cp - 0x10000) mod 1024].

(** A leading byte order mark is dropped ([ignoreBOM] is false by default). *)
Definition strip_bom (s : jsstring) : jsstring :=
  match s with
  | c :: rest => if c =? 0xFEFF then rest else s
  | [] => []
  end.

(** [new TextDecoder().decode(bytes)] *)
Definition decode (bytes : list Z) : jsstring :=
  strip_bom (flat_map units_of_cp (decode_scalars bytes)).

End Utf8.

(** ** Binary embedder and extractor *)

Module Jpeg.

(** [buffer[i]], [undefined] past the end. *)
Definition get (buffer : list Z) (i : Z) : option Z :=
  if i <? 0 then None else nth_error buffer (Z.to_nat i).

(** [x === n] for an element read and a number. *)
Definition is_byte_eq (x : option Z) (n : Z) : bool :=
  match x with
  | Some v => v =? n
  | None => false
  end.

(** The operand of a bitwise operator: [undefined] counts as 0. *)
Definition to_int (x : option Z) : Z :=
  match x with
  | Some v => v
  | None => 0
  end.

Definition byteLength (buffer : list Z) : Z := Z.of_nat (length buffer).

Definition isJPEG (buffer : list Z) : bool :=
  (2 <=? byteLength buffer) && is_byte_eq (get buffer 0) 0xFF &&
  is_byte_eq (get buffer 1) 0xD8.

(** ['http://ns.adobe.com/xap/1.0/\0'] *)
Definition xmpSignature : jsstring := js "http://ns.adobe.com/xap/1.0/" ++ [0].

(** The initial content of [app1Header]: marker, length placeholder,
    signature. *)
Definition app1Header_init : list Z :=
  [0xFF; 0xE1; 0x00; 0x00;
   0x68; 0x74; 0x74; 0x70; 0x3A; 0x2F; 0x2F; 0x6E; 0x73; 0x2E;
   0x61; 0x64; 0x6F; 0x62; 0x65; 0x2E; 0x63; 0x6F; 0x6D; 0x2F;
   0x78; 0x61; 0x70; 0x2F; 0x31; 0x2E; 0x30; 0x2F; 0x00].

Definition embedXMPInJPEG (buffer : ref) (xmpPacket : jsstring) : M ref :=
  let xmpBytes := Utf8.encode xmpPacket in
  app1Header <- alloc app1Header_init ;;
  header0 <- load app1Header ;;
  (* length: header + XMP data, less the marker itself *)
  let totalLength := byteLength header0 + byteLength xmpBytes - 2 in
  store_byte app1Header 2 (Z.land (Z.shiftr totalLength 8) 0xFF) ;;;
  store_byte app1Header 3 (Z.land totalLength 0xFF) ;;;
  original <- load buffer ;;
  result <- alloc (repeat 0 (length original + length header0 + length xmpBytes)) ;;
  (* SOI marker *)
  array_set result (firstn 2 original) 0 ;;;
  (* APP1 segment *)
  header <- load app1Header ;;
  array_set result header 2 ;;;
  array_set result xmpBytes (2 + length header) ;;;
  (* rest of the original image *)
  array_set result (skipn 2 original) (2 + length header + length xmpBytes) ;;;
  ret result.

Definition notJPEGMessage : jsstring :=
  js "Image must be JPEG format for XMP embedding. Use ImageConverter to convert first.".

Definition embedXMPInImage (imageBuffer : ref) (xmpPacket : jsstring) : M ref :=
  try_catch
    (content <- load imageBuffer ;;
     if isJPEG content
     then embedXMPInJPEG imageBuffer xmpPacket
     else throw notJPEGMessage)
    (fun message => throw (js "XMP embedding failed: " ++ message)).

(** [buffer.slice(start, end)] for non-negative [start] and [end]. *)
Definition slice (buffer : list Z) (start stop : Z) : list Z :=
  firstn (Z.to_nat (stop - start)) (skipn (Z.to_nat start) buffer).

(** The inner loop comparing the signature. *)
Definition signature_matches (buffer : list Z) (signatureStart : Z) : bool :=
  forallb (fun j => is_byte_eq (get buffer (signatureStart + Z.of_nat j))
                               (nth j xmpSignature 0))
          (List.seq 0 (length xmpSignature)).

(** The loop of [extractXMPFromJPEG], started at index [i]; [fuel] bounds the
    number of iterations, [None] standing for a loop that has not finished. *)
Fixpoint extract_loop (fuel : nat) (buffer : list Z) (i : Z) : option (option jsstring) :=
  match fuel with
  | O => None
  | S fuel' =>
      if i <? byteLength buffer - 30 then
        if is_byte_eq (get buffer i) 0xFF && is_byte_eq (get buffer (i + 1)) 0xE1 then
          let segmentLength :=
            Z.lor (Z.shiftl (to_int (get buffer (i + 2))) 8)
                  (to_int (get buffer (i + 3))) in
          let signatureStart := i + 4 in
          if signature_matches buffer signatureStart then
            let xmpStart := signatureStart + Z.of_nat (length xmpSignature) in
            let xmpLength := segmentLength - Z.of_nat (length xmpSignature) - 2 in
            let xmpBytes := slice buffer xmpStart (xmpStart + xmpLength) in
            Some (Some (Utf8.decode xmpBytes))
          else
            (* [i += segmentLength + 2], then the loop's [i++] *)
            extract_loop fuel' buffer (i + (segmentLength + 2) + 1)
        else extract_loop fuel' buffer (i + 1)
      else Some None
  end.

(** The index grows at every iteration, so [length buffer] iterations are
    enough. *)
Definition extractXMPFromJPEG (buffer : list Z) : option jsstring :=
  match extract_loop (S (length buffer)) buffer 0 with
  | Some r => r
  | None => None
  end.

(** A [Uint8Array] holds bytes. *)
Definition uint8array (buffer : list Z) : Prop :=
  Forall (fun b => 0 <= b < 256) buffer.

End Jpeg.

(** ** Reference notions used in the statements *)

Module Reference.

(** A string of 16-bit code units in which every surrogate is paired. *)
Fixpoint well_formed_utf16 (s : jsstring) : bool :=
  match s with
  | [] => true
  | c :: rest =>
      if Utf8.is_high c then
        match rest with
        | d :: rest' => Utf8.is_low d && well_formed_utf16 rest'
        | [] => false
        end
      else (0 <=? c) && (c <? 0x10000) && negb (Utf8.is_low c) &&
           well_formed_utf16 rest
  end.

(** The APP1 segment carrying a packet: marker, big-endian length of
    everything after the marker, signature, UTF-8 payload. *)
Definition xmp_segment (xmpPacket : jsstring) : list Z :=
  let payload := Utf8.encode xmpPacket in
  let totalLength := 2 + Z.of_nat (length Jpeg.xmpSignature) + Z.of_nat (length payload) in
  [0xFF; 0xE1; Z.land (Z.shiftr totalLength 8) 0xFF; Z.land totalLength 0xFF]
    ++ Jpeg.xmpSignature ++ payload.

(** The header of that segment: marker, length and signature. *)
Definition app1_header (xmpPacket : jsstring) : list Z :=
  firstn 33 (xmp_segment xmpPacket).

(** An Exif APP1 segment with an empty body: marker, length 8, ["Exif\0\0"]. *)
Definition exif_segment : list Z :=
  [0xFF; 0xE1; 0x00; 0x08; 0x45; 0x78; 0x69; 0x66; 0x00; 0x00].

(** A JPEG stream whose Exif segment is immediately followed by an XMP
    segment, as written by most tools. *)
Definition exif_then_xmp : list Z :=
  [0xFF; 0xD8] ++ exif_segment ++ xmp_segment (js "<x:xmpmeta/>") ++ [0xFF; 0xD9].

(** The eight bytes of the PNG signature. *)
Definition png_signature : list Z :=
  [0x89; 0x50; 0x4E; 0x47; 0x0D; 0x0A; 0x1A; 0x0A].

(** A clock that always reads the same instant. *)
Definition fixed_clock (reading : nat) : jsstring := js "2025-01-01T00:00:00.000Z".

End Reference.

(** ** JavaScript values *)

Module Value.

(** The values that metadata trees and decoded JSON are made of.  A number
    is an integer [VNum n] or a non-integer decimal [VDec m e], standing for
    [m * 10^e] with [e < 0]; the rounding of doubles is outside the model.
    An object is the list of its own properties in insertion order; keys
    that are array indices, which JavaScript enumerates first, and the key
    [__proto__] do not occur in the schemas and are not treated apart. *)
#[local] Unset Elimination Schemes.
Inductive value : Type :=
| VUndefined
| VNull
| VBool (b : bool)
| VNum (n : Z)
| VDec (m e : Z)
| VStr (s : jsstring)
| VArr (items : list value)
| VObj (props : list (jsstring * value)).
#[local] Set Elimination Schemes.

(** An exception-only computation. *)
Definition Exc (A : Type) : Type := outcome A.
Definition eret {A} (a : A) : Exc A := Return a.
Definition ebind {A B} (m : Exc A) (k : A -> Exc B) : Exc B :=
  match m with
  | Return a => k a
  | Throw e => Throw e
  end.
Definition typeError {A} : Exc A := Throw (js "TypeError").

Fixpoint lookup (k : jsstring) (props : list (jsstring * value)) : option value :=
  match props with
  | [] => None
  | (k', v) :: rest => if str_eqb k' k then Some v else lookup k rest
  end.

(** [v.k] or [v[k]] on a value that is neither [null] nor [undefined], for
    a name [k] that no prototype defines. *)
Definition get_prop (v : value) (k : jsstring) : value :=
  match v with
  | VObj props => match lookup k props with Some x => x | None => VUndefined end
  | _ => VUndefined
  end.

(** The names that [Object.prototype] defines: on an object that has no
    own property of such a name, [o[k]] finds the inherited member, which
    is the prototype itself for [__proto__] and a function for the other
    names. *)
Definition objectPrototypeNames : list jsstring :=
  [ js "constructor"; js "__defineGetter__"; js "__defineSetter__";
    js "hasOwnProperty"; js "__lookupGetter__"; js "__lookupSetter__";
    js "isPrototypeOf"; js "propertyIsEnumerable"; js "toString"; js "valueOf";
    js "__proto__"; js "toLocaleString" ].

(** [v?.k] *)
Definition get_prop_opt (v : value) (k : jsstring) : value := get_prop v k.

(** [o[k] = v]: an existing property keeps its place. *)
Fixpoint obj_set (k : jsstring) (v : value) (props : list (jsstring * value))
  : list (jsstring * value) :=
  match props with
  | [] => [(k, v)]
  | (k', v') :: rest =>
      if str_eqb k' k then (k', v) :: rest else (k', v') :: obj_set k v rest
  end.

(** The truth value of a condition. *)
Definition truthy (v : value) : bool :=
  match v with
  | VUndefined | VNull => false
  | VBool b => b
  | VNum n => negb (n =? 0)
  | VDec _ _ => true
  | VStr s => match s with [] => false | _ => true end
  | VArr _ | VObj _ => true
  end.

(** [a || b] *)
Definition or_else (a b : value) : value := if truthy a then a else b.

(** [typeof v === 'object'] *)
Definition typeof_object (v : value) : bool :=
  match v with
  | VNull | VArr _ | VObj _ => true
  | _ => false
  end.

Definition isArray (v : value) : bool :=
  match v with
  | VArr _ => true
  | _ => false
  end.

(** The decimal numeral of an integer. *)
Definition num_to_string (n : Z) : jsstring :=
  js (DecimalString.NilZero.string_of_int (Z.to_int n)).

(** The plain decimal notation of [m * 10^e] for [e < 0]. *)
Definition dec_to_string (m e : Z) : jsstring :=
  let digits := num_to_string (Z.abs m) in
  let k := Z.to_nat (- e) in
  let sign := if m <? 0 then js "-" else [] in
  if (k <? length digits)%nat
  then sign ++ firstn (length digits - k) digits ++ js "." ++
       skipn (length digits - k) digits
  else sign ++ js "0." ++ repeat 48 (k - length digits) ++ digits.

(** [String(v)], also the conversion made by a template literal. *)
Fixpoint to_string (v : value) : jsstring :=
  match v with
  | VUndefined => js "undefined"
  | VNull => js "null"
  | VBool true => js "true"
  | VBool false => js "false"
  | VNum n => num_to_string n
  | VDec m e => dec_to_string m e
  | VStr s => s
  | VArr items =>
      join (js ",")
           (map (fun x => match x with
                          | VUndefined | VNull => []
                          | _ => to_string x
                          end) items)
  | VObj _ => js "[object Object]"
  end.

(** [items.join(sep)] *)
Definition array_join (sep : jsstring) (items : list value) : jsstring :=
  join sep (map (fun x => match x with
                          | VUndefined | VNull => []
                          | _ => to_string x
                          end) items).

Fixpoint indexed_from {A} (i : Z) (l : list A) : list (jsstring * A) :=
  match l with
  | [] => []
  | x :: rest => (num_to_string i, x) :: indexed_from (i + 1) rest
  end.

(** The own enumerable properties of a value that is neither [null] nor
    [undefined]. *)
Definition own_entries (v : value) : list (jsstring * value) :=
  match v with
  | VObj props => props
  | VArr items => indexed_from 0 items
  | VStr s => indexed_from 0 (map (fun c => VStr [c]) s)
  | _ => []
  end.

(** [Object.entries(v)] *)
Definition Object_entries (v : value) : Exc (list (jsstring * value)) :=
  match v with
  | VUndefined | VNull => typeError
  | _ => eret (own_entries v)
  end.

(** [Object.keys(v)] on a value that is neither [null] nor [undefined]. *)
Definition Object_keys (v : value) : list jsstring := map fst (own_entries v).

(** [Object.assign(target, source)] for a source that has no own property
    named [__proto__]: assigning that name replaces the prototype of the
    target instead of making a property. *)
Definition Object_assign (target : list (jsstring * value)) (source : value)
  : list (jsstring * value) :=
  fold_left (fun t kv => obj_set (fst kv) (snd kv) t) (own_entries source) target.

(** [s.toLowerCase()] on a value of any type: only strings have the method. *)
Definition call_toLowerCase (v : value) : Exc jsstring :=
  match v with
  | VStr s => eret (toLowerCase s)
  | _ => typeError
  end.

(** [v.includes(needle)]: a substring test on a string, a membership test on
    an array, a [TypeError] on anything else. *)
Definition call_includes (v : value) (needle : jsstring) : Exc bool :=
  match v with
  | VStr s => eret (includes s needle)
  | VArr items =>
      eret (existsb (fun x => match x with
                              | VStr t => str_eqb t needle
                              | _ => false
                              end) items)
  | _ => typeError
  end.

End Value.

Import Value.

Notation "'let*' x ':=' m 'in' k" := (ebind m (fun x => k))
  (at level 10, x name, m at level 100, k at level 200).

(** ** JSON ([JSON.stringify], [JSON.parse]) *)

Module Json.

Definition quote_mark : Z := 34.
Definition backslash : Z := 92.
Definition newline : jsstring := [10].
Definition gap : jsstring := js "  ".

Definition hex_digit (n : Z) : Z := if n <? 10 then 48 + n else 87 + n.

(** [\uXXXX] with lower-case digits. *)
Definition unicode_escape (c : Z) : jsstring :=
  js "\u" ++ [hex_digit (c / 4096); hex_digit ((c / 256) mod 16);
               hex_digit ((c / 16) mod 16); hex_digit (c mod 16)].

(** The body of [QuoteJSONString]. *)
Fixpoint quote_body (s : jsstring) : jsstring :=
  match s with
  | [] => []
  | c :: rest =>
      if c =? 8 then js "\b" ++ quote_body rest
      else if c =? 9 then js "\t" ++ quote_body rest
      else if c =? 10 then js "\n" ++ quote_body rest
      else if c =? 12 then js "\f" ++ quote_body rest
      else if c =? 13 then js "\r" ++ quote_body rest
      else if c =? quote_mark then [backslash; quote_mark] ++ quote_body rest
      else if c =? backslash then [backslash; backslash] ++ quote_body rest
      else if c <? 32 then unicode_escape c ++ quote_body rest
      else if Utf8.is_high c then
        match rest with
        | d :: rest' =>
            if Utf8.is_low d then c :: d :: quote_body rest'
            else unicode_escape c ++ quote_body rest
        | [] => unicode_escape c
        end
      else if Utf8.is_low c then unicode_escape c ++ quote_body rest
      else c :: quote_body rest
  end.

Definition quote (s : jsstring) : jsstring :=
  [quote_mark] ++ quote_body s ++ [quote_mark].

(** [SerializeJSONProperty] with the two-space gap; [None] is [undefined]. *)
Fixpoint stringify_at (indent : jsstring) (v : value) : option jsstring :=
  match v with
  | VUndefined => None
  | VNull => Some (js "null")
  | VBool true => Some (js "true")
  | VBool false => Some (js "false")
  | VNum n => Some (num_to_string n)
  | VDec m e => Some (dec_to_string m e)
  | VStr s => Some (quote s)
  | VArr items =>
      let inner := indent ++ gap in
      let parts :=
        map (fun x => match stringify_at inner x with
                      | Some t => t
                      | None => js "null"
                      end) items in
      match parts with
      | [] => Some (js "[]")
      | _ => Some (js "[" ++ newline ++ inner ++
                   join (js "," ++ newline ++ inner) parts ++
                   newline ++ indent ++ js "]")
      end
  | VObj props =>
      let inner := indent ++ gap in
      let parts :=
        flat_map (fun kv => match stringify_at inner (snd kv) with
                            | Some t => [quote (fst kv) ++ js ": " ++ t]
                            | None => []
                            end) props in
      match parts with
      | [] => Some (js "{}")
      | _ => Some (js "{" ++ newline ++ inner ++
                   join (js "," ++ newline ++ inner) parts ++
                   newline ++ indent ++ js "}")
      end
  end.

(** [JSON.stringify(v, null, 2)] on a value that is not [undefined]. *)
Definition JSON_stringify (v : value) : jsstring :=
  match stringify_at [] v with
  | Some t => t
  | None => js "undefined"
  end.

(** *** Lexical analysis *)

Inductive token : Type :=
| TLBrace | TRBrace | TLBrack | TRBrack | TColon | TComma
| TString (s : jsstring)
| TValue (v : value).

Definition is_json_ws (c : Z) : bool :=
  (c =? 32) || (c =? 9) || (c =? 10) || (c =? 13).
Definition is_digit (c : Z) : bool := (48 <=? c) && (c <=? 57).
Definition is_number_char (c : Z) : bool :=
  is_digit c || (c =? 43) || (c =? 45) || (c =? 46) || (c =? 69) || (c =? 101).

Definition hex_value (c : Z) : option Z :=
  if is_digit c then Some (c - 48)
  else if (97 <=? c) && (c <=? 102) then Some (c - 87)
  else if (65 <=? c) && (c <=? 70) then Some (c - 55)
  else None.

(** The leading digits of a string, as a number, their count, and the
    rest. *)
Fixpoint span_digits (acc : Z) (count : nat) (s : jsstring) : Z * nat * jsstring :=
  match s with
  | c :: rest =>
      if is_digit c then span_digits (acc * 10 + (c - 48)) (S count) rest
      else (acc, count, s)
  | [] => (acc, count, [])
  end.

(** [m * 10^e] for [e <= 0], with the trailing zeros of [m] removed. *)
Fixpoint normalize (fuel : nat) (m e : Z) : value :=
  match fuel with
  | O => if e =? 0 then VNum m else VDec m e
  | S fuel' =>
      if e =? 0 then VNum m
      else if m mod 10 =? 0 then normalize fuel' (m / 10) (e + 1)
      else VDec m e
  end.

Definition number_value (m e : Z) : value :=
  if 0 <=? e then VNum (m * 10 ^ e) else normalize (Z.to_nat (- e)) m e.

(** The value of a number lexeme: an optional minus sign, an integer part
    without superfluous leading zero, an optional fraction, an optional
    exponent. *)
Definition parse_number (lexeme : jsstring) : option value :=
  let '(negative, s) :=
    match lexeme with
    | c :: rest => if c =? 45 then (true, rest) else (false, lexeme)
    | [] => (false, [])
    end in
  let '(int_part, int_count, s1) := span_digits 0 0 s in
  let leading_zero :=
    match s with
    | c :: _ => (c =? 48) && (1 <? int_count)%nat
    | [] => false
    end in
  if (int_count =? 0)%nat || leading_zero then None
  else
    let fraction :=
      match s1 with
      | c :: rest =>
          if c =? 46 then
            let '(m, count, s2) := span_digits int_part 0 rest in
            if (count =? 0)%nat then None else Some (m, Z.of_nat count, s2)
          else Some (int_part, 0, s1)
      | [] => Some (int_part, 0, [])
      end in
    match fraction with
    | None => None
    | Some (mantissa, scale, s2) =>
        let exponent :=
          match s2 with
          | [] => Some 0
          | c :: rest =>
              if (c =? 69) || (c =? 101) then
                let '(exp_negative, digits) :=
                  match rest with
                  | d :: rest' =>
                      if d =? 45 then (true, rest')
                      else if d =? 43 then (false, rest')
                      else (false, rest)
                  | [] => (false, [])
                  end in
                let '(x, count, s3) := span_digits 0 0 digits in
                match s3 with
                | [] => if (count =? 0)%nat then None
                        else Some (if exp_negative then - x else x)
                | _ :: _ => None
                end
              else None
          end in
        match exponent with
        | None => None
        | Some x =>
            Some (number_value (if negative then - mantissa else mantissa)
                               (x - scale))
        end
    end.

Inductive lex_state : Type :=
| LStart
| LString (acc : jsstring)
| LEscape (acc : jsstring)
| LUnicode (acc : jsstring) (code : Z) (remaining : nat)
| LNumber (acc : jsstring)
| LWord (expected : jsstring) (v : value).

(** One character between tokens. *)
Definition lex_start (c : Z) : option (lex_state * list token) :=
  if is_json_ws c then Some (LStart, [])
  else if c =? 123 then Some (LStart, [TLBrace])
  else if c =? 125 then Some (LStart, [TRBrace])
  else if c =? 91 then Some (LStart, [TLBrack])
  else if c =? 93 then Some (LStart, [TRBrack])
  else if c =? 58 then Some (LStart, [TColon])
  else if c =? 44 then Some (LStart, [TComma])
  else if c =? quote_mark then Some (LString [], [])
  else if (c =? 45) || is_digit c then Some (LNumber [c], [])
  else if c =? 116 then Some (LWord (js "rue") (VBool true), [])
  else if c =? 102 then Some (LWord (js "alse") (VBool false), [])
  else if c =? 110 then Some (LWord (js "ull") VNull, [])
  else None.

Definition lex_step (st : lex_state) (c : Z) : option (lex_state * list token) :=
  match st with
  | LStart => lex_start c
  | LString acc =>
      if c =? quote_mark then Some (LStart, [TString (rev acc)])
      else if c =? backslash then Some (LEscape acc, [])
      else if c <? 32 then None
      else Some (LString (c :: acc), [])
  | LEscape acc =>
      if c =? quote_mark then Some (LString (quote_mark :: acc), [])
      else if c =? backslash then Some (LString (backslash :: acc), [])
      else if c =? 47 then Some (LString (47 :: acc), [])
      else if c =? 98 then Some (LString (8 :: acc), [])
      else if c =? 102 then Some (LString (12 :: acc), [])
      else if c =? 110 then Some (LString (10 :: acc), [])
      else if c =? 114 then Some (LString (13 :: acc), [])
      else if c =? 116 then Some (LString (9 :: acc), [])
      else if c =? 117 then Some (LUnicode acc 0 4, [])
      else None
  | LUnicode acc code remaining =>
      match hex_value c, remaining with
      | Some d, S O => Some (LString ((code * 16 + d) :: acc), [])
      | Some d, S k => Some (LUnicode acc (code * 16 + d) k, [])
      | _, _ => None
      end
  | LNumber acc =>
      if is_number_char c then Some (LNumber (c :: acc), [])
      else
        match parse_number (rev acc), lex_start c with
        | Some v, Some (st', tokens) => Some (st', TValue v :: tokens)
        | _, _ => None
        end
  | LWord expected v =>
      match expected with
      | [e] => if c =? e then Some (LStart, [TValue v]) else None
      | e :: rest => if c =? e then Some (LWord rest v, []) else None
      | [] => None
      end
  end.

Fixpoint lex (st : lex_state) (s : jsstring) : option (list token) :=
  match s with
  | [] =>
      match st with
      | LStart => Some []
      | LNumber acc =>
          match parse_number (rev acc) with
          | Some v => Some [TValue v]
          | None => None
          end
      | _ => None
      end
  | c :: rest =>
      match lex_step st c with
      | Some (st', tokens) =>
          match lex st' rest with
          | Some more => Some (tokens ++ more)
          | None => None
          end
      | None => None
      end
  end.

(** *** Syntax analysis: a pushdown automaton over the tokens *)

Inductive frame : Type :=
| FArray (items : list value)
| FObject (props : list (jsstring * value)) (key : jsstring).

Inductive mode : Type :=
| MValue (allow_close : bool)
| MKey (allow_close : bool)
| MColon
| MAfter
| MDone (v : value).

(** A value has been read: it goes into the enclosing array or object. *)
Definition push_value (v : value) (stack : list frame) : list frame * mode :=
  match stack with
  | [] => ([], MDone v)
  | FArray items :: rest => (FArray (v :: items) :: rest, MAfter)
  | FObject props key :: rest => (FObject (obj_set key v props) key :: rest, MAfter)
  end.

Definition parse_step (stack : list frame) (m : mode) (t : token)
  : option (list frame * mode) :=
  match m, t with
  | MValue _, TLBrack => Some (FArray [] :: stack, MValue true)
  | MValue _, TLBrace => Some (FObject [] [] :: stack, MKey true)
  | MValue _, TString s => Some (push_value (VStr s) stack)
  | MValue _, TValue v => Some (push_value v stack)
  | MValue true, TRBrack =>
      match stack with
      | FArray items :: rest => Some (push_value (VArr (rev items)) rest)
      | _ => None
      end
  | MKey _, TString k =>
      match stack with
      | FObject props _ :: rest => Some (FObject props k :: rest, MColon)
      | _ => None
      end
  | MKey true, TRBrace =>
      match stack with
      | FObject props _ :: rest => Some (push_value (VObj props) rest)
      | _ => None
      end
  | MColon, TColon => Some (stack, MValue false)
  | MAfter, TComma =>
      match stack with
      | FArray _ :: _ => Some (stack, MValue false)
      | FObject _ _ :: _ => Some (stack, MKey false)
      | [] => None
      end
  | MAfter, TRBrack =>
      match stack with
      | FArray items :: rest => Some (push_value (VArr (rev items)) rest)
      | _ => None
      end
  | MAfter, TRBrace =>
      match stack with
      | FObject props _ :: rest => Some (push_value (VObj props) rest)
      | _ => None
      end
  | _, _ => None
  end.

Fixpoint parse_tokens (stack : list frame) (m : mode) (tokens : list token)
  : option value :=
  match tokens with
  | [] =>
      match stack, m with
      | [], MDone v => Some v
      | _, _ => None
      end
  | t :: rest =>
      match parse_step stack m t with
      | Some (stack', m') => parse_tokens stack' m' rest
      | None => None
      end
  end.

(** [JSON.parse(text)]: the value, or a [SyntaxError]. *)
Definition JSON_parse (text : jsstring) : Exc value :=
  match lex LStart text with
  | Some tokens =>
      match parse_tokens [] (MValue false) tokens with
      | Some v => Return v
      | None => Throw (js "SyntaxError")
      end
  | None => Throw (js "SyntaxError")
  end.

End Json.

(** ** Packet serializer ([createXMPPacket]) *)

Module Serializer.
Import Canonicalizer Classifier.

(** ['lifestyle' | 'product' | 'orbit'] *)
Inductive SchemaType : Set := lifestyle | product | orbit.

Definition schema_name (t : SchemaType) : jsstring :=
  match t with
  | lifestyle => js "lifestyle"
  | product => js "product"
  | orbit => js "orbit"
  end.

Definition NAMESPACES_dc : jsstring := js "http://purl.org/dc/elements/1.1/".
Definition NAMESPACES_iptc : jsstring := js "http://iptc.org/std/Iptc4xmpExt/2008-02-29/".
Definition NAMESPACES_xmp : jsstring := js "http://ns.adobe.com/xap/1.0/".
Definition NAMESPACES_photoshop : jsstring := js "http://ns.adobe.com/photoshop/1.0/".
Definition NAMESPACES_processing : jsstring := js "http://orbit.com/processing/1.0/".
Definition NAMESPACES_schema (t : SchemaType) : jsstring :=
  match t with
  | lifestyle => js "http://orbit.com/lifestyle/1.0/"
  | product => js "http://orbit.com/product/1.0/"
  | orbit => js "http://orbit.com/orbit/1.0/"
  end.

Definition nl : jsstring := [10].
Definition dq : jsstring := [34].

(** [s.replace(/c/g, r)] for a single character [c]. *)
Definition replace_char (c : Z) (r : jsstring) (s : jsstring) : jsstring :=
  flat_map (fun x => if x =? c then r else [x]) s.

Definition escapeXML (text : jsstring) : jsstring :=
  replace_char 39 (js "&apos;")
    (replace_char 34 (js "&quot;")
       (replace_char 62 (js "&gt;")
          (replace_char 60 (js "&lt;")
             (replace_char 38 (js "&amp;") text)))).

Fixpoint trim_start (s : jsstring) : jsstring :=
  match s with
  | c :: rest => if is_space c then trim_start rest else s
  | [] => []
  end.

(** [s.trim()] *)
Definition trim (s : jsstring) : jsstring :=
  rev (trim_start (rev (trim_start s))).

Definition nonempty (s : jsstring) : bool :=
  match s with
  | [] => false
  | _ => true
  end.

Definition parseArrayValue (v : value) : list jsstring :=
  match v with
  | VArr items => map to_string items
  | VStr s =>
      if includes s (js ",")
      then filter nonempty (map trim (split 44 s))
      else [s]
  | _ => [to_string v]
  end.

Definition rdf_items (items : list jsstring) (indent : jsstring) : jsstring :=
  join nl (map (fun item => indent ++ js "    <rdf:li>" ++ escapeXML item ++ js "</rdf:li>")
               items).

Definition default_indent : jsstring := js "    ".

Definition generateRDFSeq (items : list jsstring) (indent : jsstring) : jsstring :=
  match items with
  | [] => []
  | _ => nl ++ indent ++ js "  <rdf:Seq>" ++ nl ++ rdf_items items indent ++ nl ++
         indent ++ js "  </rdf:Seq>" ++ nl ++ indent
  end.

Definition generateRDFBag (items : list jsstring) (indent : jsstring) : jsstring :=
  match items with
  | [] => []
  | _ => nl ++ indent ++ js "  <rdf:Bag>" ++ nl ++ rdf_items items indent ++ nl ++
         indent ++ js "  </rdf:Bag>" ++ nl ++ indent
  end.

Definition generateSemanticRDFContainer
    (items : list jsstring) (fieldName originalKey indent : jsstring) : jsstring :=
  match items with
  | [] => []
  | _ =>
      match getSemanticContainerType fieldName originalKey items with
      | seq => generateRDFSeq items indent
      | bag => generateRDFBag items indent
      end
  end.

Definition generateRDFAlt (v lang indent : jsstring) : jsstring :=
  nl ++ indent ++ js "  <rdf:Alt>" ++ nl ++ indent ++ js "    <rdf:li xml:lang='" ++
  lang ++ js "'>" ++ escapeXML v ++ js "</rdf:li>" ++ nl ++ indent ++
  js "  </rdf:Alt>" ++ nl ++ indent.

(** A record with string values, in insertion order. *)
Definition record := list (jsstring * jsstring).

Fixpoint record_set (k v : jsstring) (r : record) : record :=
  match r with
  | [] => [(k, v)]
  | (k', v') :: rest =>
      if str_eqb k' k then (k', v) :: rest else (k', v') :: record_set k v rest
  end.

(** [Object.assign(flattened, nested)] *)
Definition record_assign (target source : record) : record :=
  fold_left (fun t kv => record_set (fst kv) (snd kv) t) source target.

Definition fullKeyOf (prefix key : jsstring) : jsstring :=
  if nonempty prefix then prefix ++ js "_" ++ key else key.

(** One iteration of the loop of [flattenMetadata]. *)
Definition flatten_step (recurse : value -> jsstring -> record) (prefix : jsstring)
    (flattened : record) (entry : jsstring * value) : record :=
  let fullKey := fullKeyOf prefix (fst entry) in
  match snd entry with
  | VNull | VUndefined => flattened
  | VObj _ => record_assign flattened (recurse (snd entry) fullKey)
  | VArr items => record_set fullKey (array_join (js ", ") items) flattened
  | other => record_set fullKey (to_string other) flattened
  end.

(** [flattenMetadata] on an object. *)
Fixpoint flatten_object (metadata : value) (prefix : jsstring) : record :=
  match metadata with
  | VObj props => fold_left (flatten_step flatten_object prefix) props []
  | _ => []
  end.

(** [flattenMetadata(metadata, prefix)]: [Object.entries] throws on [null]
    and [undefined]. *)
Definition flattenMetadata (metadata : value) (prefix : jsstring) : Exc record :=
  let* entries := Object_entries metadata in
  eret (fold_left (flatten_step flatten_object prefix) entries []).

(** [metadata.section?.field || metadata.field] *)
Definition field_of (metadata : value) (section field : jsstring) : value :=
  or_else (get_prop_opt (get_prop metadata section) field) (get_prop metadata field).

Definition generateSceneDescription (metadata : value) : Exc jsstring :=
  let setting := field_of metadata (js "scene_overview") (js "setting") in
  let timeOfDay := field_of metadata (js "scene_overview") (js "time_of_day") in
  let activity := field_of metadata (js "scene_overview") (js "primary_activity") in
  let numPeople := field_of metadata (js "human_elements") (js "number_of_people") in
  let mood := field_of metadata (js "atmospheric_elements") (js "mood") in
  let* parts1 :=
    if truthy setting && truthy activity then
      let* a := call_toLowerCase activity in
      let* s := call_toLowerCase setting in
      eret [js "A scene of " ++ a ++ js " in " ++ s]
    else eret [] in
  let parts2 :=
    if truthy numPeople
    then parts1 ++ [js "featuring " ++ to_string numPeople ++ js " people"]
    else parts1 in
  let* parts3 :=
    if truthy timeOfDay then
      let* t := call_toLowerCase timeOfDay in eret (parts2 ++ [js "during " ++ t])
    else eret parts2 in
  let* parts4 :=
    if truthy mood then
      let* m := call_toLowerCase mood in
      eret (parts3 ++ [js "with a " ++ m ++ js " atmosphere"])
    else eret parts3 in
  eret (match parts4 with
        | [] => []
        | _ => join (js " ") parts4 ++ js "."
        end).

(** [[...new Set(keywords)]]: first occurrences, in order. *)
Fixpoint dedupe (seen : list jsstring) (l : list jsstring) : list jsstring :=
  match l with
  | [] => []
  | x :: rest =>
      if existsb (str_eqb x) seen then dedupe seen rest
      else x :: dedupe (x :: seen) rest
  end.

Definition extractKeywords (metadata : value) : Exc (list jsstring) :=
  let foodBev := field_of metadata (js "key_objects") (js "food_and_beverage") in
  let keywords1 :=
    if truthy foodBev then map toLowerCase (parseArrayValue foodBev) else [] in
  let furniture := field_of metadata (js "key_objects") (js "furniture") in
  let keywords2 :=
    if truthy furniture
    then keywords1 ++ map toLowerCase (parseArrayValue furniture)
    else keywords1 in
  let activity := field_of metadata (js "scene_overview") (js "primary_activity") in
  let* keywords3 :=
    if truthy activity then
      let* a := call_toLowerCase activity in eret (keywords2 ++ [a])
    else eret keywords2 in
  let location := field_of metadata (js "environment") (js "location_type") in
  let* keywords4 :=
    if truthy location then
      let* l := call_toLowerCase location in eret (keywords3 ++ [l])
    else eret keywords3 in
  eret (firstn 10 (dedupe [] keywords4)).

Definition strings (l : list jsstring) : value := VArr (map VStr l).

Definition mapToDublinCore (metadata : value) : Exc (list (jsstring * value)) :=
  let setting := field_of metadata (js "scene_overview") (js "setting") in
  let activity := field_of metadata (js "scene_overview") (js "primary_activity") in
  let dc1 :=
    if truthy setting && truthy activity
    then [(js "title", VStr (to_string setting ++ js " - " ++ to_string activity))]
    else if truthy setting then [(js "title", setting)]
    else [] in
  let* description := generateSceneDescription metadata in
  let dc2 :=
    if nonempty description then dc1 ++ [(js "description", VStr description)]
    else dc1 in
  let* keywords := extractKeywords metadata in
  let dc3 :=
    match keywords with
    | [] => dc2
    | _ => dc2 ++ [(js "subject", strings keywords)]
    end in
  eret (dc3 ++ [(js "creator", VStr (js "ORBIT AI Analysis System"))]).

Definition mapToIPTC (metadata : value) : Exc (list (jsstring * value)) :=
  let demographics := field_of metadata (js "human_elements") (js "demographics") in
  let iptc1 :=
    if truthy demographics then
      match parseArrayValue demographics with
      | [] => []
      | peopleArray => [(js "PersonInImage", strings peopleArray)]
      end
    else [] in
  let locationText := field_of metadata (js "environment") (js "location_type") in
  if truthy locationText then
    let* r := call_includes locationText (js "restaurant") in
    let* b := if r then eret true else call_includes locationText (js "bar") in
    let* c := if b then eret true else call_includes locationText (js "cafe") in
    if c then
      let* l := call_toLowerCase locationText in
      eret (iptc1 ++ [(js "OrganisationInImageName", strings [js "Unidentified " ++ l])])
    else eret iptc1
  else eret iptc1.

Section WithClock.

(** The successive readings of [new Date().toISOString()]. *)
Variable now : nat -> jsstring.

Definition mapToXMPCore (reading : nat) : list (jsstring * value) :=
  [ (js "CreatorTool", VStr (js "ORBIT Metadata MCP v2.1"));
    (js "CreateDate", VStr (now reading));
    (js "MetadataDate", VStr (now (S reading))) ].

Definition mapToPhotoshop (metadata : value) : list (jsstring * value) :=
  let marketingHooks := field_of metadata (js "marketing_potential") (js "emotional_hooks") in
  let targetDemo := field_of metadata (js "marketing_potential") (js "target_demographic") in
  let ps1 :=
    if truthy marketingHooks || truthy targetDemo then
      let i0 := js "AI-analyzed image suitable for" in
      let i1 := if truthy targetDemo
                then i0 ++ js " " ++ to_string targetDemo ++ js " marketing" else i0 in
      let i2 := if truthy marketingHooks
                then i1 ++ js ". Emotional themes: " ++ to_string marketingHooks else i1 in
      [(js "Instructions", VStr i2)]
    else [] in
  ps1 ++ [ (js "Source", VStr (js "AI-generated metadata analysis"));
           (js "ColorMode", VStr (js "3")) ].

(** The frame shared by the block generators. *)
Definition description_block (prefix namespace fields : jsstring) : jsstring :=
  js "        <rdf:Description rdf:about=" ++ dq ++ dq ++ nl ++
  js "          xmlns:" ++ prefix ++ js "=" ++ dq ++ namespace ++ dq ++ js ">" ++ nl ++
  fields ++ js "        </rdf:Description>".

Definition element (prefix name content : jsstring) : jsstring :=
  js "          <" ++ prefix ++ js ":" ++ name ++ js ">" ++ content ++
  js "</" ++ prefix ++ js ":" ++ name ++ js ">" ++ nl.

Definition value_strings (v : value) : list jsstring :=
  match v with
  | VArr items => map to_string items
  | _ => []
  end.

Definition generateDublinCoreBlock (dcFields : list (jsstring * value)) : jsstring :=
  let fields :=
    flat_map (fun kv =>
      let key := fst kv in
      let v := snd kv in
      if str_eqb key (js "title") || str_eqb key (js "description") then
        element (js "dc") key (generateRDFAlt (to_string v) (js "x-default") default_indent)
      else if str_eqb key (js "subject") && isArray v then
        element (js "dc") key (generateRDFBag (value_strings v) default_indent)
      else element (js "dc") key (escapeXML (to_string v)))
      dcFields in
  description_block (js "dc") NAMESPACES_dc fields.

Definition generateIPTCBlock (iptcFields : list (jsstring * value)) : jsstring :=
  let fields :=
    flat_map (fun kv =>
      let key := fst kv in
      let v := snd kv in
      if isArray v then
        element (js "Iptc4xmpExt") key
          (generateSemanticRDFContainer (value_strings v) key [] default_indent)
      else element (js "Iptc4xmpExt") key (escapeXML (to_string v)))
      iptcFields in
  description_block (js "Iptc4xmpExt") NAMESPACES_iptc fields.

Definition generateXMPCoreBlock (xmpFields : list (jsstring * value)) : jsstring :=
  description_block (js "xmp") NAMESPACES_xmp
    (flat_map (fun kv => element (js "xmp") (fst kv) (escapeXML (to_string (snd kv))))
              xmpFields).

Definition generatePhotoshopBlock (psFields : list (jsstring * value)) : jsstring :=
  description_block (js "photoshop") NAMESPACES_photoshop
    (flat_map (fun kv => element (js "photoshop") (fst kv) (escapeXML (to_string (snd kv))))
              psFields).

Definition generateCompleteRawJSON (flattenedMetadata : record)
    (schemaType : SchemaType) (originalMetadata : value) : Exc value :=
  let* dcFields := mapToDublinCore originalMetadata in
  let* iptcFields := mapToIPTC originalMetadata in
  let xmpFields := mapToXMPCore 3 in
  let psFields := mapToPhotoshop originalMetadata in
  let processingInfo :=
    [ (js "processed_timestamp", VStr (now 5));
      (js "processor_version", VStr (js "1.0.0"));
      (js "schema_type", VStr (schema_name schemaType));
      (js "processor_location", VStr (js "local_memory_stream")) ] in
  let beautifiedFields :=
    fold_left (fun fields kv =>
      let fieldName := fieldNameOf (fst kv) in
      let arrayValues := parseArrayValue (VStr (snd kv)) in
      obj_set fieldName
        (if (1 <? length arrayValues)%nat then strings arrayValues else VStr (snd kv))
        fields)
      flattenedMetadata [] in
  eret (VObj
    [ (js "original_metadata", originalMetadata);
      (js "flattened_fields", VObj beautifiedFields);
      (js "standard_metadata",
        VObj [ (js "dublin_core", VObj dcFields);
               (js "iptc", VObj iptcFields);
               (js "xmp_core", VObj xmpFields);
               (js "photoshop", VObj psFields) ]);
      (js "processing", VObj processingInfo) ]).

(** The Ledger element with its content already escaped. *)
Definition raw_json_element (prefix escapedJson : jsstring) : jsstring :=
  element prefix (js "Raw_JSON") escapedJson.

Definition generateCustomORBITBlock (flattenedMetadata : record)
    (schemaType : SchemaType) (originalMetadata : value) : Exc jsstring :=
  let namespace := NAMESPACES_schema schemaType in
  let prefix := schema_name schemaType in
  let fields :=
    flat_map (fun kv =>
      let key := fst kv in
      let fieldName := fieldNameOf key in
      let arrayValues := parseArrayValue (VStr (snd kv)) in
      if (1 <? length arrayValues)%nat then
        element prefix fieldName
          (generateSemanticRDFContainer arrayValues fieldName key default_indent)
      else element prefix fieldName (escapeXML (snd kv)))
      flattenedMetadata in
  let* fields' :=
    if truthy originalMetadata then
      let* completeRawData :=
        generateCompleteRawJSON flattenedMetadata schemaType originalMetadata in
      let rawJson := Json.JSON_stringify completeRawData in
      eret (fields ++ raw_json_element prefix (escapeXML rawJson))
    else eret fields in
  eret (description_block prefix namespace fields').

Definition generateProcessingBlock (processingInfo : record) : jsstring :=
  description_block (js "processing") NAMESPACES_processing
    (flat_map (fun kv => element (js "processing") (fieldNameOf (fst kv))
                                 (escapeXML (snd kv)))
              processingInfo).

Definition generateXMPContent (flattenedMetadata : record) (schemaType : SchemaType)
    (processingInfo : record) (originalMetadata : value) : Exc jsstring :=
  let source := or_else originalMetadata (VObj []) in
  let* dcFields := mapToDublinCore source in
  let* iptcFields := mapToIPTC source in
  let xmpFields := mapToXMPCore 1 in
  let psFields := mapToPhotoshop source in
  let blocks1 := match dcFields with [] => [] | _ => [generateDublinCoreBlock dcFields] end in
  let blocks2 := match iptcFields with [] => [] | _ => [generateIPTCBlock iptcFields] end in
  let blocks3 := match xmpFields with [] => [] | _ => [generateXMPCoreBlock xmpFields] end in
  let blocks4 := match psFields with [] => [] | _ => [generatePhotoshopBlock psFields] end in
  let* custom := generateCustomORBITBlock flattenedMetadata schemaType originalMetadata in
  let blocks6 :=
    match processingInfo with
    | [] => []
    | _ => [generateProcessingBlock processingInfo]
    end in
  eret (join (nl ++ nl) (blocks1 ++ blocks2 ++ blocks3 ++ blocks4 ++ [custom] ++ blocks6)).

Definition wrapXMPContent (content : jsstring) (prettyPrint : bool) : jsstring :=
  let indent := if prettyPrint then nl ++ js "      " else [] in
  let spacing := if prettyPrint then nl ++ js "    " else [] in
  js "<?xpacket begin=" ++ dq ++ [0xFEFF] ++ dq ++ js " id=" ++ dq ++
  js "W5M0MpCehiHzreSzNTczkc9d" ++ dq ++ js "?>" ++ nl ++
  js "    <x:xmpmeta xmlns:x=" ++ dq ++ js "adobe:ns:meta/" ++ dq ++ js " x:xmptk=" ++
  dq ++ js "ORBIT Metadata MCP v2.1" ++ dq ++ js ">" ++ nl ++
  js "      <rdf:RDF xmlns:rdf=" ++ dq ++
  js "http://www.w3.org/1999/02/22-rdf-syntax-ns#" ++ dq ++ js ">" ++
  indent ++ content ++ spacing ++ nl ++
  js "      </rdf:RDF>" ++ nl ++
  js "    </x:xmpmeta>" ++ nl ++
  js "    <?xpacket end=" ++ dq ++ js "w" ++ dq ++ js "?>".

Record options : Set := {
  includeWrappers : bool;
  prettyPrint : bool;
  includeProcessingInfo : bool
}.

Definition default_options : options :=
  {| includeWrappers := true; prettyPrint := true; includeProcessingInfo := true |}.

Record XMPPacketInfo : Type := {
  xmp_content : jsstring;
  packet_size : Z;
  namespace_count : Z;
  field_count : Z
}.

Definition createXMPPacket (metadata : value) (schemaType : SchemaType)
    (opts : options) : Exc XMPPacketInfo :=
  let timestamp := now 0 in
  let processingInfo : record :=
    if includeProcessingInfo opts then
      [ (js "processed_timestamp", timestamp);
        (js "processor_version", js "1.0.0");
        (js "schema_type", schema_name schemaType);
        (js "processor_location", js "local_memory_stream") ]
    else [] in
  let* flattenedMetadata := flattenMetadata metadata (schema_name schemaType) in
  let* content :=
    generateXMPContent flattenedMetadata schemaType processingInfo metadata in
  let xmpContent :=
    if includeWrappers opts then wrapXMPContent content (prettyPrint opts)
    else content in
  let fieldCount :=
    Z.of_nat (length flattenedMetadata) +
    (if includeProcessingInfo opts then Z.of_nat (length processingInfo) else 0) in
  eret {| xmp_content := xmpContent;
          packet_size := Z.of_nat (length (Utf8.encode xmpContent));
          namespace_count := 1;
          field_count := fieldCount |}.

End WithClock.

End Serializer.

(** ** Packet parser ([parseXMPContent], [extractXMPFromImage]) *)

Module Parser.
Import Serializer.

(** [s.replace(/pat/g, rep)] for a literal, non-empty [pat]: the matches are
    taken from left to right and do not overlap; [skip] counts the characters
    of the current match still to be passed over. *)
Fixpoint replace_all_from (pat rep : jsstring) (skip : nat) (s : jsstring) : jsstring :=
  match s with
  | [] => []
  | c :: rest =>
      match skip with
      | S k => replace_all_from pat rep k rest
      | O =>
          if startsWith s pat
          then rep ++ replace_all_from pat rep (length pat - 1) rest
          else c :: replace_all_from pat rep 0 rest
      end
  end.

Definition replace_all (pat rep : jsstring) (s : jsstring) : jsstring :=
  replace_all_from pat rep 0 s.

Definition unescapeXML (text : jsstring) : jsstring :=
  replace_all (js "&apos;") (js "'")
    (replace_all (js "&quot;") dq
       (replace_all (js "&gt;") (js ">")
          (replace_all (js "&lt;") (js "<")
             (replace_all (js "&amp;") (js "&") text)))).

(** The longest prefix without the character [c], and the rest. *)
Fixpoint span_not (c : Z) (s : jsstring) : jsstring * jsstring :=
  match s with
  | [] => ([], [])
  | x :: rest =>
      if x =? c then ([], s)
      else let '(run, after) := span_not c rest in (x :: run, after)
  end.

Definition raw_json_open (prefix : jsstring) : jsstring :=
  js "<" ++ prefix ++ js ":Raw_JSON>".
Definition raw_json_close (prefix : jsstring) : jsstring :=
  js "</" ++ prefix ++ js ":Raw_JSON>".

(** [xmpContent.match(/<p:Raw_JSON>([^<]+)<\/p:Raw_JSON>/)]: the first
    group of the leftmost match. *)
Fixpoint match_raw_json (prefix : jsstring) (s : jsstring) : option jsstring :=
  match s with
  | [] => None
  | _ :: rest =>
      if startsWith s (raw_json_open prefix) then
        let '(run, after) :=
          span_not 60 (skipn (length (raw_json_open prefix)) s) in
        if nonempty run && startsWith after (raw_json_close prefix)
        then Some run
        else match_raw_json prefix rest
      else match_raw_json prefix rest
  end.

Fixpoint count_spaces (s : jsstring) : nat :=
  match s with
  | c :: rest => if is_space c then S (count_spaces rest) else O
  | [] => O
  end.

(** [s.replace(/\.\s+"/g, ', "')]: a period, white space, a quotation mark. *)
Fixpoint repair_from (skip : nat) (s : jsstring) : jsstring :=
  match s with
  | [] => []
  | c :: rest =>
      match skip with
      | S k => repair_from k rest
      | O =>
          let n := count_spaces rest in
          if (c =? 46) && (0 <? n)%nat && Jpeg.is_byte_eq (nth_error rest n) 34
          then js ", " ++ dq ++ repair_from (S n) rest
          else c :: repair_from 0 rest
      end
  end.

Definition repair_periods (s : jsstring) : jsstring := repair_from 0 s.

Definition schema_prefixes : list jsstring :=
  [js "lifestyle"; js "product"; js "orbit"].

(** The body of the loop over [rawJsonPatterns] for one pattern: [Some] when
    the function returns from inside the loop. *)
Definition ledger_metadata (xmpContent prefix : jsstring) : option value :=
  match match_raw_json prefix xmpContent with
  | None => None
  | Some captured =>
      let rawJsonString := repair_periods (unescapeXML captured) in
      match Json.JSON_parse rawJsonString with
      | Throw _ => None
      | Return parsedJson =>
          let original := get_prop parsedJson (js "original_metadata") in
          if truthy parsedJson &&
             (truthy original || truthy (get_prop parsedJson (js "flattened_fields")))
          then
            let enhancedMetadata := [(js "Raw_JSON", VStr rawJsonString)] in
            Some (VObj (if truthy original
                        then Object_assign enhancedMetadata original
                        else enhancedMetadata))
          else None
      end
  end.

(** One match of [/<ns:([^>]+)>([^<]+)<\/ns:[^>]+>/] at the head of [s]: the
    two groups and the length of the match. *)
Definition match_element (ns : jsstring) (s : jsstring)
  : option (jsstring * jsstring * nat) :=
  let opening := js "<" ++ ns ++ js ":" in
  let closing := js "</" ++ ns ++ js ":" in
  if startsWith s opening then
    let '(fieldName, s2) := span_not 62 (skipn (length opening) s) in
    match fieldName, s2 with
    | _ :: _, _ :: s3 =>
        let '(fieldValue, s4) := span_not 60 s3 in
        if nonempty fieldValue && startsWith s4 closing then
          let '(closeName, s6) := span_not 62 (skipn (length closing) s4) in
          match closeName, s6 with
          | _ :: _, _ :: _ =>
              Some (fieldName, fieldValue,
                    (length opening + length fieldName + 1 + length fieldValue +
                     length closing + length closeName + 1)%nat)
          | _, _ => None
          end
        else None
    | _, _ => None
    end
  else None.

(** The loop [while ((match = pattern.exec(xmpContent)) !== null)]: all the
    matches, from left to right, each search starting where the previous
    match ended. *)
Fixpoint scan_elements (ns : jsstring) (skip : nat) (s : jsstring)
  : list (jsstring * jsstring) :=
  match s with
  | [] => []
  | _ :: rest =>
      match skip with
      | S k => scan_elements ns k rest
      | O =>
          match match_element ns s with
          | Some (fieldName, fieldValue, len) =>
              (fieldName, fieldValue) :: scan_elements ns (len - 1) rest
          | None => scan_elements ns 0 rest
          end
      end
  end.

Definition scrape_namespaces : list jsstring :=
  [js "lifestyle"; js "product"; js "orbit"; js "processing"].

(** The regular-expression fallback. *)
Definition scrape (xmpContent : jsstring) : value :=
  VObj (fold_left
          (fun metadata namespace =>
             match scan_elements namespace 0 xmpContent with
             | [] => metadata
             | found =>
                 obj_set namespace
                   (VObj (fold_left
                            (fun fields m =>
                               if str_eqb (fst m) (js "Raw_JSON") then fields
                               else obj_set (fst m) (VStr (unescapeXML (snd m))) fields)
                            found []))
                   metadata
             end)
          scrape_namespaces []).

Definition parseXMPContent (xmpContent : jsstring) : value :=
  match ledger_metadata xmpContent (js "lifestyle") with
  | Some enhanced => enhanced
  | None =>
      match ledger_metadata xmpContent (js "product") with
      | Some enhanced => enhanced
      | None =>
          match ledger_metadata xmpContent (js "orbit") with
          | Some enhanced => enhanced
          | None => scrape xmpContent
          end
      end
  end.

(** [detectSchemaType] of the processor. *)
Definition detectSchemaType (parsedMetadata : value) : SchemaType :=
  let l := get_prop parsedMetadata (js "lifestyle") in
  let p := get_prop parsedMetadata (js "product") in
  if truthy l && (0 <? length (Object_keys l))%nat then lifestyle
  else if truthy p && (0 <? length (Object_keys p))%nat then product
  else orbit.

Record extract_result : Type := {
  xmp_found : bool;
  xmp_content : option jsstring;
  parsed_metadata : option value;
  schema_type : option SchemaType
}.

Definition not_found : extract_result :=
  {| xmp_found := false; xmp_content := None; parsed_metadata := None;
     schema_type := None |}.

(** The methods called inside the [try] block, as computations that may
    throw. *)
Record callees : Type := {
  call_extractXMPFromJPEG : list Z -> Exc (option jsstring);
  call_parseXMPContent : jsstring -> Exc value;
  call_detectSchemaType : value -> Exc SchemaType
}.

(** [try { m } catch (error) { handler }] *)
Definition etry {A} (m : Exc A) (handler : Exc A) : Exc A :=
  match m with
  | Return a => Return a
  | Throw _ => handler
  end.

(** The body of the [try] block of [extractXMPFromImage]. *)
Definition extract_body (c : callees) (imageBuffer : list Z) : Exc extract_result :=
  let* xmpData :=
    if Jpeg.isJPEG imageBuffer then call_extractXMPFromJPEG c imageBuffer
    else eret None in
  match xmpData with
  | None | Some [] => eret not_found
  | Some data =>
      let* parsedMetadata := call_parseXMPContent c data in
      let* schemaType := call_detectSchemaType c parsedMetadata in
      eret {| xmp_found := true; xmp_content := Some data;
              parsed_metadata := Some parsedMetadata;
              schema_type := Some schemaType |}
  end.

Definition extractXMPFromImage_with (c : callees) (imageBuffer : list Z)
  : Exc extract_result :=
  etry (extract_body c imageBuffer) (eret not_found).

(** The methods of the class. *)
Definition methods : callees :=
  {| call_extractXMPFromJPEG := fun buffer => eret (Jpeg.extractXMPFromJPEG buffer);
     call_parseXMPContent := fun data => eret (parseXMPContent data);
     call_detectSchemaType := fun parsed => eret (detectSchemaType parsed) |}.

Definition extractXMPFromImage (imageBuffer : list Z) : Exc extract_result :=
  extractXMPFromImage_with methods imageBuffer.

End Parser.

(** ** Report tool: category organizer and schema detection *)

Module Report.

Record CategoryDefinition : Type := {
  name : jsstring;
  emoji : jsstring;
  fields : list jsstring
}.

Definition standardCategories : list CategoryDefinition :=
  [
  {| name := js "Image Metadata";
     emoji := [55357; 56523];
     fields :=
      [ js "dublin_core_title"; js "dublin_core_description";
        js "dublin_core_subject"; js "dublin_core_creator";
        js "dublin_core_rights"; js "dublin_core_format";
        js "dublin_core_identifier" ] |};
  {| name := js "Technical Metadata";
     emoji := [55357; 56567];
     fields :=
      [ js "xmp_core_creator_tool"; js "xmp_core_create_date";
        js "xmp_core_metadata_date"; js "xmp_core_toolkit";
        js "photoshop_color_mode"; js "iptc_source"; js "iptc_instructions";
        js "iptc_person_in_image" ] |};
  {| name := js "Processing Metadata";
     emoji := [9881; 65039];
     fields :=
      [ js "processing_processed_timestamp"; js "processing_processor_version";
        js "processing_schema_type"; js "processing_processor_location" ] |}
  ].

Definition lifestyleCategories : list CategoryDefinition :=
  standardCategories ++
  [
  {| name := js "Scene Overview";
     emoji := [55357; 56522];
     fields :=
      [ js "scene_overview_setting"; js "setting";
        js "scene_overview_time_of_day"; js "time_of_day";
        js "scene_overview_season"; js "season"; js "scene_overview_occasion";
        js "occasion"; js "scene_overview_primary_activity";
        js "primary_activity" ] |};
  {| name := js "Human Elements";
     emoji := [55357; 56421];
     fields :=
      [ js "human_elements_number_of_people"; js "number_of_people";
        js "human_elements_social_dynamics"; js "social_dynamics";
        js "human_elements_demographics"; js "demographics";
        js "human_elements_interactions"; js "interactions";
        js "human_elements_emotional_states"; js "emotional_states";
        js "human_elements_clothing_style"; js "clothing_style" ] |};
  {| name := js "Environment";
     emoji := [55356; 57101];
     fields :=
      [ js "environment_location_type"; js "location_type";
        js "environment_architectural_elements"; js "architectural_elements";
        js "environment_natural_elements"; js "natural_elements";
        js "environment_urban_context"; js "urban_context";
        js "environment_spatial_arrangement"; js "spatial_arrangement" ] |};
  {| name := js "Key Objects";
     emoji := [55356; 57338];
     fields :=
      [ js "key_objects_food_beverage"; js "food_and_beverage";
        js "key_objects_furniture"; js "furniture";
        js "key_objects_technology"; js "technology";
        js "key_objects_decorative_items"; js "decorative_items";
        js "key_objects_defining_props"; js "defining_props";
        js "key_objects_personal_items"; js "personal_items" ] |};
  {| name := js "Atmospheric Elements";
     emoji := [55356; 57093];
     fields :=
      [ js "atmospheric_elements_lighting_quality"; js "lighting_quality";
        js "atmospheric_elements_color_palette"; js "color_palette";
        js "atmospheric_elements_primary_colors"; js "primary_colors";
        js "atmospheric_elements_mood"; js "mood";
        js "atmospheric_elements_mood_indicators"; js "mood_indicators";
        js "atmospheric_elements_sensory_cues"; js "sensory_cues";
        js "atmospheric_elements_weather_conditions"; js "weather_conditions" ] |};
  {| name := js "Narrative Analysis";
     emoji := [55357; 56534];
     fields :=
      [ js "narrative_analysis_story"; js "narrative_analysis_story_elements";
        js "story_implied"; js "Story_Implied";
        js "narrative_analysis_cultural_significance";
        js "cultural_significance"; js "narrative_analysis_cultural_context";
        js "cultural_context"; js "historical_context";
        js "Historical_Context";
        js "narrative_analysis_socioeconomic_indicators";
        js "socioeconomic_indicators";
        js "narrative_analysis_values_represented"; js "values_represented";
        js "narrative_analysis_lifestyle_category"; js "lifestyle_values" ] |};
  {| name := js "Photographic Elements";
     emoji := [55357; 56567];
     fields :=
      [ js "photographic_elements_composition"; js "composition";
        js "photographic_elements_perspective"; js "perspective";
        js "photographic_elements_focal_points"; js "focal_points";
        js "photographic_elements_depth_of_field"; js "depth_of_field";
        js "photographic_elements_visual_style"; js "visual_style";
        js "photographic_elements_technical_qualities";
        js "technical_qualities" ] |};
  {| name := js "Marketing Potential";
     emoji := [55356; 57263];
     fields :=
      [ js "marketing_potential_target_demographic"; js "target_demographic";
        js "marketing_potential_aspirational_elements";
        js "aspirational_elements";
        js "marketing_potential_brand_alignment_opportunities";
        js "brand_alignment_opportunities";
        js "marketing_potential_emotional_hooks"; js "emotional_hooks";
        js "marketing_potential_market_appeal"; js "alignment_opportunities" ] |}
  ].

Definition productCategories : list CategoryDefinition :=
  standardCategories ++
  [
  {| name := js "Product Identification";
     emoji := [55356; 57335; 65039];
     fields :=
      [ js "product_identification_product_type"; js "product_type";
        js "product_identification_product_category"; js "product_category";
        js "product_identification_design_style"; js "design_style";
        js "product_identification_brand"; js "brand";
        js "product_identification_model"; js "model" ] |};
  {| name := js "Physical Characteristics";
     emoji := [55357; 56589];
     fields :=
      [ js "physical_characteristics_primary_color"; js "primary_color";
        js "physical_characteristics_secondary_colors"; js "secondary_colors";
        js "physical_characteristics_material"; js "material";
        js "physical_characteristics_pattern_type"; js "pattern_type";
        js "physical_characteristics_surface_texture"; js "surface_texture";
        js "physical_characteristics_finish"; js "finish";
        js "physical_characteristics_dimensions"; js "dimensions";
        js "physical_characteristics_weight"; js "weight" ] |};
  {| name := js "Structural Elements";
     emoji := [55356; 57303; 65039];
     fields :=
      [ js "structural_elements_frame_type"; js "frame_type";
        js "structural_elements_frame_design"; js "frame_design";
        js "structural_elements_leg_structure"; js "leg_structure";
        js "structural_elements_support_systems"; js "support_systems";
        js "structural_elements_construction_details";
        js "construction_details" ] |};
  {| name := js "Design Attributes";
     emoji := [55356; 57256];
     fields :=
      [ js "design_attributes_aesthetic_category"; js "aesthetic_category";
        js "design_attributes_design_era"; js "design_era";
        js "design_attributes_visual_weight"; js "visual_weight";
        js "design_attributes_design_influence"; js "design_influence";
        js "design_attributes_style_elements"; js "style_elements";
        js "design_attributes_intended_setting"; js "intended_setting" ] |};
  {| name := js "Commercial Analysis";
     emoji := [55357; 56508];
     fields :=
      [ js "commercial_analysis_market_positioning"; js "market_positioning";
        js "commercial_analysis_target_market"; js "target_market";
        js "commercial_analysis_price_point_indication"; js "price_point";
        js "commercial_analysis_competitive_advantages";
        js "competitive_advantages";
        js "commercial_analysis_market_differentiation";
        js "market_differentiation"; js "commercial_analysis_retail_category";
        js "retail_category" ] |};
  {| name := js "Quality Assessment";
     emoji := [11088];
     fields :=
      [ js "quality_assessment_construction_quality";
        js "construction_quality"; js "quality_assessment_material_quality";
        js "material_quality"; js "quality_assessment_finish_quality";
        js "finish_quality"; js "quality_assessment_craftsmanship_level";
        js "craftsmanship_level";
        js "quality_assessment_durability_indicators";
        js "durability_indicators"; js "quality_assessment_value_proposition";
        js "value_proposition" ] |}
  ].

Definition orbitCategories : list CategoryDefinition :=
  standardCategories ++
  [
  {| name := js "Scene Overview";
     emoji := [55357; 56522];
     fields :=
      [ js "scene_overview_setting"; js "scene_overview_time_of_day";
        js "scene_overview_activities"; js "scene_overview_overall_mood";
        js "scene_overview_scene_complexity" ] |};
  {| name := js "Human Elements";
     emoji := [55357; 56421];
     fields :=
      [ js "human_elements_people_count"; js "human_elements_age_groups";
        js "human_elements_gender_distribution";
        js "human_elements_ethnicity_diversity";
        js "human_elements_interactions"; js "human_elements_emotions" ] |};
  {| name := js "Environment";
     emoji := [55356; 57101];
     fields :=
      [ js "environment_location_type"; js "environment_architecture_style";
        js "environment_natural_elements"; js "environment_weather_conditions";
        js "environment_lighting_conditions" ] |};
  {| name := js "Key Objects";
     emoji := [55356; 57338];
     fields :=
      [ js "key_objects_products"; js "key_objects_technology";
        js "key_objects_furniture"; js "key_objects_vehicles";
        js "key_objects_notable_items" ] |};
  {| name := js "Atmospheric Elements";
     emoji := [55356; 57093];
     fields :=
      [ js "atmospheric_elements_color_scheme";
        js "atmospheric_elements_lighting_quality";
        js "atmospheric_elements_visual_mood";
        js "atmospheric_elements_energy_level";
        js "atmospheric_elements_aesthetic_style" ] |};
  {| name := js "Narrative Analysis";
     emoji := [55357; 56534];
     fields :=
      [ js "narrative_analysis_story_elements";
        js "narrative_analysis_cultural_context";
        js "narrative_analysis_social_dynamics";
        js "narrative_analysis_values_expressed";
        js "narrative_analysis_lifestyle_indicators" ] |};
  {| name := js "Photographic Elements";
     emoji := [55357; 56567];
     fields :=
      [ js "photographic_elements_composition_style";
        js "photographic_elements_camera_angle";
        js "photographic_elements_depth_of_field";
        js "photographic_elements_focus_points";
        js "photographic_elements_technical_quality" ] |};
  {| name := js "Marketing Potential";
     emoji := [55356; 57263];
     fields :=
      [ js "marketing_potential_demographics";
        js "marketing_potential_psychographics";
        js "marketing_potential_brand_categories";
        js "marketing_potential_emotional_appeal";
        js "marketing_potential_commercial_viability" ] |}
  ].

(** [this.schemaCategoryMap[schemaType] || []]: a table of the literal, or
    the empty list.  For a name that [Object.prototype] defines the lookup
    finds the inherited member, which is truthy and is kept: [None] stands
    for it. *)
Definition schemaCategoryMap (schemaType : jsstring)
  : option (list CategoryDefinition) :=
  if str_eqb schemaType (js "lifestyle") then Some lifestyleCategories
  else if str_eqb schemaType (js "product") then Some productCategories
  else if str_eqb schemaType (js "orbit") then Some orbitCategories
  else if existsb (str_eqb schemaType) objectPrototypeNames then None
  else Some [].

Definition namespacePrefixes : list jsstring :=
  [ js "lifestyle"; js "product"; js "orbit"; js "dublin_core"; js "iptc";
    js "xmp_core"; js "photoshop"; js "processing" ].

(** [s.replace(/_/g, ' ').split(' ').filter(w => w.length > 2)] *)
Definition words_of (s : jsstring) : list jsstring :=
  filter (fun w => (2 <? length w)%nat)
         (split 32 (Serializer.replace_char 95 (js " ") s)).

Definition fieldMatchesPattern (key fieldPattern schemaType : jsstring) : bool :=
  let keyLower := toLowerCase key in
  let patternLower := toLowerCase fieldPattern in
  (* Method 1: exact matching *)
  if str_eqb key fieldPattern || str_eqb keyLower patternLower then true
  else
    (* Method 2: direct matching on the original names *)
    let keyWithoutSchema := Canonicalizer.strip_schema_prefix namespacePrefixes key in
    if str_eqb keyWithoutSchema fieldPattern || includes keyWithoutSchema fieldPattern
       || includes key fieldPattern
    then true
    else
      (* Method 3: the last part of the pattern *)
      let categoryParts := split 95 fieldPattern in
      let lastPart := last categoryParts [] in
      if (1 <? length categoryParts)%nat &&
         (str_eqb keyWithoutSchema lastPart || includes keyLower (toLowerCase lastPart))
      then true
      else
        (* Method 4: the words of the pattern within the words of the key *)
        let keyWords := words_of keyLower in
        let patternWords := words_of patternLower in
        let hasAllPatternWords :=
          (0 <? length patternWords)%nat &&
          forallb (fun patternWord =>
                     existsb (fun keyWord => includes keyWord patternWord ||
                                             includes patternWord keyWord)
                             keyWords)
                  patternWords in
        if hasAllPatternWords then true
        else
          (* Method 5: case-insensitive containment *)
          includes keyLower patternLower || includes patternLower keyLower.

(** [schemaData[key]] for an own property. *)
Definition get_own (v : value) (k : jsstring) : value :=
  match lookup k (own_entries v) with
  | Some x => x
  | None => VUndefined
  end.

Record organized : Type := {
  categories : list (CategoryDefinition * list (jsstring * value));
  totalCategories : Z;
  totalFields : Z
}.

(** The state of the loops: categories pushed so far, the set of assigned
    fields, the counter. *)
Record organizer_state : Type := {
  organizedCategories : list (CategoryDefinition * list (jsstring * value));
  assignedFields : list jsstring;
  fieldCounter : Z
}.

Definition has (assigned : list jsstring) (key : jsstring) : bool :=
  existsb (str_eqb key) assigned.

(** The body of the loop over the patterns of one category. *)
Definition claim_pattern (schemaData : value) (schemaType : jsstring)
    (st : list (jsstring * value) * list jsstring * Z) (fieldPattern : jsstring)
  : list (jsstring * value) * list jsstring * Z :=
  let '(categoryFields, assigned, total) := st in
  let matchingKeys :=
    filter (fun key =>
              if str_eqb key (js "Raw_JSON") then false
              else if has assigned key then false
              else fieldMatchesPattern key fieldPattern schemaType)
           (Object_keys schemaData) in
  fold_left (fun acc key =>
               let '(cf, asg, tot) := acc in
               (obj_set key (get_own schemaData key) cf, asg ++ [key], tot + 1))
            matchingKeys (categoryFields, assigned, total).

(** The body of the loop over the categories. *)
Definition claim_category (schemaData : value) (schemaType : jsstring)
    (st : organizer_state) (category : CategoryDefinition) : organizer_state :=
  let '(categoryFields, assigned, total) :=
    fold_left (claim_pattern schemaData schemaType) (fields category)
              ([], assignedFields st, fieldCounter st) in
  {| organizedCategories :=
       match categoryFields with
       | [] => organizedCategories st
       | _ => organizedCategories st ++ [(category, categoryFields)]
       end;
     assignedFields := assigned;
     fieldCounter := total |}.

Definition additionalMetadata : CategoryDefinition :=
  {| name := js "Additional Metadata"; emoji := [55357; 56541]; fields := [] |}.

(** The fields that are organized, for metadata that are neither [null] nor
    [undefined]: the object nested under the schema name when there is one,
    the metadata themselves otherwise.  [metadata[schemaType]] is an own
    property or else a member inherited from the prototype; of the inherited
    members only the one named [__proto__] is an object, the prototype
    itself, which has no enumerable property. *)
Definition schemaDataOf (metadata : value) (schemaType : jsstring) : value :=
  let nested := get_prop metadata schemaType in
  if truthy nested && typeof_object nested then nested
  else if str_eqb schemaType (js "__proto__") &&
          negb (has (Object_keys metadata) schemaType)
  then VObj []
  else metadata.

Definition organizeMetadataByCategories (metadata : value) (schemaType : jsstring)
  : Exc organized :=
  let categories := schemaCategoryMap schemaType in
  (* [metadata[schemaType]] *)
  let* schemaData :=
    match metadata with
    | VNull | VUndefined => typeError
    | _ => eret (schemaDataOf metadata schemaType)
    end in
  (* [for (const category of categories)]: an inherited member is not
     iterable *)
  let* categories :=
    match categories with
    | Some table => eret table
    | None => typeError
    end in
  let st :=
    fold_left (claim_category schemaData schemaType) categories
              {| organizedCategories := []; assignedFields := []; fieldCounter := 0 |} in
  let unmatchedKeys :=
    filter (fun key => negb (has (assignedFields st) key) &&
                       negb (str_eqb key (js "Raw_JSON")))
           (Object_keys schemaData) in
  let unmatchedFields :=
    fold_left (fun fields key => obj_set key (get_own schemaData key) fields)
              unmatchedKeys [] in
  let organizedCategories' :=
    match unmatchedFields with
    | [] => organizedCategories st
    | _ => organizedCategories st ++ [(additionalMetadata, unmatchedFields)]
    end in
  eret {| categories := organizedCategories';
          totalCategories := Z.of_nat (length organizedCategories');
          totalFields := fieldCounter st + Z.of_nat (length unmatchedKeys) |}.

(** [s.replace(/\.\s*\n\s*"/g, ',\n  "')]: a period, white space with at
    least one line feed, a quotation mark. *)
Fixpoint repair_lines_from (skip : nat) (s : jsstring) : jsstring :=
  match s with
  | [] => []
  | c :: rest =>
      match skip with
      | S k => repair_lines_from k rest
      | O =>
          let n := Parser.count_spaces rest in
          if (c =? 46) && existsb (Z.eqb 10) (firstn n rest) &&
             Jpeg.is_byte_eq (nth_error rest n) 34
          then js "," ++ [10] ++ js "  " ++ [34] ++ repair_lines_from (S n) rest
          else c :: repair_lines_from 0 rest
      end
  end.

(** The cleaning step of [extractRawJSONFromMetadata]. *)
Definition clean_json (rawJsonString : jsstring) : jsstring :=
  if includes rawJsonString (js "." ++ [10] ++ js "  " ++ [34]) ||
     includes rawJsonString (js ". " ++ [34])
  then Parser.repair_periods (repair_lines_from 0 rawJsonString)
  else rawJsonString.

(** The loop over [rawJsonSources]: the first source that is a non-empty
    string and parses to a value other than [null]; on [null] the call
    [Object.keys(parsed)] inside the [try] block throws, and the loop goes
    on as it does when [JSON.parse] throws. *)
Fixpoint first_parsed (sources : list value) : value :=
  match sources with
  | [] => VNull
  | VStr (c :: s) :: rest =>
      match Json.JSON_parse (clean_json (c :: s)) with
      | Return VNull => first_parsed rest
      | Return parsed => parsed
      | Throw _ => first_parsed rest
      end
  | _ :: rest => first_parsed rest
  end.

Definition extractRawJSONFromMetadata (metadata : value) : value :=
  first_parsed
    [ get_prop metadata (js "Raw_JSON");
      get_prop_opt (get_prop metadata (js "lifestyle")) (js "Raw_JSON");
      get_prop_opt (get_prop metadata (js "product")) (js "Raw_JSON");
      get_prop_opt (get_prop metadata (js "orbit")) (js "Raw_JSON") ].

Definition lifestylePatterns : list jsstring :=
  [ js "lifestyle_"; js "emotional_hooks"; js "target_demographic";
    js "social_dynamics"; js "marketing_potential"; js "aspirational_elements";
    js "brand_alignment"; js "cultural_significance"; js "lifestyle_values";
    js "socioeconomic_indicators" ].

Definition productPatterns : list jsstring :=
  [ js "product_"; js "commercial_analysis"; js "target_market"; js "price_point";
    js "design_style"; js "material_quality"; js "construction_quality";
    js "market_positioning"; js "product_type"; js "physical_characteristics" ].

Definition orbitPatterns : list jsstring :=
  [ js "orbit_"; js "scene_complexity"; js "energy_level"; js "aesthetic_style";
    js "visual_mood"; js "commercial_viability"; js "photographic_elements" ].

(** [patterns.filter(pattern => keyString.includes(pattern)).length] *)
Definition countMatches (keyString : jsstring) (patterns : list jsstring) : nat :=
  length (filter (fun pattern => includes keyString pattern) patterns).

(** [metadata.k && typeof metadata.k === 'object'] *)
Definition nested_object (metadata : value) (k : jsstring) : bool :=
  truthy (get_prop metadata k) && typeof_object (get_prop metadata k).

(** The key string scored by the pattern lists. *)
Definition keyStringOf (metadata : value) : jsstring :=
  toLowerCase (join (js " ") (Object_keys metadata)).

(** [rawJson && rawJson.processing && rawJson.processing.schema_type] *)
Definition ledgerSchemaType (metadata : value) : value :=
  get_prop (get_prop (extractRawJSONFromMetadata metadata) (js "processing"))
           (js "schema_type").

Definition ledgerHasSchemaType (metadata : value) : bool :=
  let rawJson := extractRawJSONFromMetadata metadata in
  truthy rawJson && truthy (get_prop rawJson (js "processing")) &&
  truthy (ledgerSchemaType metadata).

(** [detectSchemaType] of the report tool; the result is the string
    returned, or whatever value the Ledger holds as its schema tag. *)
Definition detectSchemaType (metadata : value) : value :=
  (* top-level schema keys first *)
  if nested_object metadata (js "lifestyle") then VStr (js "lifestyle")
  else if nested_object metadata (js "product") then VStr (js "product")
  else if nested_object metadata (js "orbit") then VStr (js "orbit")
  (* the schema type recorded in the Ledger *)
  else if ledgerHasSchemaType metadata then ledgerSchemaType metadata
  else
    let keyString := keyStringOf metadata in
    let lifestyleMatches := countMatches keyString lifestylePatterns in
    let productMatches := countMatches keyString productPatterns in
    let orbitMatches := countMatches keyString orbitPatterns in
    if (productMatches <? lifestyleMatches)%nat && (orbitMatches <? lifestyleMatches)%nat
    then VStr (js "lifestyle")
    else if (lifestyleMatches <? productMatches)%nat &&
            (orbitMatches <? productMatches)%nat
    then VStr (js "product")
    else if (lifestyleMatches <? orbitMatches)%nat &&
            (productMatches <? orbitMatches)%nat
    then VStr (js "orbit")
    (* fallback: any schema prefix *)
    else if includes keyString (js "lifestyle_") then VStr (js "lifestyle")
    else if includes keyString (js "product_") then VStr (js "product")
    else if includes keyString (js "orbit_") then VStr (js "orbit")
    else VStr (js "lifestyle").

End Report.

(** ** Scenarios *)

Module Scenarios.
Import Serializer.

(** The tree of the specification's scenario. *)
Definition patio_tree : value :=
  VObj [ (js "scene_overview",
           VObj [ (js "setting", VStr (js "Outdoor patio"));
                  (js "time_of_day", VStr (js "Evening")) ]);
         (js "human_elements", VObj [ (js "number_of_people", VNum 8) ]) ].

(** A tree with one field. *)
Definition setting_tree (setting : jsstring) : value :=
  VObj [ (js "scene_overview", VObj [ (js "setting", VStr setting) ]) ].

(** The text of the packet made from a tree with the lifestyle schema and
    the default options, read at a fixed instant. *)
Definition packet_of (tree : value) : option jsstring :=
  match createXMPPacket Reference.fixed_clock tree lifestyle default_options with
  | Return info => Some (xmp_content info)
  | Throw _ => None
  end.

(** The [original_metadata] section recovered from a packet by the steps of
    the parser: the Ledger element is captured, unescaped, repaired and
    decoded. *)
Definition recovered_original (packet : jsstring) : option value :=
  match Parser.match_raw_json (js "lifestyle") packet with
  | Some captured =>
      match Json.JSON_parse (Parser.repair_periods (Parser.unescapeXML captured)) with
      | Return ledger => Some (get_prop ledger (js "original_metadata"))
      | Throw _ => None
      end
  | None => None
  end.

(** A truncated stream: the start-of-image marker and one more byte. *)
Definition truncated_jpeg : list Z := [0xFF; 0xD8; 0xFF].

(** A packet whose Ledger element is not JSON, and a stream that carries
    it. *)
Definition broken_ledger_packet : jsstring :=
  js "<lifestyle:Raw_JSON>{not json</lifestyle:Raw_JSON>".
Definition broken_ledger_jpeg : list Z :=
  [0xFF; 0xD8] ++ Reference.xmp_segment broken_ledger_packet ++ [0xFF; 0xD9].

End Scenarios.

(** ** Notions used in the statements about the organizer *)

Module Organized.
Import Report.

(** The keys placed in a list of categories, category after category. *)
Definition category_keys (cats : list (CategoryDefinition * list (jsstring * value)))
  : list jsstring :=
  flat_map (fun c => map fst (snd c)) cats.

(** The sum of the per-category field counts. *)
Definition field_count_sum (cats : list (CategoryDefinition * list (jsstring * value)))
  : Z :=
  fold_right (fun c acc => Z.of_nat (length (snd c)) + acc) 0 cats.

(** Every key but [Raw_JSON] is a field. *)
Definition is_field (key : jsstring) : bool := negb (str_eqb key (js "Raw_JSON")).

(** The field stored for a key. *)
Definition entry_of (schemaData : value) (key : jsstring) : jsstring * value :=
  (key, get_own schemaData key).

(** The keys claimed by one pattern, given the fields already assigned. *)
Definition matching (schemaData : value) (schemaType : jsstring)
    (assigned : list jsstring) (fieldPattern : jsstring) : list jsstring :=
  filter (fun key =>
            if str_eqb key (js "Raw_JSON") then false
            else if has assigned key then false
            else fieldMatchesPattern key fieldPattern schemaType)
         (Object_keys schemaData).

(** The keys left to the catch-all category. *)
Definition unmatched (schemaData : value) (assigned : list jsstring) : list jsstring :=
  filter (fun key => negb (has assigned key) && negb (str_eqb key (js "Raw_JSON")))
         (Object_keys schemaData).

(** The invariant of the set of assigned fields: distinct fields of the
    schema data. *)
Definition valid (schemaData : value) (assigned : list jsstring) : Prop :=
  NoDup assigned /\
  forall k, In k assigned -> In k (Object_keys schemaData) /\ is_field k = true.

(** The invariant of the loop over the categories. *)
Definition state_ok (schemaData : value) (table : list CategoryDefinition)
    (st : organizer_state) : Prop :=
  category_keys (organizedCategories st) = assignedFields st
  /\ valid schemaData (assignedFields st)
  /\ field_count_sum (organizedCategories st) = fieldCounter st
  /\ fieldCounter st = Z.of_nat (length (assignedFields st))
  /\ Forall (fun c => In (fst c) table) (organizedCategories st).

End Organized.

(** ** Character entities ([escapeXML], [unescapeXML]) *)

Module XmlText.
Import Serializer Parser.

(** The entity written for a character, or the character itself; the flags
    tell which of [<], [>], the quotation mark and the apostrophe are
    written as entities. *)
Definition entity_of (lt gt quot apos : bool) (c : Z) : jsstring :=
  if (c =? 60) && lt then js "&lt;"
  else if (c =? 62) && gt then js "&gt;"
  else if (c =? 34) && quot then js "&quot;"
  else if (c =? 39) && apos then js "&apos;"
  else [c].

(** The entity written for a character by [escapeXML]. *)
Definition escape_char (c : Z) : jsstring :=
  if c =? 38 then js "&amp;" else entity_of true true true true c.

(** The last four replacements of [unescapeXML]. *)
Definition decode_entities (text : jsstring) : jsstring :=
  replace_all (js "&apos;") (js "'")
    (replace_all (js "&quot;") dq
       (replace_all (js "&gt;") (js ">")
          (replace_all (js "&lt;") (js "<") text))).

(** A character that [escapeXML] leaves alone. *)
Definition plain (c : Z) : Prop :=
  c <> 38 /\ c <> 60 /\ c <> 62 /\ c <> 34 /\ c <> 39.

End XmlText.

(** ** Packet validation ([validateXMPPacket]) *)

Module PacketCheck.

(** The keys of [NAMESPACES], in the order of the literal. *)
Definition namespaceKeys : list jsstring :=
  [ js "dc"; js "iptc"; js "xmp"; js "photoshop"; js "xmpRights"; js "exif";
    js "lifestyle"; js "product"; js "orbit"; js "processing" ].

(** The index of the first occurrence of a character. *)
Fixpoint index_of (c : Z) (s : jsstring) : option nat :=
  match s with
  | [] => None
  | x :: rest =>
      if x =? c then Some O
      else match index_of c rest with
           | Some n => Some (S n)
           | None => None
           end
  end.

(** [(s.match(/re/g) || []).length]: the matches are taken from left to
    right and do not overlap; [match_at] gives the length of the match that
    begins a text, [skip] counts the characters of the current match still
    to be passed over. *)
Fixpoint count_matches (match_at : jsstring -> option nat) (skip : nat) (s : jsstring)
  : nat :=
  match s with
  | [] => O
  | _ :: rest =>
      match skip with
      | S k => count_matches match_at k rest
      | O =>
          match match_at s with
          | Some len => S (count_matches match_at (len - 1) rest)
          | None => count_matches match_at 0 rest
          end
      end
  end.

(** One match of [/<[^\/][^>]*>/]: [<], a character other than [/], then
    everything up to the next [>]. *)
Definition open_tag_at (s : jsstring) : option nat :=
  match s with
  | 60 :: c :: rest =>
      if c =? 47 then None
      else match index_of 62 rest with
           | Some n => Some (n + 3)%nat
           | None => None
           end
  | _ => None
  end.

(** One match of [/<\/[^>]*>/]. *)
Definition close_tag_at (s : jsstring) : option nat :=
  match s with
  | 60 :: 47 :: rest =>
      match index_of 62 rest with
      | Some n => Some (n + 3)%nat
      | None => None
      end
  | _ => None
  end.

(** One match of [/<[^>]*\/>/]: the first [>] after the [<] comes right
    after a [/]. *)
Definition self_close_tag_at (s : jsstring) : option nat :=
  match s with
  | 60 :: rest =>
      match index_of 62 rest with
      | Some (S n) =>
          if Jpeg.is_byte_eq (nth_error rest n) 47 then Some (n + 3)%nat else None
      | _ => None
      end
  | _ => None
  end.

Record validation : Type := {
  valid : bool;
  errors : list jsstring;
  warnings : list jsstring
}.

Definition validateXMPPacket (xmpContent : jsstring) : validation :=
  let errors1 :=
    if includes xmpContent (js "<x:xmpmeta") then []
    else [js "Missing XMP metadata wrapper"] in
  let errors2 :=
    if includes xmpContent (js "<rdf:RDF") then errors1
    else errors1 ++ [js "Missing RDF wrapper"] in
  let errors3 :=
    if includes xmpContent (js "<rdf:Description") then errors2
    else errors2 ++ [js "Missing RDF description"] in
  let hasCustomNamespace :=
    existsb (fun ns => includes xmpContent (js "xmlns:" ++ ns ++ js "=") ||
                       includes xmpContent (js "<" ++ ns ++ js ":"))
            namespaceKeys in
  let warnings1 :=
    if hasCustomNamespace then [] else [js "No custom ORBIT namespaces detected"] in
  let openTags := count_matches open_tag_at 0 xmpContent in
  let closeTags := count_matches close_tag_at 0 xmpContent in
  let selfCloseTags := count_matches self_close_tag_at 0 xmpContent in
  let warnings2 :=
    if (openTags =? closeTags + selfCloseTags)%nat then warnings1
    else warnings1 ++ [js "Possible XML tag mismatch detected"] in
  {| valid := match errors3 with [] => true | _ => false end;
     errors := errors3;
     warnings := warnings2 |}.

End PacketCheck.

(** ** Aligned field lines ([formatFieldsWithAlignment]) *)

Module Layout.
Import Canonicalizer Serializer.

(** [list.map(f)] for an [f] that may throw: the first exception ends it. *)
Fixpoint emap {A B} (f : A -> Exc B) (l : list A) : Exc (list B) :=
  match l with
  | [] => eret []
  | x :: rest =>
      let* y := f x in
      let* ys := emap f rest in
      eret (y :: ys)
  end.

(** [s.length] *)
Definition len (s : jsstring) : Z := Z.of_nat (length s).

(** [Math.max(...lengths)]: [None] stands for [-Infinity]. *)
Definition max_length (names : list jsstring) : option Z :=
  fold_left (fun acc name =>
               Some (match acc with
                     | None => len name
                     | Some m => Z.max m (len name)
                     end))
            names None.

(** [' '.repeat(count)]: a negative count is a [RangeError]. *)
Definition spaces (count : Z) : Exc jsstring :=
  if count <? 0 then Throw (js "RangeError") else eret (repeat 32 (Z.to_nat count)).

Definition formatFieldsWithAlignment (flattenedMetadata processingInfo : record)
  : Exc jsstring :=
  (* [{ ...flattenedMetadata, ...processingInfo }] *)
  let allFields := record_assign flattenedMetadata processingInfo in
  let fieldNames := map (fun kv => beautifyFieldName (fst kv)) allFields in
  let paddingWidth :=
    match max_length fieldNames with
    | None => 20
    | Some maxLength => Z.max maxLength 20
    end in
  let line (kv : jsstring * jsstring) : Exc jsstring :=
    let beautifiedName := beautifyFieldName (fst kv) in
    let* padding := spaces (paddingWidth - len beautifiedName) in
    eret (beautifiedName ++ padding ++ js ": " ++ snd kv) in
  let* metadataLines := emap line flattenedMetadata in
  let* processingLines := emap line processingInfo in
  eret (join nl (metadataLines ++ processingLines)).

End Layout.

(** ** Report tool: field names, values and lines *)

Module ReportFields.
Import Canonicalizer Report Layout.

(** [specialCases] *)
Definition specialCases : list (jsstring * jsstring) :=
  [ (js "food_beverage", js "food_and_beverage");
    (js "and_beverage", js "food_and_beverage");
    (js "beverage", js "food_and_beverage") ].

Fixpoint assoc (k : jsstring) (table : list (jsstring * jsstring)) : option jsstring :=
  match table with
  | [] => None
  | (k', v) :: rest => if str_eqb k' k then Some v else assoc k rest
  end.

(** [beautifyFieldName] of the report tool: the text of the processor's,
    with the table [specialCases] applied to the cleaned key.  When the
    cleaned key names a member of [Object.prototype], [specialCases[cleanKey]]
    finds that member, a function or an object, [cleanKey] becomes it and
    [cleanKey.split] is not a function. *)
Definition beautifyFieldName (key : jsstring) : Exc jsstring :=
  let cleanKey := strip_schema_prefix schemaNames key in
  let cleanKey := strip_section_prefix sectionPrefixes cleanKey in
  let* cleanKey :=
    match assoc cleanKey specialCases with
    | Some fixed => eret fixed
    | None =>
        if existsb (str_eqb cleanKey) objectPrototypeNames then typeError
        else eret cleanKey
    end in
  let parts := split underscore cleanKey in
  if (length parts <=? 1)%nat then eret (toTitleCase cleanKey)
  else eret (toTitleCase (processedName cleanKey parts)).

Definition is_lower_alnum (c : Z) : bool := is_lower c || Json.is_digit c.

(** [key.toLowerCase().replace(/^(lifestyle|product|orbit)_/, '')
       .replace(/[^a-z0-9]/g, '')] *)
Definition normalizeFieldKey (key : jsstring) : jsstring :=
  filter is_lower_alnum
    (strip_schema_prefix [js "lifestyle"; js "product"; js "orbit"] (toLowerCase key)).

(** [v !== null && v !== undefined && v !== ''] *)
Definition is_present (v : value) : bool :=
  match v with
  | VNull | VUndefined => false
  | VStr [] => false
  | _ => true
  end.

Definition formatFieldValue (v : value) : jsstring :=
  match v with
  | VNull | VUndefined => []
  | VArr items => array_join (js ", ") (filter is_present items)
  | VObj props =>
      match props with
      | [] => []
      | _ =>
          join (js ", ")
            (map (fun kv =>
                    match snd kv with
                    | VArr items => array_join (js ", ") (filter is_present items)
                    | x => to_string x
                    end)
                 (filter (fun kv => is_present (snd kv)) props))
      end
  | other => to_string other
  end.

(** One iteration of the loop of [flattenNestedMetadata]. *)
Definition nested_step (recurse : value -> jsstring -> list (jsstring * value))
    (prefix : jsstring) (flattened : list (jsstring * value))
    (entry : jsstring * value) : list (jsstring * value) :=
  let fullKey := Serializer.fullKeyOf prefix (fst entry) in
  match snd entry with
  | VObj _ => Object_assign flattened (VObj (recurse (snd entry) fullKey))
  | other => obj_set fullKey other flattened
  end.

Fixpoint flatten_nested (nestedData : value) (prefix : jsstring)
  : list (jsstring * value) :=
  match nestedData with
  | VObj props => fold_left (nested_step flatten_nested prefix) props []
  | _ => []
  end.

(** [flattenNestedMetadata(nestedData, prefix)] *)
Definition flattenNestedMetadata (nestedData : value) (prefix : jsstring)
  : Exc (list (jsstring * value)) :=
  let* entries := Object_entries nestedData in
  eret (fold_left (nested_step flatten_nested prefix) entries []).

(** One iteration of the loop of [countNestedFields]. *)
Definition count_step (recurse : value -> Z -> Z) (depth : Z) (count : Z)
    (entry : jsstring * value) : Z :=
  match snd entry with
  | VObj _ => count + recurse (snd entry) (depth + 1)
  | _ => count + 1
  end.

Fixpoint count_nested (obj : value) (depth : Z) : Z :=
  match obj with
  | VObj props =>
      if 3 <? depth then 0 else fold_left (count_step count_nested depth) props 0
  | _ => 0
  end.

(** [countNestedFields(obj, depth)] *)
Definition countNestedFields (obj : value) (depth : Z) : Z :=
  if negb (truthy obj) || negb (typeof_object obj) || (3 <? depth) then 0
  else fold_left (count_step count_nested depth) (own_entries obj) 0.

(** [Math.max(maxLength + 1, 25)] *)
Definition paddingWidthOf (fieldNames : list jsstring) : Z :=
  match max_length fieldNames with
  | None => 25
  | Some m => Z.max (m + 1) 25
  end.

(** [`${beautifiedName}${padding}: ${formattedValue}`] *)
Definition field_line (paddingWidth : Z) (beautifiedName formattedValue : jsstring)
  : jsstring :=
  beautifiedName ++
  repeat 32 (Z.to_nat (Z.max 1 (paddingWidth - len beautifiedName))) ++
  js ": " ++ formattedValue.

(** The lines of the fields of one object: the names are computed first,
    then one line is made for every entry. *)
Definition field_lines (fields : list (jsstring * value)) : Exc (list jsstring) :=
  let* fieldNames := emap beautifyFieldName (map fst fields) in
  let paddingWidth := paddingWidthOf fieldNames in
  emap (fun kv =>
          let* beautifiedName := beautifyFieldName (fst kv) in
          eret (field_line paddingWidth beautifiedName (formatFieldValue (snd kv))))
       fields.

Definition formatMetadataFieldsFlat (metadata : value) : Exc jsstring :=
  let* entries := Object_entries metadata in
  let* formattedFields := field_lines entries in
  eret (join Serializer.nl formattedFields).

(** The lines of one category: the header, a rule, the fields. *)
Definition category_lines (c : CategoryDefinition * list (jsstring * value))
  : Exc (list jsstring) :=
  match snd c with
  | [] => eret []
  | fields =>
      let* lines := field_lines fields in
      eret ([ Serializer.nl ++ emoji (fst c) ++ js " " ++ toUpperCase (name (fst c));
              repeat 45 65 ] ++ lines)
  end.

Fixpoint sections (cats : list (CategoryDefinition * list (jsstring * value)))
  : Exc (list jsstring) :=
  match cats with
  | [] => eret []
  | c :: rest =>
      let* lines := category_lines c in
      let* more := sections rest in
      eret (lines ++ more)
  end.

Definition formatMetadataFields (metadata : value) (useCategories : bool)
    (schemaType : jsstring) : Exc jsstring :=
  if negb useCategories then formatMetadataFieldsFlat metadata
  else
    let* organized := organizeMetadataByCategories metadata schemaType in
    let* formattedSections := sections (categories organized) in
    eret (join Serializer.nl formattedSections).

(** [selectKeyFieldsByCategory]: the first two fields of every category. *)
Definition selectKeyFieldsByCategory (metadata : value) (schemaType : jsstring)
  : Exc (list (jsstring * value)) :=
  let* organized := organizeMetadataByCategories metadata schemaType in
  eret (fold_left (fun keyFields c =>
                     fold_left (fun acc kv => obj_set (fst kv) (snd kv) acc)
                               (firstn 2 (snd c)) keyFields)
                  (categories organized) []).

Definition selectKeyFields (metadata : value) (schemaType : jsstring)
  : Exc (list (jsstring * value)) :=
  selectKeyFieldsByCategory metadata schemaType.

(** The state of [enhanceMetadataWithAllFields]: the object [enhanced] and
    the set [seenFields]. *)
Definition enhancer_state : Type := (list (jsstring * value) * list jsstring)%type.

(** A field is added unless a field with the same normalized key has been
    seen. *)
Definition add_field (prefix : jsstring) (st : enhancer_state)
    (entry : jsstring * value) : enhancer_state :=
  let '(enhanced, seenFields) := st in
  let key := prefix ++ fst entry in
  let normalizedKey := normalizeFieldKey key in
  if has seenFields normalizedKey then st
  else (obj_set key (VStr (formatFieldValue (snd entry))) enhanced,
        seenFields ++ [normalizedKey]).

(** One section of [standard_metadata]. *)
Definition add_section (standard : value) (section prefix : jsstring)
    (st : enhancer_state) : enhancer_state :=
  let content := get_prop standard section in
  if truthy content then fold_left (add_field prefix) (own_entries content) st
  else st.

Definition add_ledger (rawJson : value) (st : enhancer_state) : enhancer_state :=
  if truthy rawJson then
    let original := get_prop rawJson (js "original_metadata") in
    let flattenedFields := get_prop rawJson (js "flattened_fields") in
    let st1 :=
      if truthy original then
        fold_left (add_field [])
                  (fold_left (nested_step flatten_nested []) (own_entries original) [])
                  st
      else if truthy flattenedFields then
        fold_left (add_field []) (own_entries flattenedFields) st
      else st in
    let standard := get_prop rawJson (js "standard_metadata") in
    let st2 :=
      if truthy standard then
        add_section standard (js "photoshop") (js "photoshop_")
          (add_section standard (js "xmp_core") (js "xmp_core_")
             (add_section standard (js "iptc") (js "iptc_")
                (add_section standard (js "dublin_core") (js "dublin_core_") st1)))
      else st1 in
    let processing := get_prop rawJson (js "processing") in
    if truthy processing then
      (fold_left (fun enhanced kv =>
                    obj_set (js "processing_" ++ fst kv)
                            (VStr (formatFieldValue (snd kv))) enhanced)
                 (own_entries processing) (fst st2),
       snd st2)
    else st2
  else st.

Definition enhanceMetadataWithAllFields (parsedMetadata : value)
  : Exc (list (jsstring * value)) :=
  let* entries := Object_entries parsedMetadata in
  let rawJson := extractRawJSONFromMetadata parsedMetadata in
  let st := add_ledger rawJson ([], []) in
  let st' :=
    fold_left (fun st kv =>
                 if str_eqb (fst kv) (js "Raw_JSON") then st
                 else add_field [] st kv)
              entries st in
  eret (fst st').

Section WithRounding.

(** [Math.round((captured / total) * 100)], computed on doubles. *)
Variable percentage : Z -> Z -> Z.

Record coverage : Type := {
  totalEmbeddedFields : Z;
  capturedFields : Z;
  missingFields : Z;
  coveragePercentage : Z
}.

Definition validateFieldCoverage (metadata : value) (schemaType : jsstring)
  : Exc coverage :=
  let* keys := let* entries := Object_entries metadata in eret (map fst entries) in
  let rawJson := extractRawJSONFromMetadata metadata in
  let total0 :=
    if truthy rawJson then
      let original := get_prop rawJson (js "original_metadata") in
      let standard := get_prop rawJson (js "standard_metadata") in
      let processing := get_prop rawJson (js "processing") in
      (if truthy original then countNestedFields original 0 else 0) +
      (if truthy standard then countNestedFields standard 0 else 0) +
      (if truthy processing then Z.of_nat (length (Object_keys processing)) else 0)
    else 0 in
  let captured :=
    Z.of_nat (length (filter (fun key => negb (str_eqb key (js "Raw_JSON"))) keys)) in
  let total := if total0 =? 0 then captured else total0 in
  eret {| totalEmbeddedFields := total;
          capturedFields := captured;
          missingFields := Z.max 0 (total - captured);
          coveragePercentage := if 0 <? total then percentage captured total else 100 |}.

End WithRounding.

End ReportFields.

(** ** Report tool: the request *)

Module ReportRequest.

(** [filename.replace(/\.[^/.]+$/, '')]: the leftmost period that is
    followed, up to the end, by one or more characters other than [/] and
    [.] is removed with what follows it. *)
Fixpoint strip_extension (s : jsstring) : jsstring :=
  match s with
  | [] => []
  | c :: rest =>
      if (c =? 46) && Serializer.nonempty rest &&
         forallb (fun x => negb (x =? 47) && negb (x =? 46)) rest
      then []
      else c :: strip_extension rest
  end.

Definition generateDefaultOutputPath (imagePath format : jsstring) : jsstring :=
  let pathParts := split 47 imagePath in
  (* [pathParts.pop() || 'metadata'] *)
  let filename :=
    match last pathParts [] with
    | [] => js "metadata"
    | popped => popped
    end in
  let directory := join (js "/") (removelast pathParts) in
  let baseName := strip_extension filename in
  let suffix := if str_eqb format (js "json-only") then js ".json" else js ".txt" in
  if Serializer.nonempty directory
  then directory ++ js "/" ++ baseName ++ js "_metadata" ++ suffix
  else baseName ++ js "_metadata" ++ suffix.

Record input_validation : Type := {
  valid : bool;
  errors : list jsstring
}.

Definition is_string (v : value) : bool :=
  match v with VStr _ => true | _ => false end.
Definition is_boolean (v : value) : bool :=
  match v with VBool _ => true | _ => false end.
Definition is_undefined (v : value) : bool :=
  match v with VUndefined => true | _ => false end.

Definition formats : list jsstring := [js "detailed"; js "simple"; js "json-only"].
Definition validExtensions : list jsstring :=
  [js ".jpg"; js ".jpeg"; js ".png"; js ".tiff"].

(** [formats.includes(v)] *)
Definition is_format (v : value) : bool :=
  match v with
  | VStr s => existsb (str_eqb s) formats
  | _ => false
  end.

(** [validExtensions.some(ext => image_path.toLowerCase().endsWith(ext))] *)
Fixpoint some_extension (image_path : value) (extensions : list jsstring) : Exc bool :=
  match extensions with
  | [] => eret false
  | ext :: rest =>
      let* lower := call_toLowerCase image_path in
      if endsWith lower ext then eret true else some_extension image_path rest
  end.

Definition validateInput (params : value) : Exc input_validation :=
  match params with
  | VNull | VUndefined => typeError
  | _ =>
      let image_path := get_prop params (js "image_path") in
      let format := get_prop params (js "format") in
      let output_path := get_prop params (js "output_path") in
      let include_processing_info := get_prop params (js "include_processing_info") in
      let include_raw_json := get_prop params (js "include_raw_json") in
      let errors1 :=
        if negb (truthy image_path) || negb (is_string image_path)
        then [js "image_path is required and must be a string"] else [] in
      let errors2 :=
        if negb (truthy format) || negb (is_format format)
        then errors1 ++ [js "format must be one of: detailed, simple, json-only"]
        else errors1 in
      let errors3 :=
        if truthy output_path && negb (is_string output_path)
        then errors2 ++ [js "output_path must be a string if provided"]
        else errors2 in
      let errors4 :=
        if negb (is_undefined include_processing_info) &&
           negb (is_boolean include_processing_info)
        then errors3 ++ [js "include_processing_info must be a boolean if provided"]
        else errors3 in
      let errors5 :=
        if negb (is_undefined include_raw_json) && negb (is_boolean include_raw_json)
        then errors4 ++ [js "include_raw_json must be a boolean if provided"]
        else errors4 in
      let* errors6 :=
        if truthy image_path then
          let* hasValidExtension := some_extension image_path validExtensions in
          if hasValidExtension then eret errors5
          else eret (errors5 ++
            [js "image_path must have a valid image extension (.jpg, .jpeg, .png, .tiff)"])
        else eret errors5 in
      eret {| valid := match errors6 with [] => true | _ => false end;
              errors := errors6 |}
  end.

End ReportRequest.

(** ** Notions used in the statements *)

Module Shapes.
Import Serializer.

(** A field that is missing, or empty, or a text. *)
Definition text_or_absent (v : value) : Prop :=
  truthy v = false \/ exists s, v = VStr s.

(** Every key of a record begins with the prefix and an underscore. *)
Definition keys_begin (prefix : jsstring) (r : record) : Prop :=
  Forall (fun kv => startsWith (fst kv) (prefix ++ js "_") = true) r.

End Shapes.


(** * Properties *)

(** ** Strings *)

Section StringFacts.

Lemma str_eqb_eq (a b : jsstring) : str_eqb a b = true <-> a = b.
Proof.
  revert b; induction a as [|x a IH]; intros [|y b]; simpl; split;
    try congruence; try reflexivity.
  - rewrite andb_true_iff, Z.eqb_eq, IH. intros [-> ->]. reflexivity.
  - intros H. injection H as -> ->. rewrite Z.eqb_refl.
    apply IH. reflexivity.
Qed.

Lemma startsWith_spec (s p : jsstring) :
  startsWith s p = true <-> exists r, s = p ++ r.
Proof.
  revert s; induction p as [|y p IH]; intros s.
  - split; [intros _; exists s; reflexivity | intros _; destruct s; reflexivity].
  - destruct s as [|x s]; cbn [startsWith].
    + split; [discriminate | intros [r H]; discriminate].
    + rewrite andb_true_iff, Z.eqb_eq, IH. split.
      * intros [-> [r ->]]. exists r. reflexivity.
      * intros [r H]. injection H as -> ->. split; [reflexivity | exists r; reflexivity].
Qed.

Lemma includes_spec (s p : jsstring) :
  includes s p = true <-> exists a b, s = a ++ p ++ b.
Proof.
  induction s as [|x s IH].
  - cbn [includes]. rewrite orb_false_r, startsWith_spec. split.
    + intros [r H]. exists [], r. exact H.
    + intros [a [b H]]. destruct a as [|y a]; [|discriminate].
      exists b. exact H.
  - cbn [includes]. rewrite orb_true_iff, startsWith_spec, IH. split.
    + intros [[r H] | [a [b H]]].
      * exists [], r. exact H.
      * exists (x :: a), b. rewrite H. reflexivity.
    + intros [[|y a] [b H]].
      * left. exists b. exact H.
      * right. injection H as -> ->. exists a, b. reflexivity.
Qed.

Lemma toLowerCase_app (a b : jsstring) :
  toLowerCase (a ++ b) = toLowerCase a ++ toLowerCase b.
Proof. apply map_app. Qed.

(** A lower-case needle found in a string is found in its lower-cased form. *)
Lemma includes_toLowerCase (s p : jsstring) :
  toLowerCase p = p -> includes s p = true -> includes (toLowerCase s) p = true.
Proof.
  intros Hp H. apply includes_spec in H as [a [b ->]].
  apply includes_spec. exists (toLowerCase a), (toLowerCase b).
  rewrite !toLowerCase_app, Hp. reflexivity.
Qed.

Lemma startsWith_In (s p : jsstring) (c : Z) :
  In c p -> startsWith s p = true -> In c s.
Proof.
  intros Hc H. apply startsWith_spec in H as [r ->].
  apply in_or_app. left. exact Hc.
Qed.

Lemma split_aux_no_sep (sep : Z) (cur s : jsstring) :
  ~ In sep s -> split_aux sep cur s = [rev cur ++ s].
Proof.
  revert cur; induction s as [|c s IH]; intros cur Hn; simpl.
  - rewrite app_nil_r. reflexivity.
  - destruct (Z.eqb_spec c sep) as [->|Hne].
    + exfalso. apply Hn. left. reflexivity.
    + rewrite IH by (intros H; apply Hn; right; exact H).
      simpl. rewrite <- app_assoc. reflexivity.
Qed.

Lemma split_no_sep (sep : Z) (s : jsstring) :
  ~ In sep s -> split sep s = [s].
Proof. intros H. unfold split. rewrite split_aux_no_sep by exact H. reflexivity. Qed.

(** No part of a split contains the separator. *)
Lemma split_aux_parts (sep : Z) (cur s : jsstring) :
  ~ In sep cur -> Forall (fun part => ~ In sep part) (split_aux sep cur s).
Proof.
  revert cur; induction s as [|c s IH]; intros cur Hcur; simpl.
  - constructor; [|constructor]. rewrite <- in_rev. exact Hcur.
  - destruct (Z.eqb_spec c sep) as [->|Hne].
    + constructor.
      * rewrite <- in_rev. exact Hcur.
      * apply IH. intros [].
    + apply IH. intros [H|H]; [congruence | exact (Hcur H)].
Qed.

Lemma split_parts (sep : Z) (s : jsstring) :
  Forall (fun part => ~ In sep part) (split sep s).
Proof. apply split_aux_parts. intros []. Qed.

Lemma join_no_sep (c : Z) (sep : jsstring) (parts : list jsstring) :
  ~ In c sep -> Forall (fun part => ~ In c part) parts -> ~ In c (join sep parts).
Proof.
  intros Hsep. induction 1 as [|p rest Hp Hrest IH]; simpl.
  - intros [].
  - destruct rest as [|q rest']; [exact Hp|].
    intros H. apply in_app_or in H as [H|H]; [exact (Hp H)|].
    apply in_app_or in H as [H|H]; [exact (Hsep H) | exact (IH H)].
Qed.

End StringFacts.

(** ** The canonicalizer *)

Module CanonicalizerFacts.
Import Canonicalizer.

Lemma lower_cu_not_underscore (c : Z) : c <> underscore -> lower_cu c <> underscore.
Proof.
  unfold lower_cu, is_upper, underscore. intros Hc.
  destruct (Z.leb_spec 65 c), (Z.leb_spec c 90); simpl; lia.
Qed.

Lemma upper_cu_not_underscore (c : Z) : c <> underscore -> upper_cu c <> underscore.
Proof.
  unfold upper_cu, is_lower, underscore. intros Hc.
  destruct (Z.leb_spec 97 c), (Z.leb_spec c 122); simpl; lia.
Qed.

Lemma capitalize_no_underscore (w : jsstring) :
  ~ In underscore w -> ~ In underscore (capitalize w).
Proof.
  intros Hw H. unfold capitalize in H. apply in_app_or in H as [H|H].
  - destruct w as [|c w]; [exact H|]. simpl in H. destruct H as [H|[]].
    apply (upper_cu_not_underscore c); [|exact H].
    intros ->. apply Hw. left. reflexivity.
  - unfold toLowerCase in H. apply in_map_iff in H as [c [Hc Hin]].
    apply (lower_cu_not_underscore c); [|exact Hc].
    intros ->. apply Hw. destruct w; [exact Hin | right; exact Hin].
Qed.

(** A title-cased name contains no underscore. *)
Lemma toTitleCase_no_underscore (s : jsstring) : ~ In underscore (toTitleCase s).
Proof.
  unfold toTitleCase. apply join_no_sep.
  - intros [H|[]]. discriminate H.
  - apply Forall_map. eapply Forall_impl; [|apply split_parts].
    intros w Hw. apply capitalize_no_underscore. exact Hw.
Qed.

Lemma beautifyFieldName_is_title (k : jsstring) :
  exists s, beautifyFieldName k = toTitleCase s.
Proof.
  unfold beautifyFieldName.
  destruct (_ <=? 1)%nat; eexists; reflexivity.
Qed.

Lemma beautifyFieldName_no_underscore (k : jsstring) :
  ~ In underscore (beautifyFieldName k).
Proof.
  destruct (beautifyFieldName_is_title k) as [s ->].
  apply toTitleCase_no_underscore.
Qed.

Lemma strip_schema_prefix_no_underscore (names : list jsstring) (s : jsstring) :
  ~ In underscore s -> strip_schema_prefix names s = s.
Proof.
  intros Hs. induction names as [|n rest IH]; simpl; [reflexivity|].
  destruct (startsWith s (n ++ [underscore])) eqn:E; [|exact IH].
  exfalso. apply Hs. apply (startsWith_In s (n ++ [underscore])); [|exact E].
  apply in_or_app. right. left. reflexivity.
Qed.

Lemma strip_section_prefix_no_underscore (prefixes : list jsstring) (s : jsstring) :
  Forall (In underscore) prefixes -> ~ In underscore s ->
  strip_section_prefix prefixes s = s.
Proof.
  intros Hp Hs. induction Hp as [|p rest Hin _ IH]; simpl; [reflexivity|].
  destruct (startsWith s p) eqn:E; [|exact IH].
  exfalso. apply Hs. exact (startsWith_In s p _ Hin E).
Qed.

Lemma sectionPrefixes_underscore : Forall (In underscore) sectionPrefixes.
Proof.
  unfold sectionPrefixes.
  repeat (constructor; [apply in_rev; left; reflexivity|]). constructor.
Qed.

(** On a key without underscore the canonicalizer capitalizes the key as one
    word. *)
Lemma beautifyFieldName_single_word (s : jsstring) :
  ~ In underscore s -> beautifyFieldName s = capitalize s.
Proof.
  intros Hs. unfold beautifyFieldName.
  rewrite strip_schema_prefix_no_underscore by exact Hs.
  rewrite strip_section_prefix_no_underscore
    by (exact sectionPrefixes_underscore || exact Hs).
  rewrite split_no_sep by exact Hs. simpl.
  unfold toTitleCase. rewrite split_no_sep by exact Hs. reflexivity.
Qed.

Lemma upper_cu_idem (c : Z) : upper_cu (upper_cu c) = upper_cu c.
Proof.
  unfold upper_cu, is_lower.
  destruct (Z.leb_spec 97 c), (Z.leb_spec c 122); simpl;
    destruct (Z.leb_spec 97 (c - 32)), (Z.leb_spec (c - 32) 122); simpl;
    try lia;
    destruct (Z.leb_spec 97 c), (Z.leb_spec c 122); simpl; lia.
Qed.

Lemma lower_cu_idem (c : Z) : lower_cu (lower_cu c) = lower_cu c.
Proof.
  unfold lower_cu, is_upper.
  destruct (Z.leb_spec 65 c), (Z.leb_spec c 90); simpl;
    destruct (Z.leb_spec 65 (c + 32)), (Z.leb_spec (c + 32) 90); simpl;
    try lia;
    destruct (Z.leb_spec 65 c), (Z.leb_spec c 90); simpl; lia.
Qed.

Lemma capitalize_idem (w : jsstring) : capitalize (capitalize w) = capitalize w.
Proof.
  destruct w as [|c w]; [reflexivity|].
  unfold capitalize. simpl. rewrite upper_cu_idem. f_equal.
  unfold toLowerCase. rewrite map_map.
  apply map_ext. intros a. apply lower_cu_idem.
Qed.

(** C9: the canonical display name of [lifestyle_scene_overview_time_of_day]
    is exactly ["Time Of Day"]: the schema prefix and the section prefix are
    stripped, the remainder [time_of_day] is one of the whole-term patterns and
    is kept whole, and every underscore-delimited token is capitalized. *)
Theorem beautifyFieldName_time_of_day :
  strip_section_prefix sectionPrefixes
    (strip_schema_prefix schemaNames (js "lifestyle_scene_overview_time_of_day"))
    = js "time_of_day"
  /\ In (js "time_of_day") wholeTermPatterns
  /\ processedName (js "time_of_day") (split underscore (js "time_of_day"))
     = js "time_of_day"
  /\ beautifyFieldName (js "lifestyle_scene_overview_time_of_day") = js "Time Of Day".
Proof.
  split; [reflexivity|]. split; [left; reflexivity|].
  split; reflexivity.
Qed.

(** C5, as the code has it, for keys made of ASCII characters: the display
    name is a function of the key alone, and a second application of the
    canonicalizer treats the whole display name as one word (first character
    upper-cased, every other character lower-cased).  Hence
    [beautifyFieldName] is idempotent on every key without underscore, and
    from the second application on for every key. *)
Theorem beautifyFieldName_twice (k : jsstring) :
  ascii_text k ->
  beautifyFieldName (beautifyFieldName k) = capitalize (beautifyFieldName k)
  /\ beautifyFieldName (beautifyFieldName (beautifyFieldName k))
     = beautifyFieldName (beautifyFieldName k)
  /\ (~ In underscore k ->
      beautifyFieldName (beautifyFieldName k) = beautifyFieldName k).
Proof.
  intros _.
  assert (H2 : beautifyFieldName (beautifyFieldName k) = capitalize (beautifyFieldName k))
    by (apply beautifyFieldName_single_word, beautifyFieldName_no_underscore).
  split; [exact H2|]. split.
  - rewrite H2 at 1.
    rewrite beautifyFieldName_single_word
      by (apply capitalize_no_underscore, beautifyFieldName_no_underscore).
    rewrite capitalize_idem. symmetry. exact H2.
  - intros Hn.
    rewrite H2, (beautifyFieldName_single_word k Hn). apply capitalize_idem.
Qed.

(** The canonicalizer is not idempotent: [time_of_day] gives ["Time Of Day"],
    which gives ["Time of day"]. *)
Lemma beautifyFieldName_not_idempotent :
  ~ (forall k : jsstring,
       beautifyFieldName (beautifyFieldName k) = beautifyFieldName k).
Proof.
  intros H. specialize (H (js "time_of_day")). vm_compute in H. discriminate H.
Qed.

Lemma beautifyFieldName_twice_witness :
  ascii_text (js "setting")
  /\ ~ In underscore (js "setting")
  /\ beautifyFieldName (beautifyFieldName (js "setting")) = js "Setting".
Proof.
  assert (Ha : ascii_text (js "setting")).
  { unfold ascii_text. repeat constructor; cbn; lia. }
  assert (Hn : ~ In underscore (js "setting")).
  { cbn. unfold underscore. intuition discriminate. }
  split; [exact Ha|]. split; [exact Hn|].
  destruct (beautifyFieldName_twice (js "setting") Ha) as [_ [_ H]].
  rewrite (H Hn). reflexivity.
Defined.

End CanonicalizerFacts.

(** ** The classifier *)

Module ClassifierFacts.
Import Classifier.

Lemma nameMatches_technology (normalizedField normalizedKey : jsstring) :
  includes normalizedField (js "technology") = true \/
  includes normalizedKey (js "technology") = true ->
  nameMatches normalizedField normalizedKey unorderedPatterns = true.
Proof.
  intros H. unfold nameMatches. apply existsb_exists.
  exists (js "technology"). split.
  - unfold unorderedPatterns. do 10 right. left. reflexivity.
  - apply orb_true_iff. exact H.
Qed.

(** C7: the unordered vocabulary is looked up before the ordered one, so a
    field whose canonical name or original key contains [technology] once
    it is put in lower case, as the classifier puts both names, is
    classified [bag] whatever else the names contain and whatever the
    values are.  The canonical names are in title case ([Technology]), and
    the original key may be missing. *)
Theorem technology_is_unordered
    (fieldName originalKey : jsstring) (values : list jsstring) :
  includes (toLowerCase fieldName) (js "technology") = true \/
  includes (toLowerCase originalKey) (js "technology") = true ->
  getSemanticContainerType fieldName originalKey values = bag.
Proof.
  intros H. unfold getSemanticContainerType.
  rewrite (nameMatches_technology _ _ H). reflexivity.
Qed.

(** The key of the scenario: it matches the ordered vocabulary
    ([key_objects]) as well, and it is a bag for every list of values. *)
Lemma key_objects_technology_is_bag (values : list jsstring) :
  let key := js "lifestyle_key_objects_technology" in
  nameMatches (toLowerCase (Canonicalizer.fieldNameOf key)) (toLowerCase key)
    sequentialPatterns = true
  /\ Canonicalizer.fieldNameOf key = js "Technology"
  /\ getSemanticContainerType (Canonicalizer.fieldNameOf key) key values = bag.
Proof.
  split; [reflexivity|]. split; [reflexivity|].
  unfold getSemanticContainerType.
  rewrite nameMatches_technology by (right; reflexivity). reflexivity.
Qed.

(** The canonical name alone, in title case and without an original key,
    with a value that the contextual analysis would take for a
    progression. *)
Lemma technology_is_unordered_witness :
  includes (js "Technology") (js "technology") = false
  /\ includes (toLowerCase (js "Technology")) (js "technology") = true
  /\ existsb (matches_any_i ageWords) [js "laptop"; js "old radio"] = true
  /\ getSemanticContainerType (js "Technology") [] [js "laptop"; js "old radio"] = bag
  /\ getSemanticContainerType (js "Key Objects Technology")
       (js "lifestyle_key_objects_technology") [] = bag.
Proof.
  split; [reflexivity|]. split; [reflexivity|]. split; [reflexivity|]. split.
  - apply technology_is_unordered. left. reflexivity.
  - apply technology_is_unordered. right. reflexivity.
Defined.

End ClassifierFacts.

(** ** UTF-8 *)

Module Utf8Facts.
Import Utf8.

Lemma in_range_true (lo hi b : Z) : lo <= b <= hi -> in_range lo hi b = true.
Proof.
  intros H. unfold in_range. apply andb_true_iff. split; apply Z.leb_le; lia.
Qed.

Lemma in_range_false (lo hi b : Z) : b < lo \/ hi < b -> in_range lo hi b = false.
Proof.
  intros H. unfold in_range. apply andb_false_iff.
  destruct H as [H|H]; [left | right]; apply Z.leb_gt; exact H.
Qed.

Lemma decode_one (b : Z) (r : list Z) :
  0 <= b <= 0x7F -> decode_scalars (b :: r) = b :: decode_scalars r.
Proof.
  intros Hb. cbn [decode_scalars]. rewrite in_range_true by exact Hb. reflexivity.
Qed.

Lemma decode_two (b0 b1 : Z) (r : list Z) :
  0xC2 <= b0 <= 0xDF -> 0x80 <= b1 <= 0xBF ->
  decode_scalars (b0 :: b1 :: r)
  = ((b0 - 0xC0) * 64 + (b1 - 0x80)) :: decode_scalars r.
Proof.
  intros H0 H1. cbn [decode_scalars]. unfold continuation.
  rewrite (in_range_false 0 0x7F b0) by lia.
  rewrite (in_range_true 0xC2 0xDF b0) by exact H0.
  rewrite (in_range_true 0x80 0xBF b1) by exact H1.
  reflexivity.
Qed.

Lemma decode_three (b0 b1 b2 : Z) (r : list Z) :
  0xE0 <= b0 <= 0xEF ->
  (if b0 =? 0xE0 then 0xA0 else 0x80) <= b1 <= (if b0 =? 0xED then 0x9F else 0xBF) ->
  0x80 <= b2 <= 0xBF ->
  decode_scalars (b0 :: b1 :: b2 :: r)
  = ((b0 - 0xE0) * 4096 + (b1 - 0x80) * 64 + (b2 - 0x80)) :: decode_scalars r.
Proof.
  intros H0 H1 H2. cbn [decode_scalars]. unfold continuation.
  rewrite (in_range_false 0 0x7F b0) by lia.
  rewrite (in_range_false 0xC2 0xDF b0) by lia.
  rewrite (in_range_true 0xE0 0xEF b0) by exact H0.
  rewrite (in_range_true _ _ b1) by exact H1.
  rewrite (in_range_true 0x80 0xBF b2) by exact H2.
  reflexivity.
Qed.

Lemma decode_four (b0 b1 b2 b3 : Z) (r : list Z) :
  0xF0 <= b0 <= 0xF4 ->
  (if b0 =? 0xF0 then 0x90 else 0x80) <= b1 <= (if b0 =? 0xF4 then 0x8F else 0xBF) ->
  0x80 <= b2 <= 0xBF -> 0x80 <= b3 <= 0xBF ->
  decode_scalars (b0 :: b1 :: b2 :: b3 :: r)
  = ((b0 - 0xF0) * 262144 + (b1 - 0x80) * 4096 + (b2 - 0x80) * 64 + (b3 - 0x80))
      :: decode_scalars r.
Proof.
  intros H0 H1 H2 H3. cbn [decode_scalars]. unfold continuation.
  rewrite (in_range_false 0 0x7F b0) by lia.
  rewrite (in_range_false 0xC2 0xDF b0) by lia.
  rewrite (in_range_false 0xE0 0xEF b0) by lia.
  rewrite (in_range_true 0xF0 0xF4 b0) by exact H0.
  rewrite (in_range_true _ _ b1) by exact H1.
  rewrite (in_range_true 0x80 0xBF b2) by exact H2.
  rewrite (in_range_true 0x80 0xBF b3) by exact H3.
  reflexivity.
Qed.

(** Decoding undoes the encoding of a scalar value. *)
Lemma decode_utf8_of_cp (cp : Z) (r : list Z) :
  0 <= cp < 0x110000 -> ~ (0xD800 <= cp <= 0xDFFF) ->
  decode_scalars (utf8_of_cp cp ++ r) = cp :: decode_scalars r.
Proof.
  intros Hcp Hs. unfold utf8_of_cp.
  destruct (Z.ltb_spec cp 0x80); [|destruct (Z.ltb_spec cp 0x800);
    [|destruct (Z.ltb_spec cp 0x10000)]]; cbn [app].
  - apply decode_one. lia.
  - rewrite decode_two by (Z.div_mod_to_equations; lia).
    f_equal. Z.div_mod_to_equations; lia.
  - rewrite decode_three.
    + f_equal. Z.div_mod_to_equations; lia.
    + Z.div_mod_to_equations; lia.
    + destruct (Z.eqb_spec (0xE0 + cp / 4096) 0xE0),
               (Z.eqb_spec (0xE0 + cp / 4096) 0xED);
        Z.div_mod_to_equations; lia.
    + Z.div_mod_to_equations; lia.
  - rewrite decode_four.
    + f_equal. Z.div_mod_to_equations; lia.
    + Z.div_mod_to_equations; lia.
    + destruct (Z.eqb_spec (0xF0 + cp / 262144) 0xF0),
               (Z.eqb_spec (0xF0 + cp / 262144) 0xF4);
        Z.div_mod_to_equations; lia.
    + Z.div_mod_to_equations; lia.
    + Z.div_mod_to_equations; lia.
Qed.

Lemma units_of_pair (c d : Z) :
  is_high c = true -> is_low d = true ->
  units_of_cp (0x10000 + (c - 0xD800) * 1024 + (d - 0xDC00)) = [c; d].
Proof.
  unfold is_high, is_low, units_of_cp. intros Hc Hd.
  apply andb_true_iff in Hc as [Hc1 Hc2]. apply andb_true_iff in Hd as [Hd1 Hd2].
  apply Z.leb_le in Hc1, Hc2, Hd1, Hd2.
  destruct (Z.ltb_spec (0x10000 + (c - 0xD800) * 1024 + (d - 0xDC00)) 0x10000);
    [exfalso; lia|].
  f_equal; [|f_equal]; Z.div_mod_to_equations; lia.
Qed.

(** Encoding then decoding a well-formed string gives the string back,
    before the byte order mark is looked at. *)
Lemma decode_scalars_encode (n : nat) :
  forall s : jsstring,
    (length s <= n)%nat -> Reference.well_formed_utf16 s = true ->
    flat_map units_of_cp (decode_scalars (encode s)) = s.
Proof.
  induction n as [|n IH]; intros [|c rest] Hlen Hwf; try reflexivity;
    cbn [length] in Hlen; [lia|].
  cbn [Reference.well_formed_utf16 encode] in *.
  destruct (is_high c) eqn:Hh.
  - destruct rest as [|d rest']; [discriminate|].
    apply andb_true_iff in Hwf as [Hd Hwf]. rewrite Hd.
    pose proof Hh as Hh'. pose proof Hd as Hd'.
    unfold is_high in Hh'. unfold is_low in Hd'.
    apply andb_true_iff in Hh' as [Hc1 Hc2]. apply andb_true_iff in Hd' as [Hd1 Hd2].
    apply Z.leb_le in Hc1, Hc2, Hd1, Hd2.
    rewrite decode_utf8_of_cp by lia.
    cbn [flat_map]. rewrite units_of_pair by assumption.
    cbn [app]. do 2 f_equal. apply IH; [cbn [length] in Hlen; lia | exact Hwf].
  - apply andb_true_iff in Hwf as [Hwf Hrest].
    apply andb_true_iff in Hwf as [Hwf Hl].
    apply andb_true_iff in Hwf as [H0 H1].
    apply Z.leb_le in H0. apply Z.ltb_lt in H1.
    apply negb_true_iff in Hl. rewrite Hl.
    unfold is_high in Hh. unfold is_low in Hl.
    rewrite decode_utf8_of_cp.
    + cbn [flat_map]. unfold units_of_cp at 1.
      destruct (Z.ltb_spec c 0x10000); [|exfalso; lia].
      cbn [app]. f_equal. apply IH; [lia | exact Hrest].
    + lia.
    + intros [Ha Hb].
      destruct (Z.leb_spec 0xD800 c), (Z.leb_spec c 0xDBFF),
               (Z.leb_spec 0xDC00 c), (Z.leb_spec c 0xDFFF);
        cbn in Hh, Hl; try discriminate; lia.
Qed.

(** [TextDecoder] undoes [TextEncoder] on well-formed text that does not
    start with a byte order mark. *)
Lemma decode_encode (s : jsstring) :
  Reference.well_formed_utf16 s = true ->
  hd 0 s <> 0xFEFF ->
  decode (encode s) = s.
Proof.
  intros Hwf Hbom. unfold decode.
  rewrite (decode_scalars_encode (length s)) by (exact Hwf || lia).
  destruct s as [|c rest]; [reflexivity|].
  cbn [strip_bom]. cbn [hd] in Hbom.
  destruct (Z.eqb_spec c 0xFEFF); [contradiction | reflexivity].
Qed.

End Utf8Facts.

(** ** The embedder and the extractor *)

Module JpegFacts.
Import Jpeg Reference.

Lemma nth_alloc {A} (h : list A) (x d : A) : nth (length h) (h ++ [x]) d = x.
Proof. rewrite app_nth2 by lia. rewrite Nat.sub_diag. reflexivity. Qed.

Lemma update_nth_alloc {A} (h : list A) (f : A -> A) (x : A) :
  update_nth (length h) f (h ++ [x]) = h ++ [f x].
Proof. induction h as [|y h IH]; simpl; [reflexivity | rewrite IH; reflexivity]. Qed.

Lemma nth_old {A} (h l : list A) (r : nat) (d : A) :
  (r < length h)%nat -> nth r (h ++ l) d = nth r h d.
Proof. intros H. apply app_nth1. exact H. Qed.

Lemma bind_alloc {B} (c : list Z) (k : ref -> M B) (h : heap) :
  bind (alloc c) k h = k (length h) (h ++ [c]).
Proof. reflexivity. Qed.
Lemma bind_load {B} (r : ref) (k : list Z -> M B) (h : heap) :
  bind (load r) k h = k (nth r h []) h.
Proof. reflexivity. Qed.
Lemma bind_store_byte {B} (r : ref) (i : nat) (v : Z) (k : unit -> M B) (h : heap) :
  bind (store_byte r i v) k h = k tt (update_nth r (update_nth i (fun _ => v)) h).
Proof. reflexivity. Qed.
Lemma bind_array_set {B} (r : ref) (src : list Z) (off : nat) (k : unit -> M B) (h : heap) :
  bind (array_set r src off) k h = k tt (update_nth r (set_at off src) h).
Proof. reflexivity. Qed.

Lemma set_at_chunk (a src : list Z) (k : nat) :
  (length src <= k)%nat ->
  set_at (length a) src (a ++ repeat 0 k) = (a ++ src) ++ repeat 0 (k - length src).
Proof.
  intros H. unfold set_at.
  rewrite firstn_app, firstn_all, Nat.sub_diag, firstn_O, app_nil_r.
  rewrite skipn_app, skipn_all2 by lia.
  replace (length a + length src - length a)%nat with (length src) by lia.
  cbn [app]. rewrite <- app_assoc. do 2 f_equal.
  clear H. revert k. generalize (length src) as m. clear.
  induction m as [|m IH]; intros [|k]; cbn; try reflexivity. apply IH.
Qed.


Lemma set_at_chunk_at (off : nat) (a src : list Z) (k : nat) :
  off = length a -> (length src <= k)%nat ->
  set_at off src (a ++ repeat 0 k) = (a ++ src) ++ repeat 0 (k - length src).
Proof. intros ->. apply set_at_chunk. Qed.

Lemma set_at_start (src : list Z) (k : nat) :
  (length src <= k)%nat ->
  set_at 0 src (repeat 0 k) = src ++ repeat 0 (k - length src).
Proof. intros H. exact (set_at_chunk [] src k H). Qed.


Lemma embedXMPInJPEG_run (h : heap) (buffer : ref) (packet : jsstring) :
  (buffer < length h)%nat -> (2 <= length (nth buffer h []))%nat ->
  embedXMPInJPEG buffer packet h
  = (h ++ [app1_header packet] ++
          [firstn 2 (nth buffer h []) ++ xmp_segment packet ++ skipn 2 (nth buffer h [])],
     Return (S (length h))).
Proof.
  intros Hb Hlen. unfold embedXMPInJPEG.
  rewrite bind_alloc, bind_load, nth_alloc.
  rewrite bind_store_byte, update_nth_alloc.
  rewrite bind_store_byte, update_nth_alloc.
  rewrite bind_load, nth_old by exact Hb.
  set (original := nth buffer h []) in *.
  set (xmpBytes := Utf8.encode packet).
  change (byteLength app1Header_init) with 33.
  change (length app1Header_init) with 33%nat.
  cbn [update_nth app1Header_init].
  match goal with |- context [ [?a] ] =>
    match a with 255 :: _ => set (hdr := a) end end.
  assert (Hhdr : app1_header packet = hdr).
  { unfold app1_header, xmp_segment. fold xmpBytes.
    change (Z.of_nat (length xmpSignature)) with 29.
    replace (2 + 29 + Z.of_nat (length xmpBytes)) with (33 + byteLength xmpBytes - 2)
      by (unfold byteLength; lia).
    reflexivity. }
  assert (Hseg : xmp_segment packet = hdr ++ xmpBytes).
  { unfold xmp_segment. fold xmpBytes.
    change (Z.of_nat (length xmpSignature)) with 29.
    replace (2 + 29 + Z.of_nat (length xmpBytes)) with (33 + byteLength xmpBytes - 2)
      by (unfold byteLength; lia).
    reflexivity. }
  assert (Hlh : length hdr = 33%nat) by reflexivity.
  assert (Hf2 : length (firstn 2 original) = 2%nat) by (rewrite length_firstn; lia).
  assert (Hs2 : length (skipn 2 original) = (length original - 2)%nat)
    by apply length_skipn.
  rewrite bind_alloc, bind_array_set, update_nth_alloc.
  rewrite bind_load, nth_old by (rewrite length_app; cbn; lia).
  rewrite nth_alloc.
  rewrite bind_array_set, update_nth_alloc.
  rewrite bind_array_set, update_nth_alloc.
  rewrite bind_array_set, update_nth_alloc.
  unfold ret. rewrite Hlh. f_equal.
  - rewrite Hhdr, <- app_assoc. do 3 f_equal.
    rewrite set_at_start by lia.
    rewrite (set_at_chunk_at 2 _ hdr) by (cbn [app]; lia).
    rewrite (set_at_chunk_at (2 + 33) _ xmpBytes)
      by (rewrite ?length_app; cbn [app]; lia).
    rewrite (set_at_chunk_at _ _ (skipn 2 original))
      by (rewrite ?length_app; cbn [app]; lia).
    rewrite Hf2, Hlh, Hs2, Hseg.
    replace (length original + 33 + length xmpBytes - 2 - 33 - length xmpBytes
             - (length original - 2))%nat with 0%nat by lia.
    cbn [repeat app]. rewrite app_nil_r, <- !app_assoc. reflexivity.
  - rewrite length_app. cbn. f_equal. lia.
Qed.

(** The two length bytes read back give the length modulo [2^16]. *)
Lemma be16 (T : Z) :
  0 <= T ->
  Z.lor (Z.shiftl (Z.land (Z.shiftr T 8) 0xFF) 8) (Z.land T 0xFF) = T mod 65536.
Proof.
  intros HT. apply Z.bits_inj'. intros k Hk.
  rewrite Z.lor_spec, Z.shiftl_spec, !Z.land_spec by lia.
  change 0xFF with (Z.ones 8). change 65536 with (2 ^ 16).
  destruct (Z.ltb_spec k 8).
  - rewrite !(Z.testbit_neg_r _ (k - 8)) by lia.
    rewrite (Z.ones_spec_low 8 k) by lia.
    rewrite Z.mod_pow2_bits_low by lia. cbn. apply andb_true_r.
  - rewrite Z.shiftr_spec by lia. replace (k - 8 + 8) with k by lia.
    rewrite (Z.ones_spec_high 8 k) by lia. rewrite andb_false_r, orb_false_r.
    destruct (Z.ltb_spec k 16).
    + rewrite (Z.ones_spec_low 8 (k - 8)) by lia.
      rewrite Z.mod_pow2_bits_low by lia. apply andb_true_r.
    + rewrite (Z.ones_spec_high 8 (k - 8)) by lia. rewrite andb_false_r.
      rewrite Z.mod_pow2_bits_high by lia. reflexivity.
Qed.

Lemma extract_loop_S (fuel : nat) (buffer : list Z) (i : Z) :
  extract_loop (S fuel) buffer i =
  if i <? byteLength buffer - 30 then
    if is_byte_eq (get buffer i) 0xFF && is_byte_eq (get buffer (i + 1)) 0xE1 then
      let segmentLength :=
        Z.lor (Z.shiftl (to_int (get buffer (i + 2))) 8)
              (to_int (get buffer (i + 3))) in
      if signature_matches buffer (i + 4) then
        Some (Some (Utf8.decode
          (slice buffer (i + 4 + Z.of_nat (length xmpSignature))
             (i + 4 + Z.of_nat (length xmpSignature)
              + (segmentLength - Z.of_nat (length xmpSignature) - 2)))))
      else extract_loop fuel buffer (i + (segmentLength + 2) + 1)
    else extract_loop fuel buffer (i + 1)
  else Some None.
Proof. reflexivity. Qed.

Lemma extract_loop_next (fuel : nat) (buffer : list Z) (i : Z) :
  i < byteLength buffer - 30 ->
  is_byte_eq (get buffer i) 0xFF && is_byte_eq (get buffer (i + 1)) 0xE1 = false ->
  extract_loop (S fuel) buffer i = extract_loop fuel buffer (i + 1).
Proof.
  intros Hi Hm. rewrite extract_loop_S.
  destruct (Z.ltb_spec i (byteLength buffer - 30)); [|lia].
  rewrite Hm. reflexivity.
Qed.

Lemma extract_at_2 (res : list Z) (hi lo : Z) (fuel : nat) :
  35 <= byteLength res ->
  get res 0 = Some 0xFF -> get res 1 = Some 0xD8 ->
  get res 2 = Some 0xFF -> get res 3 = Some 0xE1 ->
  get res 4 = Some hi -> get res 5 = Some lo ->
  signature_matches res 6 = true ->
  extract_loop (S (S (S fuel))) res 0
  = Some (Some (Utf8.decode
                  (slice res 35 (35 + (Z.lor (Z.shiftl hi 8) lo - 29 - 2))))).
Proof.
  intros Hlen H0 H1 H2 H3 H4 H5 Hsig.
  rewrite extract_loop_next; [|lia|].
  2:{ change (0 + 1) with 1. rewrite H0, H1. reflexivity. }
  rewrite extract_loop_next; [|lia|].
  2:{ change (0 + 1) with 1. rewrite H1. reflexivity. }
  rewrite extract_loop_S.
  change (0 + 1 + 1) with 2. change (2 + 1) with 3. change (2 + 2) with 4.
  change (2 + 3) with 5. change (2 + 4) with 6.
  destruct (Z.ltb_spec 2 (byteLength res - 30)); [|lia].
  rewrite H2, H3, H4, H5, Hsig. reflexivity.
Qed.

(** What the extractor reads from an embedded stream: the length field holds
    the segment length modulo [2^16], and that many bytes, less the signature
    and the two length bytes, are decoded. *)
Lemma extract_embedded_any (rest : list Z) (packet : jsstring) :
  let payload := Utf8.encode packet in
  let T := 2 + 29 + Z.of_nat (length payload) in
  extractXMPFromJPEG (0xFF :: 0xD8 :: xmp_segment packet ++ rest)
  = Some (Utf8.decode (firstn (Z.to_nat (T mod 65536 - 31)) (payload ++ rest))).
Proof.
  intros payload T. unfold extractXMPFromJPEG.
  set (res := 0xFF :: 0xD8 :: xmp_segment packet ++ rest).
  assert (Hres : res = 0xFF :: 0xD8 :: 0xFF :: 0xE1 :: Z.land (Z.shiftr T 8) 0xFF
                          :: Z.land T 0xFF :: xmpSignature ++ payload ++ rest).
  { subst res. unfold xmp_segment. fold payload.
    change (Z.of_nat (length xmpSignature)) with 29. fold T. cbn [app].
    rewrite <- app_assoc. reflexivity. }
  assert (Hl : byteLength res = 35 + Z.of_nat (length payload) + Z.of_nat (length rest)).
  { rewrite Hres. unfold byteLength. cbn [length]. rewrite !length_app.
    change (length xmpSignature) with 29%nat. lia. }
  replace (S (length res)) with (S (S (S (length res - 2))))
    by (unfold byteLength in Hl; lia).
  let sg := eval vm_compute in xmpSignature in
    change xmpSignature with sg in Hres.
  cbn [app] in Hres.
  rewrite (extract_at_2 res (Z.land (Z.shiftr T 8) 0xFF) (Z.land T 0xFF));
    try (rewrite Hres; reflexivity); [|lia].
  rewrite be16 by (subst T; lia).
  do 2 f_equal. rewrite Hres. unfold slice.
  change (Z.to_nat 35) with 35%nat. cbn [skipn].
  f_equal. f_equal. lia.
Qed.

Lemma extract_embedded (rest : list Z) (packet : jsstring) :
  Z.of_nat (length (Utf8.encode packet)) <= 65504 ->
  extractXMPFromJPEG (0xFF :: 0xD8 :: xmp_segment packet ++ rest)
  = Some (Utf8.decode (Utf8.encode packet)).
Proof.
  intros Hlen. rewrite extract_embedded_any. do 2 f_equal.
  rewrite Z.mod_small by lia.
  replace (Z.to_nat (2 + 29 + Z.of_nat (length (Utf8.encode packet)) - 31))
    with (length (Utf8.encode packet)) by lia.
  rewrite firstn_app, firstn_all, Nat.sub_diag, firstn_O, app_nil_r. reflexivity.
Qed.

(** The store after [embedXMPInJPEG] on a stream that begins with the
    start-of-image marker. *)
Lemma embed_result (h : heap) (buffer : ref) (rest : list Z) (xmpPacket : jsstring) :
  content h buffer = 0xFF :: 0xD8 :: rest ->
  exists h',
    embedXMPInJPEG buffer xmpPacket h = (h', Return (S (length h)))
    /\ content h' (S (length h)) = 0xFF :: 0xD8 :: xmp_segment xmpPacket ++ rest
    /\ content h' buffer = 0xFF :: 0xD8 :: rest.
Proof.
  unfold content.
  intros Hbuf.
  assert (Hb : (buffer < length h)%nat).
  { destruct (Nat.lt_ge_cases buffer (length h)) as [Hlt|Hge]; [exact Hlt|].
    rewrite nth_overflow in Hbuf by exact Hge. discriminate. }
  eexists. split; [|split].
  - apply embedXMPInJPEG_run; [exact Hb | rewrite Hbuf; cbn; lia].
  - rewrite Hbuf. cbn [firstn skipn]. rewrite app_nth2 by lia.
    replace (S (length h) - length h)%nat with 1%nat by lia. reflexivity.
  - rewrite nth_old by exact Hb. exact Hbuf.
Qed.

(** ASCII text is its own UTF-8 form. *)
Lemma encode_ascii (s : jsstring) :
  ascii_text s -> Utf8.encode s = s.
Proof.
  induction 1 as [|c rest Hc _ IH]; [reflexivity|].
  cbn [Utf8.encode]. unfold Utf8.is_high, Utf8.is_low, Utf8.utf8_of_cp.
  destruct (Z.leb_spec 0xD800 c); [lia|].
  destruct (Z.leb_spec 0xDC00 c); [lia|].
  destruct (Z.ltb_spec c 0x80); [|lia].
  cbn. rewrite IH. reflexivity.
Qed.

Lemma isJPEG_spec (buffer : list Z) :
  isJPEG buffer = true <-> exists rest, buffer = 0xFF :: 0xD8 :: rest.
Proof.
  unfold isJPEG, byteLength. split.
  - intros H. apply andb_true_iff in H as [H H1]. apply andb_true_iff in H as [_ H0].
    destruct buffer as [|a [|b rest]]; try discriminate.
    cbn in H0, H1. apply Z.eqb_eq in H0, H1. subst. exists rest. reflexivity.
  - intros [rest ->]. cbn [length].
    destruct (Z.leb_spec 2 (Z.of_nat (S (S (length rest))))); [reflexivity | lia].
Qed.

Lemma embedXMPInImage_on_jpeg (h : heap) (imageBuffer : ref) (xmpPacket : jsstring) :
  isJPEG (content h imageBuffer) = true ->
  embedXMPInImage imageBuffer xmpPacket h = embedXMPInJPEG imageBuffer xmpPacket h.
Proof.
  unfold content.
  intros HJ. unfold embedXMPInImage, try_catch. rewrite bind_load, HJ.
  destruct (embedXMPInJPEG imageBuffer xmpPacket h) as [h' [r|e]] eqn:E; [reflexivity|].
  exfalso. apply isJPEG_spec in HJ as [rest HJ].
  assert (Hb : (imageBuffer < length h)%nat).
  { destruct (Nat.lt_ge_cases imageBuffer (length h)) as [Hlt|Hge]; [exact Hlt|].
    rewrite nth_overflow in HJ by exact Hge. discriminate. }
  rewrite embedXMPInJPEG_run in E by (exact Hb || (rewrite HJ; cbn; lia)).
  discriminate.
Qed.

(** C2, as the code has it.  For a stream that begins with the start-of-image
    marker the embedder returns a new array made of the first two input
    bytes, the APP1 segment, and the remaining input bytes unchanged and in
    order, and leaves the input array as it was.  The extractor gives the
    packet back when the packet is well-formed UTF-16 text (no unpaired
    surrogate), does not begin with a byte order mark, and its UTF-8 form is
    at most 65504 bytes long, the largest payload the 16-bit length field of
    one segment can describe. *)
Theorem embed_then_extract
    (h : heap) (buffer : ref) (rest : list Z) (xmpPacket : jsstring) :
  content h buffer = 0xFF :: 0xD8 :: rest ->
  exists h' result,
    embedXMPInJPEG buffer xmpPacket h = (h', Return result)
    /\ content h' result = [0xFF; 0xD8] ++ xmp_segment xmpPacket ++ rest
    /\ content h' buffer = 0xFF :: 0xD8 :: rest
    /\ (well_formed_utf16 xmpPacket = true ->
        hd 0 xmpPacket <> 0xFEFF ->
        Z.of_nat (length (Utf8.encode xmpPacket)) <= 65504 ->
        extractXMPFromJPEG (content h' result) = Some xmpPacket).
Proof.
  intros Hbuf.
  destruct (embed_result h buffer rest xmpPacket Hbuf) as [h' [Hrun [Hres Hin]]].
  exists h', (S (length h)). repeat split; try assumption.
  intros Hwf Hbom Hlen. rewrite Hres.
  rewrite extract_embedded by exact Hlen.
  f_equal. apply Utf8Facts.decode_encode; assumption.
Qed.

Lemma embed_then_extract_witness :
  exists h' result,
    embedXMPInJPEG 0%nat (js "<x:xmpmeta/>") [[0xFF; 0xD8; 0xFF; 0xD9]]
      = (h', Return result)
    /\ content h' result = [0xFF; 0xD8] ++ xmp_segment (js "<x:xmpmeta/>") ++ [0xFF; 0xD9]
    /\ content h' 0%nat = [0xFF; 0xD8; 0xFF; 0xD9]
    /\ extractXMPFromJPEG (content h' result) = Some (js "<x:xmpmeta/>").
Proof.
  destruct (embed_then_extract [[0xFF; 0xD8; 0xFF; 0xD9]] 0%nat [0xFF; 0xD9]
              (js "<x:xmpmeta/>") eq_refl)
    as [h' [result [H1 [H2 [H3 H4]]]]].
  exists h', result. repeat split; try assumption.
  apply H4; [reflexivity | discriminate | vm_compute; discriminate].
Defined.

(** The round trip fails outside these bounds: a packet of 65505 bytes
    overflows the length field and comes back empty, an unpaired surrogate
    comes back as U+FFFD, and a leading byte order mark is dropped. *)
Lemma embed_then_extract_fails :
  (let packet := repeat 97 (Z.to_nat 65505) in
   exists h' result,
     embedXMPInJPEG 0%nat packet [[0xFF; 0xD8; 0xFF; 0xD9]] = (h', Return result)
     /\ extractXMPFromJPEG (content h' result) = Some []
     /\ packet <> [])
  /\ (exists h' result,
     embedXMPInJPEG 0%nat [0xD800] [[0xFF; 0xD8; 0xFF; 0xD9]] = (h', Return result)
     /\ extractXMPFromJPEG (content h' result) = Some [0xFFFD])
  /\ (exists h' result,
     embedXMPInJPEG 0%nat (0xFEFF :: js "<x/>") [[0xFF; 0xD8; 0xFF; 0xD9]]
       = (h', Return result)
     /\ extractXMPFromJPEG (content h' result) = Some (js "<x/>")).
Proof.
  split; [|split].
  - intros packet.
    destruct (embed_result [[0xFF; 0xD8; 0xFF; 0xD9]] 0%nat [0xFF; 0xD9] packet eq_refl)
      as [h' [Hrun [Hres _]]].
    exists h', 2%nat. split; [exact Hrun|]. split.
    + change (length [[0xFF; 0xD8; 0xFF; 0xD9]]) with 1%nat in Hres.
      rewrite Hres, extract_embedded_any.
      assert (Hp : Utf8.encode packet = packet).
      { apply encode_ascii. apply Forall_forall. intros c Hc.
        apply repeat_spec in Hc. subst c. lia. }
      rewrite Hp. unfold packet at 1. rewrite repeat_length.
      replace (Z.to_nat ((2 + 29 + Z.of_nat (Z.to_nat 65505)) mod 65536 - 31))
        with 0%nat by (rewrite Z2Nat.id by lia; reflexivity).
      reflexivity.
    + intros Hp. apply (f_equal (@length Z)) in Hp.
      unfold packet in Hp. rewrite repeat_length in Hp. cbn in Hp. lia.
  - destruct (embed_result [[0xFF; 0xD8; 0xFF; 0xD9]] 0%nat [0xFF; 0xD9] [0xD800] eq_refl)
      as [h' [Hrun [Hres _]]].
    exists h', 2%nat. split; [exact Hrun|].
    change (length [[0xFF; 0xD8; 0xFF; 0xD9]]) with 1%nat in Hres.
    rewrite Hres. vm_compute. reflexivity.
  - destruct (embed_result [[0xFF; 0xD8; 0xFF; 0xD9]] 0%nat [0xFF; 0xD9]
                (0xFEFF :: js "<x/>") eq_refl)
      as [h' [Hrun [Hres _]]].
    exists h', 2%nat. split; [exact Hrun|].
    change (length [[0xFF; 0xD8; 0xFF; 0xD9]]) with 1%nat in Hres.
    rewrite Hres. vm_compute. reflexivity.
Qed.

(** C4: on a buffer that does not begin with the start-of-image marker
    [embedXMPInImage] throws, returns no array, and leaves the store, hence
    the input buffer, exactly as it was. *)
Theorem embedXMPInImage_rejects_non_jpeg
    (h : heap) (imageBuffer : ref) (xmpPacket : jsstring) :
  (forall rest, content h imageBuffer <> 0xFF :: 0xD8 :: rest) ->
  embedXMPInImage imageBuffer xmpPacket h
  = (h, Throw (js "XMP embedding failed: " ++ notJPEGMessage)).
Proof.
  unfold content.
  intros Hn.
  assert (HJ : isJPEG (nth imageBuffer h []) = false).
  { destruct (isJPEG (nth imageBuffer h [])) eqn:E; [|reflexivity].
    apply isJPEG_spec in E as [rest E]. exfalso. exact (Hn rest E). }
  unfold embedXMPInImage, try_catch. rewrite bind_load, HJ. reflexivity.
Qed.

Lemma embedXMPInImage_rejects_non_jpeg_witness :
  (forall rest, nth 0%nat [png_signature] [] <> 0xFF :: 0xD8 :: rest)
  /\ embedXMPInImage 0%nat (js "<x:xmpmeta/>") [png_signature]
     = ([png_signature], Throw (js "XMP embedding failed: " ++ notJPEGMessage)).
Proof.
  assert (H : forall rest, nth 0%nat [png_signature] [] <> 0xFF :: 0xD8 :: rest)
    by (intros rest; discriminate).
  split; [exact H|].
  exact (embedXMPInImage_rejects_non_jpeg [png_signature] 0%nat (js "<x:xmpmeta/>") H).
Defined.

(** On a non-matching APP1 segment the scan resumes at the marker's offset
    plus the declared length plus three. *)
Lemma extract_loop_skip (fuel : nat) (buffer : list Z) (i : Z) :
  i < byteLength buffer - 30 ->
  get buffer i = Some 0xFF -> get buffer (i + 1) = Some 0xE1 ->
  signature_matches buffer (i + 4) = false ->
  extract_loop (S fuel) buffer i
  = extract_loop fuel buffer
      (i + 2 + Z.lor (Z.shiftl (to_int (get buffer (i + 2))) 8)
                     (to_int (get buffer (i + 3))) + 1).
Proof.
  intros Hi H0 H1 Hs. rewrite extract_loop_S.
  destruct (Z.ltb_spec i (byteLength buffer - 30)); [|lia].
  rewrite H0, H1, Hs. cbn [is_byte_eq]. cbn.
  f_equal. lia.
Qed.

(** C3 on the code: in a stream whose Exif segment (offset 2, declared length
    8) is immediately followed by an XMP segment (offset 12), the scan
    resumes at offset 13, one byte past the marker of the XMP segment, and
    the extractor reports that there is no packet; started at offset 12 the
    same loop finds the packet. *)
Theorem adjacent_xmp_segment_missed :
  skipn 12 exif_then_xmp = xmp_segment (js "<x:xmpmeta/>") ++ [0xFF; 0xD9]
  /\ (forall fuel, extract_loop (S fuel) exif_then_xmp 2
                   = extract_loop fuel exif_then_xmp 13)
  /\ extract_loop (S (length exif_then_xmp)) exif_then_xmp 12
     = Some (Some (js "<x:xmpmeta/>"))
  /\ extractXMPFromJPEG exif_then_xmp = None.
Proof.
  split; [reflexivity|]. split.
  - intros fuel. rewrite extract_loop_skip; reflexivity.
  - split; vm_compute; reflexivity.
Qed.

End JpegFacts.

(** ** The public extractor *)

Module ExtractFacts.
Import Jpeg Parser.

Lemma get_nonneg (buffer : list Z) (i : Z) :
  uint8array buffer -> 0 <= to_int (get buffer i) < 256.
Proof.
  intros Hb. unfold get. destruct (i <? 0); [cbn; lia|].
  destruct (nth_error buffer (Z.to_nat i)) as [b|] eqn:E; [|cbn; lia].
  cbn. apply nth_error_In in E.
  unfold uint8array in Hb. rewrite Forall_forall in Hb. exact (Hb b E).
Qed.

Lemma segmentLength_nonneg (buffer : list Z) (i : Z) :
  uint8array buffer ->
  0 <= Z.lor (Z.shiftl (to_int (get buffer (i + 2))) 8) (to_int (get buffer (i + 3))).
Proof.
  intros Hb. apply Z.lor_nonneg. split.
  - apply Z.shiftl_nonneg. apply (get_nonneg buffer (i + 2) Hb).
  - apply (get_nonneg buffer (i + 3) Hb).
Qed.

(** The scan finishes: the index grows at every iteration. *)
Lemma extract_loop_finishes (buffer : list Z) :
  uint8array buffer ->
  forall (fuel : nat) (i : Z),
    0 <= i -> Z.max 0 (byteLength buffer - 30 - i) < Z.of_nat fuel ->
    exists r, extract_loop fuel buffer i = Some r.
Proof.
  intros Hb. induction fuel as [|fuel IH]; intros i Hi Hfuel; [lia|].
  rewrite JpegFacts.extract_loop_S.
  destruct (Z.ltb_spec i (byteLength buffer - 30)); [|eexists; reflexivity].
  destruct (is_byte_eq (get buffer i) 255 && is_byte_eq (get buffer (i + 1)) 225).
  - cbv zeta. destruct (signature_matches buffer (i + 4)); [eexists; reflexivity|].
    pose proof (segmentLength_nonneg buffer i Hb). apply IH; lia.
  - apply IH; lia.
Qed.

Lemma extractXMPFromJPEG_finishes (buffer : list Z) :
  uint8array buffer ->
  extract_loop (S (length buffer)) buffer 0 = Some (extractXMPFromJPEG buffer).
Proof.
  intros Hb. unfold extractXMPFromJPEG.
  destruct (extract_loop_finishes buffer Hb (S (length buffer)) 0) as [r Hr];
    [lia | unfold byteLength; lia |].
  rewrite Hr. reflexivity.
Qed.

(** Whatever the methods called inside the [try] block do, the public
    function returns a record. *)
Lemma extractXMPFromImage_with_returns (c : callees) (imageBuffer : list Z) :
  exists result, extractXMPFromImage_with c imageBuffer = Return result.
Proof.
  unfold extractXMPFromImage_with, etry.
  destruct (extract_body c imageBuffer); eexists; reflexivity.
Qed.

(** The record returned with the methods of the class: none of them lets
    an exception escape. *)
Lemma extractXMPFromImage_result (imageBuffer : list Z) :
  extractXMPFromImage imageBuffer
  = Return (match (if isJPEG imageBuffer then extractXMPFromJPEG imageBuffer
                   else None) with
            | None | Some [] => not_found
            | Some data =>
                {| xmp_found := true; xmp_content := Some data;
                   parsed_metadata := Some (parseXMPContent data);
                   schema_type := Some (detectSchemaType (parseXMPContent data)) |}
            end).
Proof.
  unfold extractXMPFromImage, extractXMPFromImage_with, extract_body, methods.
  cbn [call_extractXMPFromJPEG call_parseXMPContent call_detectSchemaType].
  destruct (isJPEG imageBuffer); [|reflexivity].
  destruct (extractXMPFromJPEG imageBuffer) as [[|c data]|]; reflexivity.
Qed.

(** When [JSON.parse] throws on every Ledger element of a packet, the
    parser has caught each exception and answers with the scrape. *)
Lemma parseXMPContent_unparsed (data : jsstring) :
  (forall prefix captured,
     In prefix schema_prefixes ->
     match_raw_json prefix data = Some captured ->
     exists message,
       Json.JSON_parse (repair_periods (unescapeXML captured)) = Throw message) ->
  parseXMPContent data = scrape data.
Proof.
  intros H.
  assert (Hnone : forall prefix, In prefix schema_prefixes ->
                                 ledger_metadata data prefix = None).
  { intros prefix Hp. unfold ledger_metadata.
    destruct (match_raw_json prefix data) as [captured|] eqn:E; [|reflexivity].
    destruct (H prefix captured Hp E) as [message ->]. reflexivity. }
  unfold parseXMPContent.
  rewrite !Hnone by (cbn; tauto). reflexivity.
Qed.

(** C10, as the code has it.  For every byte buffer the scan of the
    segments finishes and [extractXMPFromImage] returns a record, never an
    exception: [xmp_found] is false when the buffer does not begin with the
    start-of-image marker, when the scan finds no packet and when the packet
    is empty, and true otherwise, with the packet, the metadata parsed from
    it and their schema.  An exception of [JSON.parse] on a Ledger element
    does not make the packet not found: the parser catches it, and when
    every Ledger element fails the metadata are those of the scrape.  Only
    an exception that leaves one of the three methods called inside the
    [try] block gives the record with [xmp_found] false. *)
Theorem extractXMPFromImage_total (imageBuffer : list Z) :
  uint8array imageBuffer ->
  extract_loop (S (length imageBuffer)) imageBuffer 0
    = Some (extractXMPFromJPEG imageBuffer)
  /\ extractXMPFromImage imageBuffer
     = Return (match (if isJPEG imageBuffer then extractXMPFromJPEG imageBuffer
                      else None) with
               | None | Some [] => not_found
               | Some data =>
                   {| xmp_found := true; xmp_content := Some data;
                      parsed_metadata := Some (parseXMPContent data);
                      schema_type := Some (detectSchemaType (parseXMPContent data)) |}
               end)
  /\ (forall data,
        isJPEG imageBuffer = true ->
        extractXMPFromJPEG imageBuffer = Some data ->
        data <> [] ->
        (forall prefix captured,
           In prefix schema_prefixes ->
           match_raw_json prefix data = Some captured ->
           exists message,
             Json.JSON_parse (repair_periods (unescapeXML captured)) = Throw message) ->
        extractXMPFromImage imageBuffer
        = Return {| xmp_found := true; xmp_content := Some data;
                    parsed_metadata := Some (scrape data);
                    schema_type := Some (detectSchemaType (scrape data)) |})
  /\ (forall (c : callees) (message : jsstring),
        extract_body c imageBuffer = Throw message ->
        extractXMPFromImage_with c imageBuffer = Return not_found
        /\ xmp_found not_found = false).
Proof.
  intros Hb. split; [exact (extractXMPFromJPEG_finishes imageBuffer Hb)|].
  split; [apply extractXMPFromImage_result|]. split.
  - intros data Hj He Hne Hthrow.
    rewrite extractXMPFromImage_result, Hj, He.
    rewrite (parseXMPContent_unparsed data Hthrow).
    destruct data; [congruence | reflexivity].
  - intros c message Hthrow. unfold extractXMPFromImage_with.
    rewrite Hthrow. split; reflexivity.
Qed.

Lemma extractXMPFromImage_total_witness :
  uint8array Scenarios.truncated_jpeg
  /\ extractXMPFromImage Scenarios.truncated_jpeg = Return not_found
  /\ uint8array Scenarios.broken_ledger_jpeg
  /\ extractXMPFromImage Scenarios.broken_ledger_jpeg
     = Return {| xmp_found := true;
                 xmp_content := Some Scenarios.broken_ledger_packet;
                 parsed_metadata := Some (scrape Scenarios.broken_ledger_packet);
                 schema_type :=
                   Some (detectSchemaType (scrape Scenarios.broken_ledger_packet)) |}.
Proof.
  assert (Hb : uint8array Scenarios.truncated_jpeg).
  { unfold uint8array, Scenarios.truncated_jpeg.
    repeat constructor; lia. }
  assert (Hb' : uint8array Scenarios.broken_ledger_jpeg).
  { unfold uint8array. apply Forall_forall. intros b Hin.
    vm_compute in Hin.
    repeat (destruct Hin as [<-|Hin]; [lia|]). destruct Hin. }
  split; [exact Hb|]. split.
  - destruct (extractXMPFromImage_total Scenarios.truncated_jpeg Hb) as [_ [Hr _]].
    rewrite Hr. reflexivity.
  - split; [exact Hb'|].
    destruct (extractXMPFromImage_total Scenarios.broken_ledger_jpeg Hb')
      as [_ [_ [Hr _]]].
    apply Hr.
    + reflexivity.
    + vm_compute. reflexivity.
    + discriminate.
    + intros prefix captured [<-|[<-|[<-|[]]]] Hm; vm_compute in Hm;
        try discriminate.
      injection Hm as <-. vm_compute. eexists. reflexivity.
Defined.

(** The claim fails where it says that an exception during the parsing of the
    packet is reported as not found: [JSON.parse] throws on the Ledger
    element of this packet, the parser catches the exception, and the
    packet is reported as found, with the metadata of the scrape. *)
Lemma parse_exception_is_reported_found :
  Jpeg.extractXMPFromJPEG Scenarios.broken_ledger_jpeg
    = Some Scenarios.broken_ledger_packet
  /\ match_raw_json (js "lifestyle") Scenarios.broken_ledger_packet
     = Some (js "{not json")
  /\ (exists message,
        Json.JSON_parse (repair_periods (unescapeXML (js "{not json")))
        = Throw message)
  /\ extractXMPFromImage Scenarios.broken_ledger_jpeg
     = Return {| xmp_found := true;
                 xmp_content := Some Scenarios.broken_ledger_packet;
                 parsed_metadata := Some (VObj [(js "lifestyle", VObj [])]);
                 schema_type := Some Serializer.orbit |}.
Proof.
  split; [vm_compute; reflexivity|]. split; [vm_compute; reflexivity|].
  split; [vm_compute; eexists; reflexivity|].
  vm_compute. reflexivity.
Qed.

(** Buffers that are empty, not JPEG, or JPEG without a packet give
    [xmp_found] false; an embedded packet is found and parsed. *)
Lemma extractXMPFromImage_examples :
  extractXMPFromImage [] = Return not_found
  /\ extractXMPFromImage Reference.png_signature = Return not_found
  /\ extractXMPFromImage [0xFF; 0xD8; 0xFF; 0xD9] = Return not_found
  /\ (exists parsed schema,
        extractXMPFromImage
          ([0xFF; 0xD8] ++ Reference.xmp_segment (js "<x:xmpmeta/>") ++ [0xFF; 0xD9])
        = Return {| xmp_found := true; xmp_content := Some (js "<x:xmpmeta/>");
                    parsed_metadata := Some parsed; schema_type := Some schema |}).
Proof.
  repeat split; try (vm_compute; reflexivity).
  eexists. eexists. vm_compute. reflexivity.
Qed.

End ExtractFacts.

(** ** Schema detection *)

Module DetectFacts.
Import Report.

(** The variant named by the first schema prefix found in the key string,
    [lifestyle] when there is none. *)
Lemma detectSchemaType_fallback (metadata : value) :
  nested_object metadata (js "lifestyle") = false ->
  nested_object metadata (js "product") = false ->
  nested_object metadata (js "orbit") = false ->
  ledgerHasSchemaType metadata = false ->
  let keyString := keyStringOf metadata in
  let l := countMatches keyString lifestylePatterns in
  let p := countMatches keyString productPatterns in
  let o := countMatches keyString orbitPatterns in
  ~ (p < l /\ o < l)%nat -> ~ (l < p /\ o < p)%nat -> ~ (l < o /\ p < o)%nat ->
  detectSchemaType metadata
  = VStr (if includes keyString (js "lifestyle_") then js "lifestyle"
          else if includes keyString (js "product_") then js "product"
          else if includes keyString (js "orbit_") then js "orbit"
          else js "lifestyle").
Proof.
  intros H1 H2 H3 H4 keyString l p o Hl Hp Ho.
  unfold detectSchemaType. rewrite H1, H2, H3, H4.
  fold keyString. fold l. fold p. fold o.
  assert (E1 : ((p <? l)%nat && (o <? l)%nat) = false).
  { apply not_true_is_false. intros E. apply andb_true_iff in E as [Ea Eb].
    apply Nat.ltb_lt in Ea, Eb. apply Hl. split; assumption. }
  assert (E2 : ((l <? p)%nat && (o <? p)%nat) = false).
  { apply not_true_is_false. intros E. apply andb_true_iff in E as [Ea Eb].
    apply Nat.ltb_lt in Ea, Eb. apply Hp. split; assumption. }
  assert (E3 : ((l <? o)%nat && (p <? o)%nat) = false).
  { apply not_true_is_false. intros E. apply andb_true_iff in E as [Ea Eb].
    apply Nat.ltb_lt in Ea, Eb. apply Ho. split; assumption. }
  rewrite E1, E2, E3.
  destruct (includes keyString (js "lifestyle_")); [reflexivity|].
  destruct (includes keyString (js "product_")); [reflexivity|].
  destruct (includes keyString (js "orbit_")); reflexivity.
Qed.

(** C8, as the code has it, for keys made of ASCII characters.  When no
    object (empty or not) sits at one of the three schema keys, the Ledger
    gives no schema tag, and the scoring has no strict winner, the result is
    the variant whose prefix
    [lifestyle_], [product_] or [orbit_] is found first, in that order, in
    the lower-cased keys joined by spaces, and [lifestyle] when none is
    found; it is always one of the three variants. *)
Theorem detectSchemaType_default (metadata : value) :
  Forall ascii_text (Object_keys metadata) ->
  nested_object metadata (js "lifestyle") = false ->
  nested_object metadata (js "product") = false ->
  nested_object metadata (js "orbit") = false ->
  ledgerHasSchemaType metadata = false ->
  let keyString := keyStringOf metadata in
  let l := countMatches keyString lifestylePatterns in
  let p := countMatches keyString productPatterns in
  let o := countMatches keyString orbitPatterns in
  ~ (p < l /\ o < l)%nat -> ~ (l < p /\ o < p)%nat -> ~ (l < o /\ p < o)%nat ->
  detectSchemaType metadata
  = VStr (if includes keyString (js "lifestyle_") then js "lifestyle"
          else if includes keyString (js "product_") then js "product"
          else if includes keyString (js "orbit_") then js "orbit"
          else js "lifestyle")
  /\ In (detectSchemaType metadata)
        [VStr (js "lifestyle"); VStr (js "product"); VStr (js "orbit")]
  /\ (includes keyString (js "product_") = false ->
      includes keyString (js "orbit_") = false ->
      detectSchemaType metadata = VStr (js "lifestyle")).
Proof.
  intros _ H1 H2 H3 H4 keyString l p o Hl Hp Ho.
  pose proof (detectSchemaType_fallback metadata H1 H2 H3 H4 Hl Hp Ho) as E.
  fold keyString in E. split; [exact E|]. rewrite E. split.
  - destruct (includes keyString (js "lifestyle_")); [left; reflexivity|].
    destruct (includes keyString (js "product_")); [right; left; reflexivity|].
    destruct (includes keyString (js "orbit_"));
      [right; right; left; reflexivity | left; reflexivity].
  - intros Ep Eo. rewrite Ep, Eo.
    destruct (includes keyString (js "lifestyle_")); reflexivity.
Qed.

Lemma detectSchemaType_default_witness :
  Forall ascii_text (Object_keys (VObj [(js "setting", VStr (js "Outdoor patio"))]))
  /\ detectSchemaType (VObj [(js "setting", VStr (js "Outdoor patio"))])
     = VStr (js "lifestyle").
Proof.
  assert (Ha : Forall ascii_text
                 (Object_keys (VObj [(js "setting", VStr (js "Outdoor patio"))]))).
  { repeat constructor; cbn; lia. }
  split; [exact Ha|].
  refine (proj1 (detectSchemaType_default
                   (VObj [(js "setting", VStr (js "Outdoor patio"))])
                   Ha eq_refl eq_refl eq_refl eq_refl _ _ _));
    vm_compute; lia.
Defined.

(** The claim fails on a tie between keys that carry a schema prefix, and on
    an empty object at a schema key: both inputs have no non-empty object at
    a schema key, no Ledger and no strict winner, and both give [product]. *)
Lemma detectSchemaType_tie_gives_product :
  (let metadata := VObj [ (js "product_x", VStr (js "1"));
                          (js "emotional_hooks", VStr (js "2")) ] in
   nested_object metadata (js "lifestyle") = false
   /\ nested_object metadata (js "product") = false
   /\ nested_object metadata (js "orbit") = false
   /\ extractRawJSONFromMetadata metadata = VNull
   /\ countMatches (keyStringOf metadata) lifestylePatterns = 1%nat
   /\ countMatches (keyStringOf metadata) productPatterns = 1%nat
   /\ countMatches (keyStringOf metadata) orbitPatterns = 0%nat
   /\ detectSchemaType metadata = VStr (js "product"))
  /\ (let metadata := VObj [ (js "product", VObj []) ] in
      Object_keys (get_prop metadata (js "product")) = []
      /\ extractRawJSONFromMetadata metadata = VNull
      /\ countMatches (keyStringOf metadata) lifestylePatterns = 0%nat
      /\ countMatches (keyStringOf metadata) productPatterns = 0%nat
      /\ countMatches (keyStringOf metadata) orbitPatterns = 0%nat
      /\ detectSchemaType metadata = VStr (js "product")).
Proof. repeat split; vm_compute; reflexivity. Qed.

(** The detection of the processor has another default: [orbit]. *)
Lemma processor_detectSchemaType_default :
  Parser.detectSchemaType (VObj [(js "setting", VStr (js "Outdoor patio"))])
  = Serializer.orbit.
Proof. reflexivity. Qed.

End DetectFacts.

(** ** The Ledger *)

Module LedgerFacts.
Import Serializer Parser Scenarios.

(** On the tree of the scenario the Ledger gives the tree back, with
    [number_of_people] equal to 8. *)
Lemma ledger_scenario :
  exists packet,
    packet_of patio_tree = Some packet
    /\ recovered_original packet = Some patio_tree
    /\ get_prop (get_prop patio_tree (js "human_elements")) (js "number_of_people")
       = VNum 8.
Proof. eexists. split; [vm_compute; reflexivity|]. split; vm_compute; reflexivity. Qed.

(** The two functions are not inverse of each other: [unescapeXML] decodes
    [&amp;] first, so an escaped ampersand followed by [lt;] is decoded
    twice. *)
Lemma unescapeXML_escapeXML_entity :
  escapeXML (js "a &lt; b") = js "a &amp;lt; b"
  /\ unescapeXML (escapeXML (js "a &lt; b")) = js "a < b".
Proof. split; vm_compute; reflexivity. Qed.

(** C1 on the code: the Ledger round trip changes a value that contains the
    text of an entity ([&lt;] comes back as [<]), changes a value that ends
    with a period and a space (the repair turns the period into a comma),
    and is lost altogether for a value that contains [&quot;] (the decoded
    Ledger is no longer JSON and the parser falls back to the scrape of the
    tagged elements). *)
Theorem ledger_round_trip_loses_data :
  (exists packet,
     packet_of (setting_tree (js "a &lt; b")) = Some packet
     /\ recovered_original packet = Some (setting_tree (js "a < b"))
     /\ setting_tree (js "a < b") <> setting_tree (js "a &lt; b"))
  /\ (exists packet,
     packet_of (setting_tree (js "Patio. ")) = Some packet
     /\ recovered_original packet = Some (setting_tree (js "Patio, "))
     /\ setting_tree (js "Patio, ") <> setting_tree (js "Patio. "))
  /\ (exists packet,
     packet_of (setting_tree (js "say &quot;hi")) = Some packet
     /\ recovered_original packet = None
     /\ get_prop (parseXMPContent packet) (js "scene_overview") = VUndefined).
Proof.
  split; [|split].
  - eexists. split; [vm_compute; reflexivity|].
    split; [vm_compute; reflexivity | discriminate].
  - eexists. split; [vm_compute; reflexivity|].
    split; [vm_compute; reflexivity | discriminate].
  - eexists. split; [vm_compute; reflexivity|].
    split; vm_compute; reflexivity.
Qed.

End LedgerFacts.

(** ** The category organizer *)

Module OrganizerFacts.
Import Report Organized.

Lemma has_spec (l : list jsstring) (k : jsstring) : has l k = true <-> In k l.
Proof.
  unfold has. rewrite existsb_exists. split.
  - intros [x [Hx E]]. apply str_eqb_eq in E. subst. exact Hx.
  - intros H. exists k. split; [exact H | apply str_eqb_eq; reflexivity].
Qed.

Lemma has_false (l : list jsstring) (k : jsstring) : has l k = false <-> ~ In k l.
Proof.
  rewrite <- has_spec. destruct (has l k); split; congruence.
Qed.

Lemma is_field_spec (k : jsstring) : is_field k = true <-> k <> js "Raw_JSON".
Proof.
  unfold is_field. rewrite negb_true_iff. split.
  - intros E ->. rewrite (proj2 (str_eqb_eq _ _) eq_refl) in E. discriminate.
  - intros H. apply not_true_is_false. intros E. apply str_eqb_eq in E. exact (H E).
Qed.

(** Setting a property that the object does not have appends it. *)
Lemma obj_set_fresh (k : jsstring) (v : value) (props : list (jsstring * value)) :
  ~ In k (map fst props) -> obj_set k v props = props ++ [(k, v)].
Proof.
  induction props as [|[k' v'] rest IH]; intros Hn; [reflexivity|].
  cbn [obj_set]. destruct (str_eqb k' k) eqn:E.
  - apply str_eqb_eq in E. exfalso. apply Hn. left. exact E.
  - cbn [app]. f_equal. apply IH. intros H. apply Hn. right. exact H.
Qed.

Section Organizer.

Variable schemaData : value.
Variable schemaType : jsstring.
Let ks : list jsstring := Object_keys schemaData.
Hypothesis ks_nodup : NoDup ks.

Local Abbreviation entry_of := (Organized.entry_of schemaData).
Local Abbreviation valid := (Organized.valid schemaData).
Local Abbreviation matching := (Organized.matching schemaData schemaType).
Local Abbreviation unmatched := (Organized.unmatched schemaData).
Local Abbreviation state_ok := (Organized.state_ok schemaData).

(** Claiming fresh, distinct keys appends them to the category, to the set of
    assigned fields and to the counter. *)
Lemma claim_keys (keys : list jsstring) :
  NoDup keys ->
  forall (cf : list (jsstring * value)) (asg : list jsstring) (tot : Z),
    incl (map fst cf) asg ->
    (forall k, In k keys -> ~ In k asg) ->
    fold_left (fun acc key =>
                 let '(cf, asg, tot) := acc in
                 (obj_set key (get_own schemaData key) cf, asg ++ [key], tot + 1))
              keys (cf, asg, tot)
    = (cf ++ map entry_of keys, asg ++ keys, tot + Z.of_nat (length keys)).
Proof.
  induction 1 as [|k keys Hk Hnd IH]; intros cf asg tot Hincl Hfresh.
  - cbn. rewrite !app_nil_r. f_equal. lia.
  - cbn [fold_left]. rewrite obj_set_fresh.
    + rewrite IH.
      * cbn [map length]. rewrite <- !app_assoc. cbn [app]. f_equal. lia.
      * rewrite map_app. cbn. intros x Hx. apply in_app_or in Hx as [Hx|Hx].
        -- apply in_or_app. left. apply Hincl. exact Hx.
        -- apply in_or_app. right. exact Hx.
      * intros x Hx Hin. apply in_app_or in Hin as [Hin|[Hin|[]]].
        -- apply (Hfresh x); [right; exact Hx | exact Hin].
        -- subst. exact (Hk Hx).
    + intros Hin. apply (Hfresh k); [left; reflexivity | apply Hincl; exact Hin].
Qed.

Lemma matching_spec (asg : list jsstring) (fieldPattern k : jsstring) :
  In k (matching asg fieldPattern) ->
  In k ks /\ is_field k = true /\ ~ In k asg.
Proof.
  unfold matching. intros H. apply filter_In in H as [Hin Hc].
  split; [exact Hin|]. unfold is_field.
  destruct (str_eqb k (js "Raw_JSON")); [discriminate|]. split; [reflexivity|].
  destruct (has asg k) eqn:E; [discriminate|]. apply has_false. exact E.
Qed.

Lemma claim_pattern_spec (cf : list (jsstring * value)) (asg : list jsstring)
    (tot : Z) (fieldPattern : jsstring) :
  incl (map fst cf) asg -> valid asg ->
  let keys := matching asg fieldPattern in
  claim_pattern schemaData schemaType (cf, asg, tot) fieldPattern
  = (cf ++ map entry_of keys, asg ++ keys, tot + Z.of_nat (length keys))
  /\ valid (asg ++ keys).
Proof.
  intros Hincl [Hnd Hval] keys.
  assert (Hk : NoDup keys) by (apply NoDup_filter; exact ks_nodup).
  split.
  - unfold claim_pattern. fold ks. fold (matching asg fieldPattern). fold keys.
    apply claim_keys; [exact Hk | exact Hincl |].
    intros k Hin. apply (matching_spec asg fieldPattern k Hin).
  - split.
    + apply NoDup_app; [exact Hnd | exact Hk |].
      intros k Ha Hb. exact (proj2 (proj2 (matching_spec asg fieldPattern k Hb)) Ha).
    + intros k Hin. apply in_app_or in Hin as [Hin|Hin]; [exact (Hval k Hin)|].
      destruct (matching_spec asg fieldPattern k Hin) as [H1 [H2 _]]. split; assumption.
Qed.

(** The loop over the patterns of one category. *)
Lemma claim_patterns_spec (patterns : list jsstring) :
  forall (cf : list (jsstring * value)) (asg0 asg : list jsstring) (tot0 tot : Z),
    asg = asg0 ++ map fst cf -> tot = tot0 + Z.of_nat (length cf) -> valid asg ->
    exists cf' ,
      fold_left (claim_pattern schemaData schemaType) patterns (cf, asg, tot)
      = (cf', asg0 ++ map fst cf', tot0 + Z.of_nat (length cf'))
      /\ valid (asg0 ++ map fst cf').
Proof.
  induction patterns as [|pat rest IH]; intros cf asg0 asg tot0 tot Hasg Htot Hv.
  - exists cf. cbn. subst. split; [reflexivity | exact Hv].
  - cbn [fold_left].
    destruct (claim_pattern_spec cf asg tot pat) as [E Hv'].
    { subst asg. intros x Hx. apply in_or_app. right. exact Hx. }
    { exact Hv. }
    rewrite E. apply IH.
    + rewrite map_app, map_map. cbn. rewrite map_id, app_assoc. subst asg. reflexivity.
    + rewrite length_app, length_map. lia.
    + exact Hv'.
Qed.

Lemma category_keys_app (a b : list (CategoryDefinition * list (jsstring * value))) :
  category_keys (a ++ b) = category_keys a ++ category_keys b.
Proof. unfold category_keys. apply flat_map_app. Qed.

Lemma field_count_sum_app (a b : list (CategoryDefinition * list (jsstring * value))) :
  field_count_sum (a ++ b) = field_count_sum a + field_count_sum b.
Proof.
  unfold field_count_sum. induction a as [|c a IH]; cbn [app fold_right]; [lia|].
  rewrite IH. lia.
Qed.

Lemma claim_category_spec (table : list CategoryDefinition) (st : organizer_state)
    (category : CategoryDefinition) :
  In category table -> state_ok table st ->
  state_ok table (claim_category schemaData schemaType st category).
Proof.
  intros Hin [Hkeys [Hv [Hsum [Hcount Htab]]]].
  unfold claim_category.
  destruct (claim_patterns_spec (fields category) [] (assignedFields st)
              (assignedFields st) (fieldCounter st) (fieldCounter st))
    as [cf [E Hv']].
  { cbn. rewrite app_nil_r. reflexivity. }
  { cbn. lia. }
  { exact Hv. }
  rewrite E. unfold state_ok. cbn [organizedCategories assignedFields fieldCounter].
  destruct cf as [|e cf].
  - cbn [map app length] in *. rewrite app_nil_r in *.
    split; [exact Hkeys|]. split; [exact Hv'|].
    split; [lia|]. split; [lia | exact Htab].
  - split; [|split; [|split; [|split]]].
    + rewrite category_keys_app, Hkeys. cbn. rewrite app_nil_r. reflexivity.
    + exact Hv'.
    + rewrite field_count_sum_app, Hsum. cbn [field_count_sum fold_right snd]. lia.
    + rewrite length_app, length_map. lia.
    + apply Forall_app. split; [exact Htab|]. constructor; [exact Hin | constructor].
Qed.

Lemma claim_categories_spec (table cats : list CategoryDefinition) :
  incl cats table ->
  forall st, state_ok table st ->
             state_ok table (fold_left (claim_category schemaData schemaType) cats st).
Proof.
  induction cats as [|c cats IH]; intros Hincl st Hst; [exact Hst|].
  cbn [fold_left]. apply IH.
  - intros x Hx. apply Hincl. right. exact Hx.
  - apply claim_category_spec; [apply Hincl; left; reflexivity | exact Hst].
Qed.

Lemma set_keys (keys : list jsstring) :
  NoDup keys ->
  forall cf : list (jsstring * value),
    (forall k, In k keys -> ~ In k (map fst cf)) ->
    fold_left (fun fields key => obj_set key (get_own schemaData key) fields) keys cf
    = cf ++ map entry_of keys.
Proof.
  induction 1 as [|k keys Hk Hnd IH]; intros cf Hfresh.
  - cbn. rewrite app_nil_r. reflexivity.
  - cbn [fold_left]. rewrite obj_set_fresh by (apply Hfresh; left; reflexivity).
    rewrite IH.
    + cbn [map]. rewrite <- app_assoc. reflexivity.
    + intros x Hx Hin. rewrite map_app in Hin. apply in_app_or in Hin as [Hin|[Hin|[]]].
      * apply (Hfresh x); [right; exact Hx | exact Hin].
      * cbn in Hin. subst. exact (Hk Hx).
Qed.

Lemma map_fst_entry_of (l : list jsstring) : map fst (map entry_of l) = l.
Proof. induction l as [|x l IH]; cbn; [reflexivity | rewrite IH; reflexivity]. Qed.

Lemma unmatched_spec (asg : list jsstring) (k : jsstring) :
  In k (unmatched asg) <-> In k ks /\ ~ In k asg /\ is_field k = true.
Proof.
  unfold unmatched. rewrite filter_In, andb_true_iff, negb_true_iff, has_false.
  unfold is_field. tauto.
Qed.

End Organizer.

(** Counting: the assigned keys and the keys left over make up the list. *)
Lemma count_partition (l : list jsstring) :
  NoDup l ->
  forall a : list jsstring,
    NoDup a -> incl a l ->
    (length a + length (filter (fun k => negb (has a k)) l) = length l)%nat.
Proof.
  induction 1 as [|x l Hx Hnd IH]; intros a Ha Hincl.
  - destruct a as [|y a]; [reflexivity|]. exfalso. apply (Hincl y). left. reflexivity.
  - cbn [filter length]. destruct (has a x) eqn:E.
    + apply has_spec in E. apply in_split in E as [a1 [a2 ->]].
      assert (Ha' : NoDup (a1 ++ a2)) by (apply NoDup_remove_1 in Ha; exact Ha).
      assert (Hx' : ~ In x (a1 ++ a2)) by (apply NoDup_remove_2 in Ha; exact Ha).
      specialize (IH (a1 ++ a2) Ha').
      assert (Hincl' : incl (a1 ++ a2) l).
      { intros y Hy. assert (Hy' : In y (a1 ++ x :: a2)).
        { apply in_app_or in Hy as [Hy|Hy]; apply in_or_app; [left | right; right]; exact Hy. }
        destruct (Hincl y Hy') as [->|H]; [contradiction | exact H]. }
      specialize (IH Hincl'). cbn [negb].
      rewrite (filter_ext_in (fun k => negb (has (a1 ++ x :: a2) k))
                             (fun k => negb (has (a1 ++ a2) k))).
      * rewrite length_app in *. cbn [length]. lia.
      * intros y Hy. f_equal.
        destruct (has (a1 ++ a2) y) eqn:E1.
        -- apply has_spec in E1. apply has_spec.
           apply in_app_or in E1 as [E1|E1]; apply in_or_app; [left | right; right]; exact E1.
        -- apply has_false in E1. apply has_false. intros Hin. apply E1.
           apply in_app_or in Hin as [Hin|[Hin|Hin]]; apply in_or_app;
             [left; exact Hin | subst; contradiction | right; exact Hin].
    + cbn [negb length]. apply has_false in E.
      assert (Hincl' : incl a l).
      { intros y Hy. destruct (Hincl y Hy) as [->|H]; [contradiction | exact H]. }
      specialize (IH a Ha Hincl'). lia.
Qed.

Lemma filter_filter_fields (a l : list jsstring) :
  filter (fun key => negb (has a key) && negb (str_eqb key (js "Raw_JSON"))) l
  = filter (fun k => negb (has a k)) (filter is_field l).
Proof.
  induction l as [|x l IH]; [reflexivity|].
  cbn [filter]. unfold is_field at 1.
  destruct (str_eqb x (js "Raw_JSON")); cbn [negb].
  - rewrite andb_false_r. exact IH.
  - rewrite andb_true_r. cbn [filter]. destruct (negb (has a x)); rewrite IH; reflexivity.
Qed.

(** The lookup of the table of categories finds a member inherited from
    [Object.prototype] exactly for the names that the prototype defines. *)
Lemma schemaCategoryMap_spec (schemaType : jsstring) :
  (In schemaType objectPrototypeNames -> schemaCategoryMap schemaType = None)
  /\ (~ In schemaType objectPrototypeNames ->
      exists table, schemaCategoryMap schemaType = Some table).
Proof.
  unfold schemaCategoryMap. split.
  - intros H. repeat (destruct H as [<-|H]; [reflexivity|]). destruct H.
  - intros H.
    destruct (str_eqb schemaType (js "lifestyle")); [eexists; reflexivity|].
    destruct (str_eqb schemaType (js "product")); [eexists; reflexivity|].
    destruct (str_eqb schemaType (js "orbit")); [eexists; reflexivity|].
    destruct (existsb (str_eqb schemaType) objectPrototypeNames) eqn:E;
      [|eexists; reflexivity].
    exfalso. apply H. apply existsb_exists in E as (x & Hx & Hx').
    apply str_eqb_eq in Hx'. rewrite Hx'. exact Hx.
Qed.

(** The loop over an inherited member throws. *)
Lemma organize_throws (metadata : value) (schemaType : jsstring) :
  In schemaType objectPrototypeNames ->
  exists message, organizeMetadataByCategories metadata schemaType = Throw message.
Proof.
  intros H. unfold organizeMetadataByCategories.
  rewrite (proj1 (schemaCategoryMap_spec schemaType) H).
  destruct metadata; eexists; reflexivity.
Qed.

(** The record returned for a table of categories: the categories claimed
    by the loops, then the catch-all category when a field is left. *)
Lemma organize_result (metadata : value) (schemaType : jsstring)
    (table : list CategoryDefinition) :
  let schemaData := schemaDataOf metadata schemaType in
  let st := fold_left (claim_category schemaData schemaType) table
              {| organizedCategories := []; assignedFields := []; fieldCounter := 0 |} in
  let um := unmatched schemaData (assignedFields st) in
  metadata <> VNull -> metadata <> VUndefined ->
  schemaCategoryMap schemaType = Some table ->
  NoDup (Object_keys schemaData) ->
  exists r,
    organizeMetadataByCategories metadata schemaType = Return r
    /\ categories r
       = organizedCategories st ++
         match um with
         | [] => []
         | _ => [(additionalMetadata, map (entry_of schemaData) um)]
         end
    /\ totalFields r = fieldCounter st + Z.of_nat (length um)
    /\ totalCategories r = Z.of_nat (length (categories r)).
Proof.
  intros schemaData st um Hnull Hundef Htable Hnd.
  assert (Hum : NoDup um) by (apply NoDup_filter; exact Hnd).
  assert (Hfields :
    fold_left (fun fields key => obj_set key (get_own schemaData key) fields) um []
    = map (entry_of schemaData) um).
  { rewrite set_keys; [reflexivity | exact Hum | intros k _ []]. }
  assert (Hdata : match metadata with
                  | VNull | VUndefined => typeError
                  | _ => eret schemaData
                  end = Return schemaData).
  { destruct metadata; try reflexivity; congruence. }
  unfold organizeMetadataByCategories. fold schemaData. rewrite Htable, Hdata.
  cbn [ebind eret]. fold st. fold (unmatched schemaData (assignedFields st)). fold um.
  rewrite Hfields. eexists. split; [reflexivity|].
  cbn [categories totalFields totalCategories].
  split; [|split; reflexivity].
  destruct um; [rewrite app_nil_r|]; reflexivity.
Qed.

(** C6, as the code has it.  For metadata that are neither [null] nor
    [undefined]: when the schema type names a member of [Object.prototype]
    the function throws; otherwise, and so for the three schema variants,
    it returns.  The fields organized are then the keys, other than
    [Raw_JSON], of the schema data (the object nested under the schema name
    when the metadata has one, the metadata itself otherwise).  Each of them
    is placed in exactly one category; the categories come from the table of
    the schema and are followed by at most one category named
    [Additional Metadata] that holds every field no pattern claimed; and the
    sum of the per-category counts, which is [totalFields], is the number of
    those keys.  [Raw_JSON] is placed in no category and is not counted. *)
Theorem organize_exclusive (metadata : value) (schemaType : jsstring) :
  let keys := Object_keys (schemaDataOf metadata schemaType) in
  metadata <> VNull -> metadata <> VUndefined ->
  NoDup keys ->
  (In schemaType objectPrototypeNames ->
   exists message, organizeMetadataByCategories metadata schemaType = Throw message)
  /\ (~ In schemaType objectPrototypeNames ->
      exists table r,
        schemaCategoryMap schemaType = Some table
        /\ organizeMetadataByCategories metadata schemaType = Return r
        /\ NoDup (category_keys (categories r))
        /\ (forall k, In k (category_keys (categories r))
                      <-> In k keys /\ k <> js "Raw_JSON")
        /\ (exists claimed extra,
              categories r = claimed ++ extra
              /\ Forall (fun c => In (fst c) table) claimed
              /\ (extra = [] \/ exists fields, extra = [(additionalMetadata, fields)])
              /\ forall k, In k keys -> k <> js "Raw_JSON" ->
                           ~ In k (category_keys claimed) -> In k (category_keys extra))
        /\ field_count_sum (categories r) = totalFields r
        /\ totalFields r = Z.of_nat (length (filter is_field keys))
        /\ totalCategories r = Z.of_nat (length (categories r))).
Proof.
  intros keys Hnull Hundef Hnd.
  split; [apply organize_throws|]. intros Hname.
  destruct (proj2 (schemaCategoryMap_spec schemaType) Hname) as [table Htable].
  destruct (organize_result metadata schemaType table Hnull Hundef Htable Hnd)
    as (r & Hr & Hcats & Htotal & Hcount').
  exists table, r. split; [exact Htable|]. split; [exact Hr|].
  set (schemaData := schemaDataOf metadata schemaType) in *.
  set (st := fold_left (claim_category schemaData schemaType) table
               {| organizedCategories := []; assignedFields := []; fieldCounter := 0 |})
    in *.
  assert (Hst : state_ok schemaData table st).
  { apply claim_categories_spec; [exact Hnd | apply incl_refl |].
    unfold state_ok. cbn [organizedCategories assignedFields fieldCounter].
    split; [reflexivity|]. split; [split; [constructor | intros k []]|].
    split; [reflexivity|]. split; [reflexivity | constructor]. }
  destruct Hst as [Hkeys [[Hnda Hval] [Hsum [Hcount Htab]]]].
  set (um := unmatched schemaData (assignedFields st)) in *.
  assert (Hum : NoDup um) by (apply NoDup_filter; exact Hnd).
  assert (Hck : category_keys (categories r) = assignedFields st ++ um).
  { rewrite Hcats, category_keys_app, Hkeys. f_equal.
    destruct um as [|u um']; [reflexivity|].
    cbn [category_keys flat_map snd]. rewrite app_nil_r. apply map_fst_entry_of. }
  split; [|split; [|split; [|split; [|split]]]].
  - rewrite Hck. apply NoDup_app; [exact Hnda | exact Hum |].
    intros k Ha Hb. apply unmatched_spec in Hb. tauto.
  - intros k. rewrite Hck, in_app_iff. unfold um. rewrite unmatched_spec.
    rewrite <- is_field_spec. split.
    + intros [H|H]; [exact (Hval k H) | tauto].
    + intros [H1 H2].
      destruct (has (assignedFields st) k) eqn:E;
        [left; apply has_spec; exact E | right].
      apply has_false in E. tauto.
  - exists (organizedCategories st),
      (match um with [] => [] | _ => [(additionalMetadata, map (entry_of schemaData) um)] end).
    split; [exact Hcats|]. split; [exact Htab|]. split.
    + destruct um; [left; reflexivity | right; eexists; reflexivity].
    + intros k Hk Hraw Hn. rewrite Hkeys in Hn.
      assert (Hin : In k um) by (apply unmatched_spec; rewrite is_field_spec; tauto).
      destruct um as [|u um']; [destruct Hin|].
      cbn [category_keys flat_map snd]. rewrite app_nil_r, map_fst_entry_of.
      exact Hin.
  - rewrite Hcats, field_count_sum_app, Hsum, Htotal. f_equal.
    destruct um as [|u um']; [reflexivity|].
    cbn [field_count_sum fold_right snd]. rewrite length_map. lia.
  - rewrite Htotal, Hcount. unfold um, unmatched. rewrite filter_filter_fields.
    rewrite <- (count_partition (filter is_field keys)) with (a := assignedFields st).
    + rewrite Nat2Z.inj_add. reflexivity.
    + apply NoDup_filter. exact Hnd.
    + exact Hnda.
    + intros k Hk. apply filter_In. exact (Hval k Hk).
  - exact Hcount'.
Qed.

Lemma organize_exclusive_witness :
  let metadata := VObj [ (js "Raw_JSON", VStr (js "{}"));
                         (js "scene_overview_setting", VStr (js "Outdoor patio"));
                         (js "mystery", VStr (js "unclassified")) ] in
  NoDup (Object_keys (schemaDataOf metadata (js "lifestyle")))
  /\ (exists r,
        organizeMetadataByCategories metadata (js "lifestyle") = Return r
        /\ field_count_sum (categories r) = totalFields r
        /\ totalFields r = 2)
  /\ (exists message,
        organizeMetadataByCategories metadata (js "constructor") = Throw message).
Proof.
  intros metadata.
  assert (Hnd : NoDup (Object_keys (schemaDataOf metadata (js "lifestyle")))).
  { repeat constructor; cbn; intuition discriminate. }
  split; [exact Hnd|]. split.
  - destruct (organize_exclusive metadata (js "lifestyle")
                ltac:(discriminate) ltac:(discriminate) Hnd) as [_ H].
    destruct H as (table & r & _ & Hr & _ & _ & _ & Hsum & Htotal & _).
    { cbv. intuition discriminate. }
    exists r. split; [exact Hr|]. split; [exact Hsum|]. rewrite Htotal. reflexivity.
  - assert (Hnd' : NoDup (Object_keys (schemaDataOf metadata (js "constructor")))).
    { repeat constructor; cbn; intuition discriminate. }
    apply (organize_exclusive metadata (js "constructor")
             ltac:(discriminate) ltac:(discriminate) Hnd').
    do 0 right. left. reflexivity.
Defined.

(** The claim fails when the map holds [Raw_JSON], which is left out of every
    category and of the count, and when a list sits under the schema name,
    in which case the elements of the list are organized instead of the
    keys of the map. *)
Lemma organize_count_differs :
  (let metadata := VObj [ (js "Raw_JSON", VStr (js "{}"));
                          (js "setting", VStr (js "Outdoor patio")) ] in
   exists r,
     organizeMetadataByCategories metadata (js "lifestyle") = Return r
     /\ length (Object_keys metadata) = 2%nat
     /\ category_keys (categories r) = [js "setting"]
     /\ field_count_sum (categories r) = 1
     /\ totalFields r = 1)
  /\ (let metadata := VObj [ (js "lifestyle", VArr [VStr (js "a"); VStr (js "b");
                                                    VStr (js "c")]);
                             (js "setting", VStr (js "Outdoor patio")) ] in
      exists r,
        organizeMetadataByCategories metadata (js "lifestyle") = Return r
        /\ length (Object_keys metadata) = 2%nat
        /\ category_keys (categories r) = [js "0"; js "1"; js "2"]
        /\ field_count_sum (categories r) = 3
        /\ totalFields r = 3).
Proof.
  split; vm_compute; eexists; repeat split; reflexivity.
Qed.

End OrganizerFacts.

(** ** Character entities *)

Module XmlFacts.
Import Serializer Parser XmlText.

Lemma flat_map_flat_map {A B C} (f : A -> list B) (g : B -> list C) (l : list A) :
  flat_map g (flat_map f l) = flat_map (fun x => flat_map g (f x)) l.
Proof.
  induction l as [|x l IH]; simpl; [reflexivity|].
  rewrite flat_map_app, IH. reflexivity.
Qed.

Lemma replace_char_flat_map (c : Z) (r : jsstring) (f : Z -> jsstring) (s : jsstring) :
  replace_char c r (flat_map f s) = flat_map (fun x => replace_char c r (f x)) s.
Proof. apply flat_map_flat_map. Qed.

Lemma replace_char_as_flat_map (c : Z) (r s : jsstring) :
  replace_char c r s = flat_map (fun x => replace_char c r [x]) s.
Proof.
  unfold replace_char. apply flat_map_ext. intros x. simpl.
  rewrite app_nil_r. reflexivity.
Qed.

(** [escapeXML] works character by character. *)
Lemma escapeXML_chars (text : jsstring) :
  escapeXML text = flat_map escape_char text.
Proof.
  unfold escapeXML.
  rewrite (replace_char_as_flat_map 38).
  rewrite !replace_char_flat_map.
  apply flat_map_ext. intros c.
  unfold escape_char, entity_of, replace_char. simpl.
  destruct (Z.eqb_spec c 38) as [->|H38]; [reflexivity|].
  simpl.
  destruct (Z.eqb_spec c 60) as [->|H60]; [reflexivity|].
  simpl.
  destruct (Z.eqb_spec c 62) as [->|H62]; [reflexivity|].
  simpl.
  destruct (Z.eqb_spec c 34) as [->|H34]; [reflexivity|].
  simpl.
  destruct (Z.eqb_spec c 39) as [->|H39]; reflexivity.
Qed.

Local Ltac neq := let E := fresh in intros E; vm_compute in E; lia.

Lemma plain_cases (c : Z) :
  c = 38 \/ c = 60 \/ c = 62 \/ c = 34 \/ c = 39 \/ plain c.
Proof. unfold plain. lia. Qed.

Lemma entity_of_plain (f1 f2 f3 f4 : bool) (c : Z) :
  c <> 60 -> c <> 62 -> c <> 34 -> c <> 39 -> entity_of f1 f2 f3 f4 c = [c].
Proof.
  intros H1 H2 H3 H4. unfold entity_of.
  destruct (Z.eqb_spec c 60); [contradiction|].
  destruct (Z.eqb_spec c 62); [contradiction|].
  destruct (Z.eqb_spec c 34); [contradiction|].
  destruct (Z.eqb_spec c 39); [contradiction|]. reflexivity.
Qed.

Lemma entity_of_cases (f1 f2 f3 f4 : bool) (c : Z) :
  entity_of f1 f2 f3 f4 c = [c]
  \/ (exists r, entity_of f1 f2 f3 f4 c = 38 :: r) /\ ~ plain c.
Proof.
  unfold entity_of, plain.
  destruct (Z.eqb_spec c 60) as [->|H60].
  { destruct f1; [right; split; [eexists; reflexivity | lia] | left; reflexivity]. }
  destruct (Z.eqb_spec c 62) as [->|H62].
  { destruct f2; [right; split; [eexists; reflexivity | lia] | left; reflexivity]. }
  destruct (Z.eqb_spec c 34) as [->|H34].
  { destruct f3; [right; split; [eexists; reflexivity | lia] | left; reflexivity]. }
  destruct (Z.eqb_spec c 39) as [->|H39].
  { destruct f4; [right; split; [eexists; reflexivity | lia] | left; reflexivity]. }
  left. reflexivity.
Qed.

(** A pattern made of plain characters begins the escaped text exactly when
    it begins the text. *)
Lemma startsWith_entities (f1 f2 f3 f4 : bool) (p s : jsstring) :
  Forall plain p ->
  startsWith (flat_map (entity_of f1 f2 f3 f4) s) p = startsWith s p.
Proof.
  intros Hp. revert s. induction Hp as [|y p Hy Hp IH]; intros s.
  - destruct s; simpl; [reflexivity|].
    destruct (entity_of f1 f2 f3 f4 z ++ flat_map (entity_of f1 f2 f3 f4) s); reflexivity.
  - destruct s as [|c s]; [reflexivity|].
    cbn [flat_map].
    destruct (entity_of_cases f1 f2 f3 f4 c) as [->|[[r ->] Hc]].
    + cbn [app startsWith]. rewrite IH. reflexivity.
    + cbn [app startsWith].
      destruct (Z.eqb_spec 38 y) as [<-|_]; [unfold plain in Hy; lia|].
      destruct (Z.eqb_spec c y) as [->|_]; [contradiction|]. reflexivity.
Qed.

Lemma replace_all_from_cons (pat rep : jsstring) (c : Z) (s : jsstring) :
  replace_all_from pat rep 0 (c :: s) =
  if startsWith (c :: s) pat
  then rep ++ replace_all_from pat rep (length pat - 1) s
  else c :: replace_all_from pat rep 0 s.
Proof. reflexivity. Qed.

Lemma replace_all_from_skip (pat rep : jsstring) (a s : jsstring) :
  replace_all_from pat rep (length a) (a ++ s) = replace_all_from pat rep 0 s.
Proof. induction a as [|x a IH]; [reflexivity | exact IH]. Qed.

(** A character other than the first of the pattern is passed on. *)
Lemma replace_all_from_other (y : Z) (p rep : jsstring) (c : Z) (s : jsstring) :
  c <> y ->
  replace_all_from (y :: p) rep 0 (c :: s) = c :: replace_all_from (y :: p) rep 0 s.
Proof.
  intros H. rewrite replace_all_from_cons. cbn [startsWith].
  destruct (Z.eqb_spec c y); [contradiction | reflexivity].
Qed.

Lemma replace_all_from_match (pat rep s : jsstring) :
  pat <> [] ->
  replace_all_from pat rep 0 (pat ++ s) = rep ++ replace_all_from pat rep 0 s.
Proof.
  destruct pat as [|y p]; [congruence|]. intros _.
  cbn [app]. rewrite replace_all_from_cons.
  replace (startsWith (y :: p ++ s) (y :: p)) with true.
  2:{ symmetry. apply startsWith_spec. exists s. reflexivity. }
  cbn [length]. rewrite Nat.sub_succ, Nat.sub_0_r, replace_all_from_skip.
  reflexivity.
Qed.

Lemma flat_map_cons {A B} (f : A -> list B) (x : A) (l : list A) :
  flat_map f (x :: l) = f x ++ flat_map f l.
Proof. reflexivity. Qed.

Section Stage.

(** One replacement of [unescapeXML]: the entity [&body] of the character
    [x]; [before] and [after] are the characters written as entities before
    and after it. *)
Variables (before after : Z -> jsstring) (body : jsstring) (x : Z).
Hypothesis body_plain : Forall plain body.
Hypothesis starts_before : forall p s,
  Forall plain p -> startsWith (flat_map before s) p = startsWith s p.
Hypothesis before_x : before x = 38 :: body.
Hypothesis after_x : after x = [x].
Hypothesis x_not_amp : x <> 38.
Hypothesis before_amp : before 38 = [38].
Hypothesis after_amp : after 38 = [38].
Hypothesis after_plain : forall c, plain c -> after c = [c].
Hypothesis before_plain : forall c, plain c -> before c = [c].
Hypothesis others : forall c, c <> x -> c <> 38 -> ~ plain c ->
  after c = before c /\
  forall s, replace_all_from (38 :: body) [x] 0 (before c ++ s)
            = before c ++ replace_all_from (38 :: body) [x] 0 s.

Lemma flat_map_plain (f : Z -> jsstring) (p s : jsstring) :
  (forall c, plain c -> f c = [c]) -> Forall plain p ->
  flat_map f (p ++ s) = p ++ flat_map f s.
Proof.
  intros Hf Hp. induction Hp as [|c p Hc Hp IH]; [reflexivity|].
  cbn [app flat_map]. rewrite Hf by exact Hc. rewrite IH. reflexivity.
Qed.

Lemma stage_bounded (n : nat) : forall s, (length s <= n)%nat ->
  replace_all_from (38 :: body) [x] 0 (flat_map before s)
  = flat_map after (replace_all_from (38 :: body) [x] 0 s).
Proof.
  induction n as [|n IH]; intros s Hn.
  { destruct s; [reflexivity | cbn in Hn; lia]. }
  destruct s as [|c s]; [reflexivity|]. cbn [length] in Hn.
  rewrite flat_map_cons.
  destruct (Z.eq_dec c 38) as [->|H38].
  - (* an ampersand of the text *)
    rewrite before_amp. cbn [app].
    rewrite !replace_all_from_cons. cbn [startsWith].
    rewrite Z.eqb_refl. cbn [andb]. rewrite starts_before by exact body_plain.
    destruct (startsWith s body) eqn:E.
    + apply startsWith_spec in E as [r ->].
      rewrite (flat_map_plain before) by (assumption || exact before_plain).
      cbn [length]. rewrite Nat.sub_succ, Nat.sub_0_r.
      rewrite !replace_all_from_skip.
      rewrite flat_map_app. cbn [flat_map]. rewrite after_x, app_nil_r.
      rewrite IH; [reflexivity|]. rewrite length_app in Hn. lia.
    + rewrite flat_map_cons, after_amp. cbn [app]. rewrite IH by lia. reflexivity.
  - destruct (Z.eq_dec c x) as [->|Hx].
    + (* the character of the entity *)
      rewrite before_x. cbn [app].
      rewrite replace_all_from_cons.
      replace (startsWith (38 :: body ++ flat_map before s) (38 :: body)) with true.
      2:{ symmetry. apply startsWith_spec. eexists.
          change (38 :: body ++ flat_map before s)
            with ((38 :: body) ++ flat_map before s). reflexivity. }
      cbn [length]. rewrite Nat.sub_succ, Nat.sub_0_r, replace_all_from_skip.
      rewrite replace_all_from_other by exact x_not_amp.
      rewrite flat_map_cons, after_x. rewrite IH by lia. reflexivity.
    + rewrite (replace_all_from_other 38 body [x] c s) by exact H38.
      rewrite flat_map_cons.
      destruct (plain_cases c) as [->|[->|[->|[->|[->|Hc]]]]]; try contradiction.
      1-4: match goal with
           | |- context [before ?c] =>
               destruct (others c) as [-> ->];
               [assumption | assumption | unfold plain; lia |];
               rewrite IH by lia; reflexivity
           end.
      rewrite before_plain, after_plain by exact Hc. cbn [app].
      rewrite replace_all_from_other by exact H38.
      rewrite IH by lia. reflexivity.
Qed.

Lemma stage (s : jsstring) :
  replace_all (38 :: body) [x] (flat_map before s)
  = flat_map after (replace_all (38 :: body) [x] s).
Proof. apply (stage_bounded (length s)). apply Nat.le_refl. Qed.

End Stage.

Lemma stage_amp (s : jsstring) :
  replace_all (js "&amp;") (js "&") (flat_map escape_char s)
  = flat_map (entity_of true true true true) s.
Proof.
  unfold replace_all. change (js "&amp;") with (38 :: js "amp;").
  induction s as [|c s IH]; [reflexivity|].
  rewrite !flat_map_cons. unfold escape_char at 1.
  destruct (Z.eqb_spec c 38) as [->|H38].
  { change (js "&amp;") with (38 :: js "amp;").
    rewrite (replace_all_from_match (38 :: js "amp;")) by discriminate.
    rewrite IH. reflexivity. }
  destruct (entity_of_cases true true true true c) as [E|[_ Hc]].
  - rewrite E. cbn [app].
    rewrite (replace_all_from_other 38) by exact H38. rewrite IH. reflexivity.
  - assert (Hcases : c = 60 \/ c = 62 \/ c = 34 \/ c = 39) by (unfold plain in Hc; lia).
    destruct Hcases as [->|[->|[->| ->]]]; cbn; rewrite <- IH; reflexivity.
Qed.

Local Ltac stage_others :=
  let c := fresh "c" in let Hx := fresh in let Ha := fresh in let Hp := fresh in
  intros c Hx Ha Hp;
  assert (c = 60 \/ c = 62 \/ c = 34 \/ c = 39) as [->|[->|[->| ->]]]
    by (unfold plain in Hp; lia);
  try contradiction;
  (split; [reflexivity|]); intros;
  match goal with
  | |- context [entity_of ?a ?b ?c ?d ?e] =>
      let v := eval cbv in (entity_of a b c d e) in
      change (entity_of a b c d e) with v
  end;
  reflexivity.

Local Ltac stage_side :=
  first [ reflexivity
        | exact (startsWith_entities _ _ _ _)
        | repeat constructor; unfold plain; cbv; intuition discriminate
        | intros ? (? & ? & ? & ? & ?); apply entity_of_plain; assumption
        | lia ].

Lemma stage_lt (f2 f3 f4 : bool) (s : jsstring) :
  replace_all (js "&lt;") (js "<") (flat_map (entity_of true f2 f3 f4) s)
  = flat_map (entity_of false f2 f3 f4) (replace_all (js "&lt;") (js "<") s).
Proof.
  apply (stage (entity_of true f2 f3 f4) (entity_of false f2 f3 f4) (js "lt;") 60);
    try stage_side.
  destruct f2, f3, f4; stage_others.
Qed.

Lemma stage_gt (f3 f4 : bool) (s : jsstring) :
  replace_all (js "&gt;") (js ">") (flat_map (entity_of false true f3 f4) s)
  = flat_map (entity_of false false f3 f4) (replace_all (js "&gt;") (js ">") s).
Proof.
  apply (stage (entity_of false true f3 f4) (entity_of false false f3 f4) (js "gt;") 62);
    try stage_side.
  destruct f3, f4; stage_others.
Qed.

Lemma stage_quot (f4 : bool) (s : jsstring) :
  replace_all (js "&quot;") dq (flat_map (entity_of false false true f4) s)
  = flat_map (entity_of false false false f4) (replace_all (js "&quot;") dq s).
Proof.
  apply (stage (entity_of false false true f4) (entity_of false false false f4)
               (js "quot;") 34);
    try stage_side.
  destruct f4; stage_others.
Qed.

Lemma stage_apos (s : jsstring) :
  replace_all (js "&apos;") (js "'") (flat_map (entity_of false false false true) s)
  = flat_map (entity_of false false false false) (replace_all (js "&apos;") (js "'") s).
Proof.
  apply (stage (entity_of false false false true) (entity_of false false false false)
               (js "apos;") 39);
    try stage_side.
  stage_others.
Qed.

Lemma flat_map_no_entity (s : jsstring) :
  flat_map (entity_of false false false false) s = s.
Proof.
  induction s as [|c s IH]; [reflexivity|]. rewrite flat_map_cons, IH.
  unfold entity_of. rewrite !andb_false_r. reflexivity.
Qed.

(** The first replacement of [unescapeXML] undoes [escapeXML]; the other
    four are then made in the text itself. *)
Lemma unescapeXML_escapeXML_decodes (text : jsstring) :
  unescapeXML (escapeXML text) = decode_entities text.
Proof.
  unfold unescapeXML, decode_entities.
  rewrite escapeXML_chars, stage_amp, stage_lt, stage_gt, stage_quot, stage_apos.
  apply flat_map_no_entity.
Qed.

Lemma startsWith_nil (s : jsstring) : startsWith s [] = true.
Proof. destruct s; reflexivity. Qed.

Lemma includes_cons (c : Z) (s p : jsstring) :
  includes (c :: s) p = startsWith (c :: s) p || includes s p.
Proof. reflexivity. Qed.

(** A text without the pattern is left as it is. *)
Lemma replace_all_absent (pat rep s : jsstring) :
  includes s pat = false -> replace_all pat rep s = s.
Proof.
  unfold replace_all. induction s as [|c s IH]; intros H; [reflexivity|].
  rewrite includes_cons in H. apply orb_false_iff in H as [H1 H2].
  rewrite replace_all_from_cons, H1, IH by exact H2. reflexivity.
Qed.

Lemma startsWith_length (s p : jsstring) :
  startsWith s p = true -> (length p <= length s)%nat.
Proof.
  intros H. apply startsWith_spec in H as [r ->]. rewrite length_app. lia.
Qed.

Lemma replace_all_from_length (pat rep : jsstring) :
  (length rep <= length pat)%nat ->
  forall s k, (length (replace_all_from pat rep k s) + Nat.min k (length s)
               <= length s)%nat.
Proof.
  intros Hrep. induction s as [|c s IH]; intros k.
  - destruct k; cbn; lia.
  - destruct k as [|k].
    + rewrite replace_all_from_cons.
      destruct (startsWith (c :: s) pat) eqn:E.
      * apply startsWith_length in E. cbn [length] in *.
        specialize (IH (length pat - 1)%nat). rewrite length_app. lia.
      * specialize (IH 0%nat). cbn [length]. lia.
    + specialize (IH k). cbn [replace_all_from length]. lia.
Qed.

Lemma replace_all_length (pat rep s : jsstring) :
  (length rep <= length pat)%nat ->
  (length (replace_all pat rep s) <= length s)%nat.
Proof.
  intros H. pose proof (replace_all_from_length pat rep H s 0). unfold replace_all. lia.
Qed.

(** A text with the pattern gets shorter when the replacement is shorter
    than the pattern. *)
Lemma replace_all_shrinks (pat rep s : jsstring) :
  (length rep < length pat)%nat -> includes s pat = true ->
  (length (replace_all pat rep s) < length s)%nat.
Proof.
  intros Hrep. unfold replace_all. induction s as [|c s IH]; intros H.
  - destruct pat; [cbn in Hrep; lia | discriminate].
  - rewrite includes_cons in H. rewrite replace_all_from_cons.
    destruct (startsWith (c :: s) pat) eqn:E.
    + apply startsWith_length in E. cbn [length] in *.
      pose proof (replace_all_from_length pat rep (Nat.lt_le_incl _ _ Hrep) s
                    (length pat - 1)%nat).
      rewrite length_app. lia.
    + cbn [orb] in H. specialize (IH H). cbn [length]. lia.
Qed.

Lemma decode_entities_fixed (text : jsstring) :
  decode_entities text = text <->
  includes text (js "&lt;") = false /\ includes text (js "&gt;") = false /\
  includes text (js "&quot;") = false /\ includes text (js "&apos;") = false.
Proof.
  unfold decode_entities. split.
  - intros H.
    assert (L1 := replace_all_length (js "&lt;") (js "<") text ltac:(cbn; lia)).
    assert (L2 := replace_all_length (js "&gt;") (js ">")
                    (replace_all (js "&lt;") (js "<") text) ltac:(cbn; lia)).
    assert (L3 := replace_all_length (js "&quot;") dq
                    (replace_all (js "&gt;") (js ">")
                       (replace_all (js "&lt;") (js "<") text)) ltac:(cbn; lia)).
    assert (L4 := replace_all_length (js "&apos;") (js "'")
                    (replace_all (js "&quot;") dq
                       (replace_all (js "&gt;") (js ">")
                          (replace_all (js "&lt;") (js "<") text))) ltac:(cbn; lia)).
    apply (f_equal (@length Z)) in H.
    destruct (includes text (js "&lt;")) eqn:E1.
    { pose proof (replace_all_shrinks (js "&lt;") (js "<") text ltac:(cbn; lia) E1). lia. }
    rewrite (replace_all_absent (js "&lt;")) in * by exact E1.
    destruct (includes text (js "&gt;")) eqn:E2.
    { pose proof (replace_all_shrinks (js "&gt;") (js ">") text ltac:(cbn; lia) E2). lia. }
    rewrite (replace_all_absent (js "&gt;")) in * by exact E2.
    destruct (includes text (js "&quot;")) eqn:E3.
    { pose proof (replace_all_shrinks (js "&quot;") dq text ltac:(cbn; lia) E3). lia. }
    rewrite (replace_all_absent (js "&quot;")) in * by exact E3.
    destruct (includes text (js "&apos;")) eqn:E4.
    { pose proof (replace_all_shrinks (js "&apos;") (js "'") text ltac:(cbn; lia) E4). lia. }
    repeat split.
  - intros (E1 & E2 & E3 & E4).
    rewrite (replace_all_absent (js "&lt;")) by exact E1.
    rewrite (replace_all_absent (js "&gt;")) by exact E2.
    rewrite (replace_all_absent (js "&quot;")) by exact E3.
    apply replace_all_absent. exact E4.
Qed.

(** [escapeXML] followed by [unescapeXML] gives the text with the entities
    of [<], [>], the quotation mark and the apostrophe that it already held
    decoded: the text comes back exactly when it holds none of them. *)
Theorem unescapeXML_after_escapeXML (text : jsstring) :
  unescapeXML (escapeXML text) = decode_entities text
  /\ (unescapeXML (escapeXML text) = text <->
      includes text (js "&lt;") = false /\ includes text (js "&gt;") = false /\
      includes text (js "&quot;") = false /\ includes text (js "&apos;") = false).
Proof.
  split; [apply unescapeXML_escapeXML_decodes|].
  rewrite unescapeXML_escapeXML_decodes. apply decode_entities_fixed.
Qed.

(** The text written by [escapeXML] holds none of the characters [<], [>],
    quotation mark and apostrophe. *)
Theorem escapeXML_has_no_markup (text : jsstring) :
  Forall (fun c => c <> 60 /\ c <> 62 /\ c <> 34 /\ c <> 39) (escapeXML text).
Proof.
  rewrite escapeXML_chars.
  apply Forall_forall. intros c Hc.
  apply in_flat_map in Hc as (x & _ & Hc). unfold escape_char in Hc.
  destruct (Z.eqb_spec x 38) as [E38|H38].
  { cbv in Hc. intuition lia. }
  destruct (entity_of_cases true true true true x) as [E|[_ Hx]].
  - rewrite E in Hc. destruct Hc as [<-|[]].
    unfold entity_of in E.
    destruct (Z.eqb_spec x 60); [discriminate|].
    destruct (Z.eqb_spec x 62); [discriminate|].
    destruct (Z.eqb_spec x 34); [discriminate|].
    destruct (Z.eqb_spec x 39); [discriminate|]. repeat split; assumption.
  - assert (Hcases : x = 60 \/ x = 62 \/ x = 34 \/ x = 39) by (unfold plain in Hx; lia).
    destruct Hcases as [->|[->|[->| ->]]]; cbv in Hc; intuition lia.
Qed.

End XmlFacts.

(** ** Lists in attribute values *)

Module ArrayFacts.
Import Serializer.

Lemma trim_start_split (s : jsstring) :
  exists pre, s = pre ++ trim_start s /\ forallb is_space pre = true.
Proof.
  induction s as [|c s (pre & E & Hpre)].
  - exists []. split; reflexivity.
  - cbn [trim_start]. destruct (is_space c) eqn:Hc.
    + exists (c :: pre). split; [cbn; f_equal; exact E|].
      cbn. rewrite Hc. exact Hpre.
    + exists []. split; reflexivity.
Qed.

Lemma trim_start_head (s : jsstring) (c : Z) (r : jsstring) :
  trim_start s = c :: r -> is_space c = false.
Proof.
  induction s as [|x s IH]; [discriminate|].
  cbn [trim_start]. destruct (is_space x) eqn:Hx; [exact IH|].
  intros E. injection E as <- _. exact Hx.
Qed.

Lemma trim_start_fixed (s : jsstring) :
  match s with [] => True | c :: _ => is_space c = false end -> trim_start s = s.
Proof. destruct s as [|c s]; [reflexivity|]. cbn. intros ->. reflexivity. Qed.

Lemma trim_start_idem (s : jsstring) : trim_start (trim_start s) = trim_start s.
Proof.
  apply trim_start_fixed. destruct (trim_start s) eqn:E; [exact I|].
  exact (trim_start_head _ _ _ E).
Qed.

Lemma trim_idem (s : jsstring) : trim (trim s) = trim s.
Proof.
  unfold trim. set (t := trim_start s). set (u := trim_start (rev t)).
  assert (A : trim_start (rev u) = rev u).
  { apply trim_start_fixed.
    destruct (rev u) as [|c r] eqn:E; [exact I|].
    destruct (trim_start_split (rev t)) as (pre & Ht & _). fold u in Ht.
    apply (f_equal (@rev Z)) in Ht. rewrite rev_involutive, rev_app_distr, E in Ht.
    cbn [app] in Ht. exact (trim_start_head s c _ Ht). }
  rewrite A, rev_involutive. unfold u. rewrite trim_start_idem. reflexivity.
Qed.

Lemma In_trim_start (c : Z) (s : jsstring) : In c (trim_start s) -> In c s.
Proof.
  destruct (trim_start_split s) as (pre & E & _). intros H.
  rewrite E. apply in_or_app. right. exact H.
Qed.

Lemma In_trim (c : Z) (s : jsstring) : In c (trim s) -> In c s.
Proof.
  unfold trim. intros H. apply in_rev in H. apply In_trim_start in H.
  apply in_rev in H. apply In_trim_start in H. exact H.
Qed.

Lemma nonempty_spec (s : jsstring) : nonempty s = true <-> s <> [].
Proof. destruct s; cbn; split; congruence. Qed.

(** The items that [parseArrayValue] makes of a text with a comma are not
    empty, hold no comma and have no white space at either end. *)
Theorem parseArrayValue_items (s : jsstring) :
  includes s (js ",") = true ->
  Forall (fun item => item <> [] /\ ~ In 44 item /\ trim item = item)
         (parseArrayValue (VStr s)).
Proof.
  intros H. cbn [parseArrayValue]. rewrite H.
  apply Forall_forall. intros item Hitem.
  apply filter_In in Hitem as [Hitem Hne].
  apply in_map_iff in Hitem as (part & <- & Hpart).
  split; [apply nonempty_spec; exact Hne|]. split.
  - intros Hc. apply In_trim in Hc.
    pose proof (split_parts 44 s) as Hs. rewrite Forall_forall in Hs.
    exact (Hs part Hpart Hc).
  - apply trim_idem.
Qed.

Lemma parseArrayValue_items_witness :
  includes (js "chair, table,") (js ",") = true
  /\ Forall (fun item => item <> [] /\ ~ In 44 item /\ trim item = item)
            (parseArrayValue (VStr (js "chair, table,"))).
Proof.
  split; [reflexivity|]. apply (parseArrayValue_items (js "chair, table,")). reflexivity.
Defined.

Lemma split_aux_app (sep : Z) (cur a b : jsstring) :
  ~ In sep a ->
  split_aux sep cur (a ++ sep :: b) = (rev cur ++ a) :: split_aux sep [] b.
Proof.
  revert cur. induction a as [|c a IH]; intros cur Ha.
  - cbn [app split_aux]. rewrite Z.eqb_refl, app_nil_r. reflexivity.
  - cbn [app split_aux]. destruct (Z.eqb_spec c sep) as [->|Hne].
    + exfalso. apply Ha. left. reflexivity.
    + rewrite IH by (intros H; apply Ha; right; exact H).
      cbn [rev]. rewrite <- app_assoc. reflexivity.
Qed.

Lemma join_cons2 (sep a b : jsstring) (rest : list jsstring) :
  join sep (a :: b :: rest) = a ++ sep ++ join sep (b :: rest).
Proof. reflexivity. Qed.

Lemma split_aux_join_comma (rest : list jsstring) : forall (cur a : jsstring),
  Forall (fun item => ~ In 44 item) (a :: rest) ->
  split_aux 44 cur (join (js ", ") (a :: rest))
  = (rev cur ++ a) :: map (fun item => 32 :: item) rest.
Proof.
  induction rest as [|b rest IH]; intros cur a H;
    inversion H as [|? ? Ha Hrest]; subst.
  - cbn [join map]. apply split_aux_no_sep. exact Ha.
  - rewrite join_cons2. change (js ", " ++ ?t) with (44 :: 32 :: t).
    rewrite split_aux_app by exact Ha. f_equal.
    cbn [split_aux]. change (32 =? 44) with false. cbn iota.
    rewrite IH by exact Hrest. reflexivity.
Qed.

Lemma split_join_comma (a : jsstring) (rest : list jsstring) :
  Forall (fun item => ~ In 44 item) (a :: rest) ->
  split 44 (join (js ", ") (a :: rest)) = a :: map (fun item => 32 :: item) rest.
Proof. intros H. unfold split. rewrite split_aux_join_comma by exact H. reflexivity. Qed.

Lemma includes_char (c : Z) (s : jsstring) : includes s [c] = true <-> In c s.
Proof.
  induction s as [|x s IH].
  - cbn. split; [discriminate | intros []].
  - cbn [includes startsWith]. replace (startsWith s []) with true by (destruct s; reflexivity). rewrite andb_true_r.
    rewrite orb_true_iff, IH, Z.eqb_eq. cbn. intuition congruence.
Qed.

Lemma trim_space (item : jsstring) : trim (32 :: item) = trim item.
Proof. reflexivity. Qed.

Lemma array_join_strings (sep : jsstring) (items : list jsstring) :
  array_join sep (map VStr items) = join sep items.
Proof.
  unfold array_join. rewrite map_map. cbn [to_string].
  rewrite map_id. reflexivity.
Qed.

(** A list of texts that [flattenMetadata] has joined with [', '] is given
    back by [parseArrayValue], provided no item is empty, holds a comma or
    has white space at either end. *)
Theorem parseArrayValue_of_joined (items : list jsstring) :
  items <> [] ->
  Forall (fun item => item <> [] /\ ~ In 44 item /\ trim item = item) items ->
  parseArrayValue (VStr (array_join (js ", ") (map VStr items))) = items.
Proof.
  intros Hne H.
  rewrite array_join_strings.
  destruct items as [|a rest]; [congruence|]. clear Hne.
  assert (Hcomma : Forall (fun item => ~ In 44 item) (a :: rest)).
  { eapply Forall_impl; [|exact H]. cbn. intros ? (_ & ? & _). assumption. }
  cbn [parseArrayValue].
  destruct (includes (join (js ", ") (a :: rest)) (js ",")) eqn:E.
  - rewrite split_join_comma by exact Hcomma.
    inversion H as [|? ? (Ha1 & _ & Ha3) Hrest]; subst.
    cbn [map filter]. rewrite Ha3.
    apply nonempty_spec in Ha1. rewrite Ha1. f_equal.
    clear - Hrest. induction Hrest as [|b rest (Hb1 & _ & Hb3) Hrest IH]; [reflexivity|].
    cbn [map filter]. rewrite trim_space, Hb3.
    apply nonempty_spec in Hb1. rewrite Hb1. f_equal. exact IH.
  - destruct rest as [|b rest]; [reflexivity|].
    exfalso. rewrite join_cons2 in E.
    assert (In 44 (a ++ js ", " ++ join (js ", ") (b :: rest))) as Hin.
    { apply in_or_app. right. left. reflexivity. }
    apply (includes_char 44) in Hin. change [44] with (js ",") in Hin. congruence.
Qed.

Lemma parseArrayValue_of_joined_witness :
  parseArrayValue (VStr (array_join (js ", ") (map VStr [js "chair"; js "oak table"])))
  = [js "chair"; js "oak table"].
Proof.
  apply parseArrayValue_of_joined; [discriminate|].
  repeat constructor; try discriminate; cbv; intuition discriminate.
Defined.

End ArrayFacts.

(** ** The request and the field names of the report *)

Module RequestFacts.
Import ReportRequest.

Lemma split_aux_nonempty (sep : Z) (cur s : jsstring) : split_aux sep cur s <> [].
Proof.
  revert cur. induction s as [|c s IH]; intros cur; cbn [split_aux]; [discriminate|].
  destruct (c =? sep); [discriminate | apply IH].
Qed.

Lemma join_cons_more (sep a : jsstring) (l : list jsstring) :
  l <> [] -> join sep (a :: l) = a ++ sep ++ join sep l.
Proof. destruct l; [congruence | reflexivity]. Qed.

Lemma join_split_aux (sep : Z) (cur s : jsstring) :
  join [sep] (split_aux sep cur s) = rev cur ++ s.
Proof.
  revert cur. induction s as [|c s IH]; intros cur; cbn [split_aux].
  - cbn [join]. rewrite app_nil_r. reflexivity.
  - destruct (Z.eqb_spec c sep) as [->|Hne].
    + rewrite join_cons_more by apply split_aux_nonempty. rewrite IH. reflexivity.
    + rewrite IH. cbn [rev]. rewrite <- app_assoc. reflexivity.
Qed.

(** Joining the parts of a split gives the text back. *)
Lemma join_split (sep : Z) (s : jsstring) : join [sep] (split sep s) = s.
Proof. apply join_split_aux. Qed.

Lemma split_aux_last (sep : Z) (cur d f : jsstring) :
  ~ In sep f ->
  split_aux sep cur (d ++ sep :: f) = split_aux sep cur d ++ [f].
Proof.
  intros Hf. revert cur. induction d as [|c d IH]; intros cur; cbn [app split_aux].
  - rewrite Z.eqb_refl. rewrite split_aux_no_sep by exact Hf. reflexivity.
  - destruct (c =? sep); rewrite IH; reflexivity.
Qed.

Lemma split_last (sep : Z) (d f : jsstring) :
  ~ In sep f -> split sep (d ++ sep :: f) = split sep d ++ [f].
Proof. apply split_aux_last. Qed.

Lemma strip_extension_ext (base ext : jsstring) :
  ext <> [] -> Forall (fun c => c <> 47 /\ c <> 46) ext ->
  strip_extension (base ++ 46 :: ext) = base.
Proof.
  intros Hne Hext. induction base as [|c base IH]; cbn [app strip_extension].
  - rewrite Z.eqb_refl. destruct ext as [|e ext]; [congruence|].
    cbn [Serializer.nonempty andb].
    replace (forallb _ (e :: ext)) with true; [reflexivity|].
    symmetry. apply forallb_forall. intros x Hx.
    rewrite Forall_forall in Hext. destruct (Hext x Hx) as [H1 H2].
    destruct (Z.eqb_spec x 47); [contradiction|].
    destruct (Z.eqb_spec x 46); [contradiction|]. reflexivity.
  - replace (forallb _ (base ++ 46 :: ext)) with false.
    + rewrite andb_false_r, IH. reflexivity.
    + symmetry. apply not_true_is_false. intros H.
      rewrite forallb_forall in H. specialize (H 46).
      rewrite in_app_iff in H. cbn in H. specialize (H (or_intror (or_introl eq_refl))).
      discriminate.
Qed.

Lemma strip_extension_none (s : jsstring) :
  ~ In 46 s -> strip_extension s = s.
Proof.
  induction s as [|c s IH]; intros H; [reflexivity|]. cbn [strip_extension].
  destruct (Z.eqb_spec c 46) as [->|_]; [exfalso; apply H; left; reflexivity|].
  cbn [andb]. rewrite IH; [reflexivity|]. intros Hin. apply H. right. exact Hin.
Qed.

(** The default report path: the extension of the file name is replaced by
    [_metadata.txt], or [_metadata.json] for the format [json-only], and the
    directory is kept; a path that is only a slash and a file name loses the
    slash, and a path that ends with a slash gets the file name
    [metadata_metadata]. *)
Theorem generateDefaultOutputPath_of_file
    (directory base ext format : jsstring) :
  ~ In 47 base -> ext <> [] -> Forall (fun c => c <> 47 /\ c <> 46) ext ->
  let suffix := if str_eqb format (js "json-only") then js ".json" else js ".txt" in
  generateDefaultOutputPath (base ++ js "." ++ ext) format
    = base ++ js "_metadata" ++ suffix
  /\ generateDefaultOutputPath (directory ++ js "/" ++ base ++ js "." ++ ext) format
     = (if Serializer.nonempty directory then directory ++ js "/" else [])
       ++ base ++ js "_metadata" ++ suffix
  /\ generateDefaultOutputPath (directory ++ js "/") format
     = (if Serializer.nonempty directory then directory ++ js "/" else [])
       ++ js "metadata_metadata" ++ suffix.
Proof.
  intros Hbase Hne Hext suffix.
  assert (Hfile : ~ In 47 (base ++ 46 :: ext)).
  { intros H. apply in_app_or in H as [H|[H|H]]; [exact (Hbase H) | discriminate |].
    rewrite Forall_forall in Hext. destruct (Hext 47 H) as [E _]. congruence. }
  assert (Hfile' : base ++ 46 :: ext <> []) by (destruct base; discriminate).
  change (js "." ++ ext) with (46 :: ext).
  change (js "/" ++ base ++ 46 :: ext) with (47 :: (base ++ 46 :: ext)).
  change (js "/") with [47].
  split; [|split].
  - unfold generateDefaultOutputPath. rewrite split_no_sep by exact Hfile.
    cbn [last removelast join Serializer.nonempty].
    destruct (base ++ 46 :: ext) eqn:E; [congruence|]. rewrite <- E.
    rewrite strip_extension_ext by assumption. reflexivity.
  - unfold generateDefaultOutputPath. change (js "/") with [47].
    rewrite split_last by exact Hfile.
    rewrite last_last, removelast_last, join_split.
    destruct (base ++ 46 :: ext) eqn:E; [congruence|]. rewrite <- E.
    rewrite strip_extension_ext by assumption.
    destruct directory; cbn [Serializer.nonempty app]; [reflexivity|].
    rewrite <- !app_assoc. reflexivity.
  - unfold generateDefaultOutputPath. change (js "/") with [47].
    rewrite (split_last 47 directory []) by (intros []).
    rewrite last_last, removelast_last, join_split.
    change (strip_extension (js "metadata")) with (js "metadata").
    destruct directory; cbn [Serializer.nonempty app]; [reflexivity|].
    rewrite <- !app_assoc. reflexivity.
Qed.

Lemma generateDefaultOutputPath_of_file_witness :
  generateDefaultOutputPath (js "shots/2024" ++ js "/" ++ js "patio.v2" ++ js "." ++ js "jpg")
                            (js "detailed")
  = js "shots/2024/patio.v2_metadata.txt".
Proof.
  pose proof (generateDefaultOutputPath_of_file (js "shots/2024") (js "patio.v2")
                (js "jpg") (js "detailed")) as H.
  cbv zeta in H. destruct H as (_ & H & _).
  - cbv. intuition discriminate.
  - discriminate.
  - repeat constructor; discriminate.
  - exact H.
Defined.

Lemma some_extension_string (p : jsstring) (extensions : list jsstring) :
  some_extension (VStr p) extensions
  = Return (existsb (fun ext => endsWith (toLowerCase p) ext) extensions).
Proof.
  induction extensions as [|ext rest IH]; [reflexivity|].
  cbn [some_extension call_toLowerCase ebind eret existsb].
  destruct (endsWith (toLowerCase p) ext); [reflexivity | exact IH].
Qed.

Lemma app_not_nil {A} (l : list A) (x : A) : l ++ [x] <> [].
Proof. destruct l; discriminate. Qed.

Lemma nil_if {A} (c : bool) (l : list A) (x : A) :
  (if c then l ++ [x] else l) = [] <-> l = [] /\ c = false.
Proof.
  destruct c; split.
  - intros H. destruct (app_not_nil _ _ H).
  - intros [_ H]. discriminate.
  - intros H. split; [exact H | reflexivity].
  - intros [H _]. exact H.
Qed.

Lemma is_nil_match {A} (l : list A) :
  match l with [] => true | _ => false end = true <-> l = [].
Proof. destruct l; split; congruence. Qed.

(** The requests that [validateInput] accepts.  A request whose [image_path]
    is a text never makes it throw, and is valid exactly when the path ends,
    whatever the case of its letters, with one of the four extensions, the
    format is one of the three formats, and the optional parameters that are
    present have their types.  An [image_path] that is neither empty nor a
    text makes it throw, the error list being lost; an empty one is
    refused. *)
Theorem validateInput_accepts (params : value) :
  params <> VNull -> params <> VUndefined ->
  let image_path := get_prop params (js "image_path") in
  let format := get_prop params (js "format") in
  let output_path := get_prop params (js "output_path") in
  let include_processing_info := get_prop params (js "include_processing_info") in
  let include_raw_json := get_prop params (js "include_raw_json") in
  (forall p, image_path = VStr p ->
     exists r, validateInput params = Return r
       /\ (valid r = true <->
           existsb (fun ext => endsWith (toLowerCase p) ext) validExtensions = true
           /\ is_format format = true
           /\ (truthy output_path = true -> is_string output_path = true)
           /\ (is_undefined include_processing_info = false ->
               is_boolean include_processing_info = true)
           /\ (is_undefined include_raw_json = false ->
               is_boolean include_raw_json = true)))
  /\ (truthy image_path = true -> is_string image_path = false ->
      exists message, validateInput params = Throw message)
  /\ (truthy image_path = false ->
      exists r, validateInput params = Return r /\ valid r = false).
Proof.
  intros Hnull Hundef image_path format output_path ipi irj.
  assert (Hbody : validateInput params =
    let errors1 :=
      if negb (truthy image_path) || negb (is_string image_path)
      then [js "image_path is required and must be a string"] else [] in
    let errors2 :=
      if negb (truthy format) || negb (is_format format)
      then errors1 ++ [js "format must be one of: detailed, simple, json-only"]
      else errors1 in
    let errors3 :=
      if truthy output_path && negb (is_string output_path)
      then errors2 ++ [js "output_path must be a string if provided"]
      else errors2 in
    let errors4 :=
      if negb (is_undefined ipi) && negb (is_boolean ipi)
      then errors3 ++ [js "include_processing_info must be a boolean if provided"]
      else errors3 in
    let errors5 :=
      if negb (is_undefined irj) && negb (is_boolean irj)
      then errors4 ++ [js "include_raw_json must be a boolean if provided"]
      else errors4 in
    let* errors6 :=
      if truthy image_path then
        let* hasValidExtension := some_extension image_path validExtensions in
        if hasValidExtension then eret errors5
        else eret (errors5 ++
          [js "image_path must have a valid image extension (.jpg, .jpeg, .png, .tiff)"])
      else eret errors5 in
    eret {| valid := match errors6 with [] => true | _ => false end;
            errors := errors6 |}).
  { destruct params; try reflexivity; congruence. }
  rewrite Hbody. clear Hbody. cbv zeta.
  set (errors5 :=
    if negb (is_undefined irj) && negb (is_boolean irj) then _ else _).
  assert (H5 : errors5 = [] <->
               (negb (truthy image_path) || negb (is_string image_path) = false)
               /\ (negb (truthy format) || negb (is_format format) = false)
               /\ (truthy output_path && negb (is_string output_path) = false)
               /\ (negb (is_undefined ipi) && negb (is_boolean ipi) = false)
               /\ (negb (is_undefined irj) && negb (is_boolean irj) = false)).
  { subst errors5. rewrite !nil_if.
    destruct (negb (truthy image_path) || negb (is_string image_path));
      intuition congruence. }
  split; [|split].
  - intros p Hp. rewrite Hp in *. cbn [is_string negb orb] in *.
    rewrite some_extension_string. cbn [ebind eret].
    assert (Hfmt : truthy format = false -> is_format format = false).
    { destruct format as [| | | | |[|]| |]; cbn; congruence. }
    assert (Hpath : existsb (fun ext => endsWith (toLowerCase p) ext) validExtensions = true
                    -> truthy (VStr p) = true).
    { destruct p; [intros H; cbv in H; discriminate | reflexivity]. }
    destruct (truthy (VStr p)) eqn:Htp; cbn [ebind eret].
    + destruct (existsb (fun ext => endsWith (toLowerCase p) ext) validExtensions);
        eexists; (split; [reflexivity|]); cbn [valid]; rewrite is_nil_match.
      * rewrite H5.
        assert (E2 : negb (truthy format) || negb (is_format format) = false
                     <-> is_format format = true).
        { destruct (truthy format), (is_format format); cbn;
            intuition congruence. }
        assert (E3 : truthy output_path && negb (is_string output_path) = false
                     <-> (truthy output_path = true -> is_string output_path = true)).
        { destruct (truthy output_path), (is_string output_path); cbn;
            intuition congruence. }
        assert (E4 : negb (is_undefined ipi) && negb (is_boolean ipi) = false
                     <-> (is_undefined ipi = false -> is_boolean ipi = true)).
        { destruct (is_undefined ipi), (is_boolean ipi); cbn; intuition congruence. }
        assert (E5 : negb (is_undefined irj) && negb (is_boolean irj) = false
                     <-> (is_undefined irj = false -> is_boolean irj = true)).
        { destruct (is_undefined irj), (is_boolean irj); cbn; intuition congruence. }
        rewrite E2, E3, E4, E5. cbn [negb orb]. tauto.
      * split; [intros H; destruct (app_not_nil _ _ H) | intros (H & _); discriminate].
    + eexists. split; [reflexivity|]. cbn [valid]. rewrite is_nil_match, H5.
      cbn [negb orb]. split; [intros (H & _); discriminate|].
      intros (H & _). specialize (Hpath H). discriminate.
  - intros Ht Hs. rewrite Ht.
    destruct image_path; cbn in Hs; try discriminate; cbn [some_extension validExtensions];
      cbn; eexists; reflexivity.
  - intros Ht. rewrite Ht. cbn [ebind eret].
    eexists. split; [reflexivity|]. cbn [valid].
    apply not_true_is_false. rewrite is_nil_match, H5, Ht. cbn. intuition discriminate.
Qed.

Lemma validateInput_accepts_witness :
  let params := VObj [ (js "image_path", VStr (js "shots/Patio.JPG"));
                       (js "format", VStr (js "simple")) ] in
  exists r, validateInput params = Return r /\ valid r = true.
Proof.
  intros params.
  destruct (validateInput_accepts params ltac:(discriminate) ltac:(discriminate))
    as (H & _).
  destruct (H (js "shots/Patio.JPG") eq_refl) as (r & Hr & Hv).
  exists r. split; [exact Hr|]. apply Hv.
  repeat split; try reflexivity; discriminate.
Defined.

End RequestFacts.

Module FieldFacts.
Import Canonicalizer Layout ReportFields.

Lemma is_lower_alnum_lower (c : Z) : is_lower_alnum c = true -> lower_cu c = c.
Proof.
  unfold is_lower_alnum, is_lower, Json.is_digit, lower_cu, is_upper. intros H.
  destruct (Z.leb_spec 65 c), (Z.leb_spec c 90); cbn [andb]; try reflexivity.
  exfalso.
  destruct (Z.leb_spec 97 c), (Z.leb_spec c 122), (Z.leb_spec 48 c), (Z.leb_spec c 57);
    cbn in H; try discriminate; lia.
Qed.

Lemma strip_schema_prefix_none (names : list jsstring) (s : jsstring) :
  ~ In underscore s -> strip_schema_prefix names s = s.
Proof.
  intros H. induction names as [|n names IH]; [reflexivity|].
  cbn [strip_schema_prefix].
  destruct (startsWith s (n ++ [underscore])) eqn:E; [|exact IH].
  exfalso. apply H. apply (startsWith_In s (n ++ [underscore])); [|exact E].
  apply in_or_app. right. left. reflexivity.
Qed.

Lemma filter_idem {A} (f : A -> bool) (l : list A) : filter f (filter f l) = filter f l.
Proof.
  induction l as [|x l IH]; [reflexivity|]. cbn [filter].
  destruct (f x) eqn:E; [|exact IH]. cbn [filter]. rewrite E, IH. reflexivity.
Qed.

Lemma lower_upper (c : Z) : lower_cu (upper_cu c) = lower_cu c.
Proof.
  unfold lower_cu, upper_cu, is_upper, is_lower.
  destruct (Z.leb_spec 97 c), (Z.leb_spec c 122); cbn [andb];
    destruct (Z.leb_spec 65 c), (Z.leb_spec c 90); cbn [andb]; try lia;
    try reflexivity;
    destruct (Z.leb_spec 65 (c - 32)), (Z.leb_spec (c - 32) 90); cbn [andb]; lia.
Qed.

(** The key used to tell duplicate fields apart is made of the characters
    [a-z0-9] only, does not change when it is normalized again, and does not
    depend on the case of the letters of the field name. *)
Theorem normalizeFieldKey_stable (key : jsstring) :
  ascii_text key ->
  Forall (fun c => 97 <= c <= 122 \/ 48 <= c <= 57) (normalizeFieldKey key)
  /\ normalizeFieldKey (normalizeFieldKey key) = normalizeFieldKey key
  /\ normalizeFieldKey (toUpperCase key) = normalizeFieldKey key
  /\ normalizeFieldKey (toLowerCase key) = normalizeFieldKey key.
Proof.
  intros _.
  assert (Hall : Forall (fun c => is_lower_alnum c = true) (normalizeFieldKey key)).
  { apply Forall_forall. intros c Hc. apply filter_In in Hc as [_ Hc]. exact Hc. }
  split; [|split; [|split]].
  - eapply Forall_impl; [|exact Hall]. cbn. intros c Hc.
    unfold is_lower_alnum, is_lower, Json.is_digit in Hc.
    apply orb_true_iff in Hc as [Hc|Hc]; apply andb_true_iff in Hc as [H1 H2];
      apply Z.leb_le in H1, H2; lia.
  - set (r := normalizeFieldKey key) in *. unfold normalizeFieldKey at 1.
    assert (Hlow : toLowerCase r = r).
    { unfold toLowerCase. clearbody r. induction Hall as [|c r Hc _ IH]; [reflexivity|].
      cbn [map]. rewrite IH, is_lower_alnum_lower by exact Hc. reflexivity. }
    rewrite Hlow. rewrite strip_schema_prefix_none.
    + unfold r, normalizeFieldKey. apply filter_idem.
    + intros Hin. rewrite Forall_forall in Hall. specialize (Hall _ Hin).
      discriminate.
  - unfold normalizeFieldKey. f_equal. f_equal.
    unfold toLowerCase, toUpperCase. rewrite map_map. apply map_ext. apply lower_upper.
  - unfold normalizeFieldKey. f_equal. f_equal.
    unfold toLowerCase. rewrite map_map. apply map_ext. apply CanonicalizerFacts.lower_cu_idem.
Qed.

Lemma normalizeFieldKey_stable_witness :
  ascii_text (js "Lifestyle_Scene Overview")
  /\ normalizeFieldKey (js "Lifestyle_Scene Overview") = js "sceneoverview"
  /\ normalizeFieldKey (normalizeFieldKey (js "Lifestyle_Scene Overview"))
     = normalizeFieldKey (js "Lifestyle_Scene Overview").
Proof.
  assert (H : ascii_text (js "Lifestyle_Scene Overview")).
  { repeat constructor; cbv; discriminate. }
  split; [exact H|]. split; [reflexivity|].
  exact (proj1 (proj2 (normalizeFieldKey_stable _ H))).
Defined.

Lemma assoc_special (k fixed : jsstring) :
  assoc k specialCases = Some fixed ->
  fixed = js "food_and_beverage"
  /\ (k = js "food_beverage" \/ k = js "and_beverage" \/ k = js "beverage").
Proof.
  cbn [assoc specialCases].
  destruct (str_eqb (js "food_beverage") k) eqn:E1.
  { apply str_eqb_eq in E1. intros [= <-]. auto. }
  destruct (str_eqb (js "and_beverage") k) eqn:E2.
  { apply str_eqb_eq in E2. intros [= <-]. auto. }
  destruct (str_eqb (js "beverage") k) eqn:E3; [|discriminate].
  apply str_eqb_eq in E3. intros [= <-]. auto.
Qed.

(** The report tool and the processor give a field the same display name,
    with three exceptions.  A key whose cleaned form is [food_beverage] or
    [beverage] is shown as [And Beverage] by the report tool, as is a key
    whose cleaned form is [and_beverage] or [food_and_beverage] by both; and
    the report tool throws on a key whose cleaned form names a member of
    [Object.prototype]. *)
Theorem report_beautifyFieldName (key : jsstring) :
  let cleanKey :=
    strip_section_prefix sectionPrefixes (strip_schema_prefix schemaNames key) in
  (In cleanKey [js "food_beverage"; js "and_beverage"; js "beverage";
                js "food_and_beverage"] ->
   beautifyFieldName key = Return (js "And Beverage"))
  /\ (In cleanKey objectPrototypeNames ->
      exists message, beautifyFieldName key = Throw message)
  /\ (cleanKey <> js "food_beverage" -> cleanKey <> js "beverage" ->
      ~ In cleanKey objectPrototypeNames ->
      beautifyFieldName key = Return (Canonicalizer.beautifyFieldName key)).
Proof.
  intros cleanKey. unfold beautifyFieldName. fold cleanKey.
  split; [|split].
  - intros [<-|[<-|[<-|[<-|[]]]]]; reflexivity.
  - intros H. repeat (destruct H as [<-|H]; [eexists; reflexivity|]). destruct H.
  - intros H1 H2 H3.
    destruct (assoc cleanKey specialCases) as [fixed|] eqn:E.
    + apply assoc_special in E as [-> [E|[E|E]]]; try congruence.
      unfold Canonicalizer.beautifyFieldName. fold cleanKey. rewrite E. reflexivity.
    + destruct (existsb (str_eqb cleanKey) objectPrototypeNames) eqn:E'.
      * exfalso. apply H3. apply existsb_exists in E' as (x & Hx & Hx').
        apply str_eqb_eq in Hx'. rewrite Hx'. exact Hx.
      * unfold Canonicalizer.beautifyFieldName. fold cleanKey. cbn [ebind eret].
        destruct (length (split underscore cleanKey) <=? 1)%nat; reflexivity.
Qed.

Lemma report_beautifyFieldName_witness :
  beautifyFieldName (js "lifestyle_key_objects_food_beverage") = Return (js "And Beverage")
  /\ Canonicalizer.beautifyFieldName (js "lifestyle_key_objects_food_beverage")
     = js "Food Beverage"
  /\ (exists message, beautifyFieldName (js "product_constructor") = Throw message)
  /\ beautifyFieldName (js "lifestyle_scene_overview_time_of_day")
     = Return (js "Time Of Day").
Proof.
  split; [|split; [|split]].
  - apply (report_beautifyFieldName (js "lifestyle_key_objects_food_beverage")).
    left. reflexivity.
  - reflexivity.
  - apply (report_beautifyFieldName (js "product_constructor")). left. reflexivity.
  - rewrite (proj2 (proj2 (report_beautifyFieldName
                             (js "lifestyle_scene_overview_time_of_day"))));
      [reflexivity | discriminate | discriminate |].
    cbv. intuition discriminate.
Defined.

Lemma emap_Forall2 {A B} (f : A -> Exc B) (l : list A) (ys : list B) :
  emap f l = Return ys -> Forall2 (fun x y => f x = Return y) l ys.
Proof.
  revert ys. induction l as [|x l IH]; intros ys; cbn [emap].
  - intros [= <-]. constructor.
  - destruct (f x) as [y|e] eqn:Ex; cbn [ebind]; [|discriminate].
    destruct (emap f l) as [ys'|e] eqn:El; cbn [ebind eret]; [|discriminate].
    intros [= <-]. constructor; [exact Ex | apply IH; reflexivity].
Qed.

Lemma max_length_fold (names : list jsstring) : forall acc : option Z,
  let r := fold_left (fun acc name =>
                        Some (match acc with
                              | None => len name
                              | Some m => Z.max m (len name)
                              end)) names acc in
  (forall a, acc = Some a -> exists m, r = Some m /\ a <= m)
  /\ (forall n, In n names -> exists m, r = Some m /\ len n <= m)
  /\ (r = acc \/ exists n, In n names /\ r = Some (len n)).
Proof.
  induction names as [|x names IH]; intros acc; cbn [fold_left].
  - split; [|split].
    + intros a ->. exists a. split; [reflexivity | lia].
    + intros n [].
    + left. reflexivity.
  - specialize (IH (Some (match acc with None => len x | Some m => Z.max m (len x) end))).
    cbv zeta in IH. destruct IH as (IH1 & IH2 & IH3).
    split; [|split].
    + intros a ->. destruct (IH1 _ eq_refl) as (m & Hm & Hle).
      exists m. split; [exact Hm | lia].
    + intros n [<-|Hn]; [|exact (IH2 n Hn)].
      destruct (IH1 _ eq_refl) as (m & Hm & Hle). exists m. split; [exact Hm|].
      destruct acc; lia.
    + destruct IH3 as [IH3|(n & Hn & IH3)].
      * rewrite IH3. destruct acc as [a|].
        -- destruct (Z.max_spec a (len x)) as [[_ E]|[_ E]]; rewrite E.
           ++ right. exists x. split; [left; reflexivity | reflexivity].
           ++ left. reflexivity.
        -- right. exists x. split; [left; reflexivity | reflexivity].
      * right. exists n. split; [right; exact Hn | exact IH3].
Qed.

Lemma paddingWidthOf_spec (names : list jsstring) :
  25 <= paddingWidthOf names
  /\ (forall n, In n names -> len n < paddingWidthOf names)
  /\ (paddingWidthOf names = 25
      \/ exists n, In n names /\ paddingWidthOf names = len n + 1).
Proof.
  unfold paddingWidthOf, max_length.
  destruct (max_length_fold names None) as (_ & H2 & H3). cbv zeta in *.
  set (r := fold_left _ names None) in *.
  split; [|split].
  - destruct r; lia.
  - intros n Hn. destruct (H2 n Hn) as (m & -> & Hle). lia.
  - destruct H3 as [->|(n & Hn & ->)]; [left; reflexivity|].
    destruct (Z.max_spec (len n + 1) 25) as [[_ E]|[_ E]]; rewrite E.
    + left. reflexivity.
    + right. exists n. split; [exact Hn | reflexivity].
Qed.

Lemma Forall2_map_l {A B C} (f : A -> B) (R : B -> C -> Prop) (l : list A) (l' : list C) :
  Forall2 R (map f l) l' <-> Forall2 (fun x y => R (f x) y) l l'.
Proof.
  revert l'. induction l as [|x l IH]; intros l'; cbn [map]; split; intros H;
    inversion H; subst; constructor; try assumption; apply IH; assumption.
Qed.

(** The lines of the fields of one object have their colon in one column:
    every line is the display name, then spaces up to a width that is the
    same for all of them, then a colon, a space and the formatted value.
    The width is 25, or one more than the length of the longest name when
    that is more. *)
Lemma field_lines_aligned (fields : list (jsstring * value)) (lines : list jsstring) :
  field_lines fields = Return lines ->
  exists w,
    25 <= w
    /\ (w = 25 \/ exists kv name, In kv fields /\ beautifyFieldName (fst kv) = Return name
                                  /\ w = len name + 1)
    /\ Forall2 (fun kv line =>
                  exists name,
                    beautifyFieldName (fst kv) = Return name
                    /\ len name < w
                    /\ line = name ++ repeat 32 (Z.to_nat (w - len name)) ++ js ": "
                                   ++ formatFieldValue (snd kv))
               fields lines.
Proof.
  unfold field_lines.
  destruct (emap beautifyFieldName (map fst fields)) as [names|e] eqn:En;
    cbn [ebind]; [|discriminate].
  intros Hl. apply emap_Forall2 in En, Hl. apply Forall2_map_l in En.
  destruct (paddingWidthOf_spec names) as (H25 & Hlt & Hw).
  set (w := paddingWidthOf names) in *. exists w.
  split; [exact H25|]. split.
  - destruct Hw as [Hw|(n & Hn & Hw)]; [left; exact Hw | right].
    clearbody w. clear - En Hn Hw. revert Hn.
    induction En as [|kv name fields names Hk _ IH]; intros Hn.
    + destruct Hn.
    + destruct Hn as [->|Hn].
      * exists kv, n. split; [left; reflexivity | split; assumption].
      * destruct (IH Hn) as (kv' & name' & Hin & Hb & Hw').
        exists kv', name'. split; [right; exact Hin | split; assumption].
  - clear Hw H25. clearbody w. revert lines Hl Hlt.
    induction En as [|kv name fields names Hk _ IH]; intros lines Hl Hlt;
      inversion Hl as [|? line ? lines' Hline Hrest]; subst; constructor.
    + rewrite Hk in Hline. cbn [ebind eret] in Hline. injection Hline as <-.
      exists name. split; [exact Hk|].
      assert (Hn : len name < w) by (apply Hlt; left; reflexivity).
      split; [exact Hn|]. unfold field_line.
      replace (Z.max 1 (w - len name)) with (w - len name) by lia. reflexivity.
    + apply IH; [exact Hrest|]. intros n Hn. apply Hlt. right. exact Hn.
Qed.

Lemma sections_blocks (cats : list (Report.CategoryDefinition * list (jsstring * value)))
    (lines : list jsstring) :
  sections cats = Return lines ->
  exists blocks, lines = concat blocks
                 /\ Forall2 (fun c block => category_lines c = Return block) cats blocks.
Proof.
  revert lines. induction cats as [|c cats IH]; intros lines; cbn [sections].
  - intros [= <-]. exists []. split; [reflexivity | constructor].
  - destruct (category_lines c) as [block|e] eqn:Ec; cbn [ebind]; [|discriminate].
    destruct (sections cats) as [more|e] eqn:Es; cbn [ebind eret]; [|discriminate].
    intros [= <-]. destruct (IH more eq_refl) as (blocks & -> & Hb).
    exists (block :: blocks). split; [reflexivity | constructor; assumption].
Qed.

(** The report text made by [formatMetadataFields] with categories: for
    every category of the organizer, in order, a header with the name of the
    category in capitals, a rule of 65 dashes, and one line for every field
    of the category; within a category the colons are in one column, which
    is 25 or one more than the length of the longest display name. *)
Theorem formatMetadataFields_aligned
    (metadata : value) (schemaType text : jsstring) :
  formatMetadataFields metadata true schemaType = Return text ->
  exists organized blocks,
    Report.organizeMetadataByCategories metadata schemaType = Return organized
    /\ text = join Serializer.nl (concat blocks)
    /\ Forall2
         (fun c block =>
            match snd c with
            | [] => block = []
            | _ =>
                exists w lines,
                  block = (Serializer.nl ++ Report.emoji (fst c) ++ js " "
                             ++ toUpperCase (Report.name (fst c)))
                          :: repeat 45 65 :: lines
                  /\ 25 <= w
                  /\ (w = 25 \/
                      exists kv name, In kv (snd c)
                        /\ beautifyFieldName (fst kv) = Return name
                        /\ w = len name + 1)
                  /\ Forall2
                       (fun kv line =>
                          exists name,
                            beautifyFieldName (fst kv) = Return name
                            /\ len name < w
                            /\ line = name ++ repeat 32 (Z.to_nat (w - len name))
                                           ++ js ": " ++ formatFieldValue (snd kv))
                       (snd c) lines
            end)
         (Report.categories organized)
         blocks.
Proof.
  unfold formatMetadataFields. cbn [negb].
  destruct (Report.organizeMetadataByCategories metadata schemaType)
    as [organized|e]; cbn [ebind]; [|discriminate].
  destruct (sections _) as [lines|e] eqn:Es; cbn [ebind eret]; [|discriminate].
  intros [= <-]. apply sections_blocks in Es as (blocks & -> & Hb).
  exists organized, blocks. split; [reflexivity|]. split; [reflexivity|].
  eapply Forall2_impl; [|exact Hb]. cbn beta. intros c block Hc.
  unfold category_lines in Hc. destruct (snd c) as [|kv fields] eqn:Ef.
  - injection Hc as <-. reflexivity.
  - destruct (field_lines (kv :: fields)) as [lines|e] eqn:El; cbn [ebind eret] in Hc;
      [|discriminate].
    injection Hc as <-. apply field_lines_aligned in El as (w & H1 & H2 & H3).
    exists w, lines. repeat split; assumption.
Qed.

Lemma formatMetadataFields_aligned_witness :
  let metadata := VObj [ (js "scene_overview_setting", VStr (js "Outdoor patio"));
                         (js "zzqx", VStr (js "unclassified")) ] in
  exists text blocks,
    formatMetadataFields metadata true (js "lifestyle") = Return text
    /\ text = join Serializer.nl (concat blocks)
    /\ length blocks = 2%nat.
Proof.
  intros metadata.
  assert (H : exists text,
            formatMetadataFields metadata true (js "lifestyle") = Return text).
  { vm_compute. eexists. reflexivity. }
  destruct H as (text & E).
  destruct (formatMetadataFields_aligned metadata (js "lifestyle") text E)
    as (organized & blocks & Ho & Ht & Hb).
  exists text, blocks. split; [exact E|]. split; [exact Ht|].
  apply Forall2_length in Hb. etransitivity; [symmetry; exact Hb|].
  vm_compute in Ho. injection Ho as <-. reflexivity.
Defined.

End FieldFacts.

(** ** Flattened keys *)

Module FlattenFacts.
Import Serializer ReportFields Shapes.

(** Induction on values, through the lists of items and of properties. *)
Lemma value_induction (P : value -> Prop) :
  P VUndefined -> P VNull -> (forall b, P (VBool b)) -> (forall n, P (VNum n)) ->
  (forall m e, P (VDec m e)) -> (forall s, P (VStr s)) ->
  (forall items, Forall P items -> P (VArr items)) ->
  (forall props, Forall (fun kv => P (snd kv)) props -> P (VObj props)) ->
  forall v, P v.
Proof.
  intros Hu Hn Hb Hnum Hd Hs Ha Ho.
  fix IH 1. intros [ | | b | n | m e | s | items | props].
  - exact Hu.
  - exact Hn.
  - apply Hb.
  - apply Hnum.
  - apply Hd.
  - apply Hs.
  - apply Ha. induction items as [|x items IHitems]; constructor;
      [apply IH | exact IHitems].
  - apply Ho. induction props as [|[k x] props IHprops]; constructor;
      [apply IH | exact IHprops].
Qed.

Lemma fullKeyOf_prefixed (prefix key : jsstring) :
  prefix <> [] -> fullKeyOf prefix key = prefix ++ js "_" ++ key.
Proof. destruct prefix; [congruence | reflexivity]. Qed.

Lemma startsWith_app (s p : jsstring) : startsWith (p ++ s) p = true.
Proof. apply startsWith_spec. exists s. reflexivity. Qed.

Lemma startsWith_trans (s p q : jsstring) :
  startsWith s (p ++ q) = true -> startsWith s p = true.
Proof.
  intros H. apply startsWith_spec in H as [r ->]. rewrite <- app_assoc.
  apply startsWith_app.
Qed.

Lemma record_set_begin (prefix k v : jsstring) (r : record) :
  startsWith k (prefix ++ js "_") = true -> keys_begin prefix r ->
  keys_begin prefix (record_set k v r).
Proof.
  intros Hk. induction 1 as [|[k' v'] r Hk' Hr IH]; cbn [record_set].
  - constructor; [exact Hk | constructor].
  - destruct (str_eqb k' k); constructor; assumption.
Qed.

Lemma record_assign_begin (prefix : jsstring) (source target : record) :
  keys_begin prefix source -> keys_begin prefix target ->
  keys_begin prefix (record_assign target source).
Proof.
  unfold record_assign. intros Hs. revert target.
  induction Hs as [|[k v] source Hk Hs IH]; intros target Ht; cbn [fold_left].
  - exact Ht.
  - apply IH. apply record_set_begin; assumption.
Qed.

Lemma flatten_fold_begin (entries : list (jsstring * value)) :
  Forall (fun kv => forall prefix, prefix <> [] ->
                    keys_begin prefix (flatten_object (snd kv) prefix)) entries ->
  forall prefix acc, prefix <> [] -> keys_begin prefix acc ->
    keys_begin prefix (fold_left (flatten_step flatten_object prefix) entries acc).
Proof.
  induction 1 as [|[k v] entries Hv _ IH]; intros prefix acc Hp Hacc; cbn [fold_left].
  - exact Hacc.
  - apply IH; [exact Hp|]. unfold flatten_step. cbn [fst snd] in *.
    rewrite fullKeyOf_prefixed by exact Hp.
    assert (Hfull : startsWith (prefix ++ js "_" ++ k) (prefix ++ js "_") = true).
    { rewrite app_assoc. apply startsWith_app. }
    destruct v; try exact Hacc; try (apply record_set_begin; assumption).
    apply record_assign_begin; [|exact Hacc].
    assert (Hne : prefix ++ js "_" ++ k <> []) by (destruct prefix; [congruence | discriminate]).
    specialize (Hv _ Hne). unfold keys_begin in *.
    eapply Forall_impl; [|exact Hv]. cbn beta. intros kv Hkv.
    apply startsWith_trans with (q := k ++ js "_").
    rewrite <- !app_assoc in *. cbn [app] in *.
    replace (prefix ++ 95 :: k ++ [95]) with ((prefix ++ 95 :: k) ++ [95])
      by (rewrite <- app_assoc; reflexivity).
    exact Hkv.
Qed.

Lemma flatten_object_begin (v : value) :
  forall prefix, prefix <> [] -> keys_begin prefix (flatten_object v prefix).
Proof.
  induction v as [ | | | | | | items _ | props IH] using value_induction;
    intros prefix Hp; try (constructor; fail).
  cbn [flatten_object]. apply flatten_fold_begin; [exact IH | exact Hp | constructor].
Qed.

Lemma indexed_from_values {A} (P : A -> Prop) (l : list A) :
  Forall P l -> forall i, Forall (fun kv => P (snd kv)) (indexed_from i l).
Proof. induction 1; intros i; constructor; auto. Qed.



End FlattenFacts.

(** ** Packets and their validation *)

Module PacketFacts.
Import Serializer PacketCheck.

Lemma includes_app_l (a b p : jsstring) :
  includes a p = true -> includes (a ++ b) p = true.
Proof.
  intros H. apply includes_spec in H as (x & y & ->). apply includes_spec.
  exists x, (y ++ b). rewrite <- !app_assoc. reflexivity.
Qed.

Lemma includes_app_r (a b p : jsstring) :
  includes b p = true -> includes (a ++ b) p = true.
Proof.
  intros H. apply includes_spec in H as (x & y & ->). apply includes_spec.
  exists (a ++ x), y. rewrite <- !app_assoc. reflexivity.
Qed.

Lemma includes_join (sep : jsstring) (parts : list jsstring) (x p : jsstring) :
  In x parts -> includes x p = true -> includes (join sep parts) p = true.
Proof.
  intros Hin Hx. induction parts as [|y parts IH]; [destruct Hin|].
  destruct parts as [|z parts].
  - destruct Hin as [->|[]]. exact Hx.
  - change (join sep (y :: z :: parts)) with (y ++ sep ++ join sep (z :: parts)).
    destruct Hin as [->|Hin].
    + apply includes_app_l. exact Hx.
    + apply includes_app_r, includes_app_r. apply IH. exact Hin.
Qed.

Section WithClock.
Variable now : nat -> jsstring.

Lemma description_block_includes (prefix namespace fields : jsstring) :
  includes (description_block prefix namespace fields) (js "<rdf:Description") = true
  /\ includes (description_block prefix namespace fields)
              (js "xmlns:" ++ prefix ++ js "=") = true.
Proof.
  unfold description_block. split.
  - apply includes_spec. exists (js "        "). eexists. reflexivity.
  - apply includes_spec.
    exists (js "        <rdf:Description rdf:about=" ++ dq ++ dq ++ nl ++ js "          ").
    eexists. rewrite <- !app_assoc. reflexivity.
Qed.

Lemma generateXMPContent_blocks (flattened : record) (schemaType : SchemaType)
    (processingInfo : record) (original : value) (content : jsstring) :
  generateXMPContent now flattened schemaType processingInfo original = Return content ->
  exists before after,
    content = join (nl ++ nl)
                (before ++ [generateXMPCoreBlock (mapToXMPCore now 1)] ++ after).
Proof.
  unfold generateXMPContent.
  destruct (mapToDublinCore _) as [dcFields|e]; cbn [ebind]; [|discriminate].
  destruct (mapToIPTC _) as [iptcFields|e]; cbn [ebind]; [|discriminate].
  destruct (generateCustomORBITBlock _ _ _ _) as [custom|e]; cbn [ebind eret];
    [|discriminate].
  intros [= <-].
  match goal with
  | |- context [join _ (?b1 ++ ?b2 ++ _ :: ?rest)] => exists (b1 ++ b2), rest
  end.
  rewrite <- app_assoc. reflexivity.
Qed.

Lemma wrapXMPContent_shape (content : jsstring) (pretty : bool) :
  exists h f,
    wrapXMPContent content pretty = h ++ content ++ f
    /\ includes h (js "<x:xmpmeta") = true
    /\ includes h (js "<rdf:RDF") = true.
Proof.
  exists (js "<?xpacket begin=" ++ dq ++ [0xFEFF] ++ dq ++ js " id=" ++ dq ++
          js "W5M0MpCehiHzreSzNTczkc9d" ++ dq ++ js "?>" ++ nl ++
          js "    <x:xmpmeta xmlns:x=" ++ dq ++ js "adobe:ns:meta/" ++ dq ++
          js " x:xmptk=" ++ dq ++ js "ORBIT Metadata MCP v2.1" ++ dq ++ js ">" ++ nl ++
          js "      <rdf:RDF xmlns:rdf=" ++ dq ++
          js "http://www.w3.org/1999/02/22-rdf-syntax-ns#" ++ dq ++ js ">" ++
          (if pretty then nl ++ js "      " else [])).
  exists ((if pretty then nl ++ js "    " else []) ++ nl ++
          js "      </rdf:RDF>" ++ nl ++
          js "    </x:xmpmeta>" ++ nl ++
          js "    <?xpacket end=" ++ dq ++ js "w" ++ dq ++ js "?>").
  split; [|split].
  - unfold wrapXMPContent. rewrite <- !app_assoc. reflexivity.
  - destruct pretty; vm_compute; reflexivity.
  - destruct pretty; vm_compute; reflexivity.
Qed.

(** A packet made by [createXMPPacket] with its wrappers passes
    [validateXMPPacket]: no error is reported, and the warning about the
    missing namespaces is not given. *)
Theorem created_packet_is_valid
    (metadata : value) (schemaType : SchemaType) (opts : options)
    (info : XMPPacketInfo) :
  createXMPPacket now metadata schemaType opts = Return info ->
  includeWrappers opts = true ->
  let v := validateXMPPacket (xmp_content info) in
  valid v = true /\ errors v = []
  /\ ~ In (js "No custom ORBIT namespaces detected") (warnings v).
Proof.
  unfold createXMPPacket. intros H Hw.
  destruct (flattenMetadata _ _) as [flattened|e]; cbn [ebind] in H; [|discriminate].
  destruct (generateXMPContent _ _ _ _ _) as [content|e] eqn:Ec; cbn [ebind eret] in H;
    [|discriminate].
  injection H as <-. cbn [xmp_content]. rewrite Hw.
  apply generateXMPContent_blocks in Ec as (before & after & ->).
  set (core := generateXMPCoreBlock (mapToXMPCore now 1)).
  set (content := join (nl ++ nl) (before ++ [core] ++ after)).
  assert (Hcore : forall p, includes core p = true -> includes content p = true).
  { intros p Hp. apply (includes_join _ _ core); [|exact Hp].
    apply in_or_app. right. left. reflexivity. }
  destruct (wrapXMPContent_shape content (prettyPrint opts)) as (h & f & -> & H1 & H2).
  apply (includes_app_l _ (content ++ f)) in H1, H2.
  assert (Hwrap : forall p, includes content p = true ->
                  includes (h ++ content ++ f) p = true).
  { intros p Hp. apply includes_app_r, includes_app_l. exact Hp. }
  assert (H3 : includes (h ++ content ++ f) (js "<rdf:Description") = true).
  { apply Hwrap, Hcore. unfold core, generateXMPCoreBlock.
    exact (proj1 (description_block_includes _ _ _)). }
  assert (H4 : includes (h ++ content ++ f) (js "xmlns:" ++ js "xmp" ++ js "=") = true).
  { apply Hwrap, Hcore. unfold core, generateXMPCoreBlock.
    exact (proj2 (description_block_includes _ _ _)). }
  unfold validateXMPPacket. cbv zeta. rewrite H1, H2, H3.
  cbn [valid errors warnings].
  split; [reflexivity|]. split; [reflexivity|].
  replace (existsb _ namespaceKeys) with true.
  2:{ symmetry. apply existsb_exists. exists (js "xmp").
      split; [cbn; tauto|]. rewrite H4. reflexivity. }
  destruct (_ =? _)%nat; cbn; intuition discriminate.
Qed.

End WithClock.

Lemma created_packet_is_valid_witness :
  exists info,
    createXMPPacket Reference.fixed_clock Scenarios.patio_tree lifestyle default_options
    = Return info
    /\ valid (validateXMPPacket (xmp_content info)) = true
    /\ errors (validateXMPPacket (xmp_content info)) = [].
Proof.
  assert (H : exists info,
            createXMPPacket Reference.fixed_clock Scenarios.patio_tree lifestyle
                            default_options = Return info).
  { vm_compute. eexists. reflexivity. }
  destruct H as (info & E). exists info. split; [exact E|].
  destruct (created_packet_is_valid Reference.fixed_clock Scenarios.patio_tree
              lifestyle default_options info E eq_refl) as (Hv & He & _).
  split; [exact Hv | exact He].
Defined.

End PacketFacts.

(** ** Embedding and reading back *)

Module InterfaceFacts.
Import Jpeg Reference Parser.

(** Through the public methods: a packet embedded by [embedXMPInImage] in a
    stream that begins with the start-of-image marker is found by
    [extractXMPFromImage], which gives its text, the metadata parsed from
    it and the schema detected in them; the empty packet is embedded as
    well, and then reported as not found. *)
Theorem extractXMPFromImage_of_embedded
    (h : heap) (imageBuffer : ref) (rest : list Z) (xmpPacket : jsstring) :
  content h imageBuffer = 0xFF :: 0xD8 :: rest ->
  well_formed_utf16 xmpPacket = true ->
  hd 0 xmpPacket <> 0xFEFF ->
  Z.of_nat (length (Utf8.encode xmpPacket)) <= 65504 ->
  exists h' result,
    embedXMPInImage imageBuffer xmpPacket h = (h', Return result)
    /\ content h' result = [0xFF; 0xD8] ++ xmp_segment xmpPacket ++ rest
    /\ extractXMPFromImage (content h' result)
       = Return (match xmpPacket with
                 | [] => not_found
                 | _ => {| xmp_found := true;
                           xmp_content := Some xmpPacket;
                           parsed_metadata := Some (parseXMPContent xmpPacket);
                           schema_type :=
                             Some (detectSchemaType (parseXMPContent xmpPacket)) |}
                 end).
Proof.
  intros Hbuf Hwf Hbom Hlen.
  destruct (JpegFacts.embed_result h imageBuffer rest xmpPacket Hbuf)
    as (h' & Hrun & Hres & _).
  exists h', (S (length h)).
  split; [|split].
  - rewrite JpegFacts.embedXMPInImage_on_jpeg; [exact Hrun|].
    rewrite Hbuf. apply JpegFacts.isJPEG_spec. eexists. reflexivity.
  - exact Hres.
  - rewrite Hres. unfold extractXMPFromImage, extractXMPFromImage_with, extract_body.
    cbn [methods call_extractXMPFromJPEG call_parseXMPContent call_detectSchemaType].
    replace (isJPEG (0xFF :: 0xD8 :: xmp_segment xmpPacket ++ rest)) with true
      by (symmetry; apply JpegFacts.isJPEG_spec; eexists; reflexivity).
    rewrite JpegFacts.extract_embedded by exact Hlen.
    rewrite Utf8Facts.decode_encode by assumption.
    destruct xmpPacket; reflexivity.
Qed.

Lemma extractXMPFromImage_of_embedded_witness :
  exists h' result,
    embedXMPInImage 0%nat (js "<x:xmpmeta/>") [[0xFF; 0xD8; 0xFF; 0xD9]]
      = (h', Return result)
    /\ exists r, extractXMPFromImage (content h' result) = Return r
                 /\ xmp_found r = true /\ xmp_content r = Some (js "<x:xmpmeta/>").
Proof.
  destruct (extractXMPFromImage_of_embedded [[0xFF; 0xD8; 0xFF; 0xD9]] 0%nat
              [0xFF; 0xD9] (js "<x:xmpmeta/>") eq_refl eq_refl)
    as (h' & result & H1 & _ & H3).
  - discriminate.
  - vm_compute. discriminate.
  - exists h', result. split; [exact H1|]. rewrite H3.
    eexists. split; [reflexivity|]. split; reflexivity.
Defined.

(** Embedding a second packet does not replace the first: the new segment
    is written after the start-of-image marker, in front of the old one,
    which stays in the stream, and the extractor reads the new packet. *)
Theorem embed_twice
    (h : heap) (imageBuffer : ref) (rest : list Z) (first second : jsstring) :
  content h imageBuffer = 0xFF :: 0xD8 :: rest ->
  exists h1 r1 h2 r2,
    embedXMPInImage imageBuffer first h = (h1, Return r1)
    /\ embedXMPInImage r1 second h1 = (h2, Return r2)
    /\ content h2 r2
       = [0xFF; 0xD8] ++ xmp_segment second ++ xmp_segment first ++ rest
    /\ (well_formed_utf16 second = true ->
        hd 0 second <> 0xFEFF ->
        Z.of_nat (length (Utf8.encode second)) <= 65504 ->
        extractXMPFromJPEG (content h2 r2) = Some second).
Proof.
  intros Hbuf.
  destruct (JpegFacts.embed_result h imageBuffer rest first Hbuf)
    as (h1 & Hrun1 & Hres1 & _).
  destruct (JpegFacts.embed_result h1 (S (length h)) (xmp_segment first ++ rest)
              second Hres1) as (h2 & Hrun2 & Hres2 & _).
  exists h1, (S (length h)), h2, (S (length h1)).
  split; [|split; [|split]].
  - rewrite JpegFacts.embedXMPInImage_on_jpeg; [exact Hrun1|].
    rewrite Hbuf. apply JpegFacts.isJPEG_spec. eexists. reflexivity.
  - rewrite JpegFacts.embedXMPInImage_on_jpeg; [exact Hrun2|].
    rewrite Hres1. apply JpegFacts.isJPEG_spec. eexists. reflexivity.
  - exact Hres2.
  - intros Hwf Hbom Hlen. rewrite Hres2.
    rewrite JpegFacts.extract_embedded by exact Hlen.
    f_equal. apply Utf8Facts.decode_encode; assumption.
Qed.

Lemma embed_twice_witness :
  exists h1 r1 h2 r2,
    embedXMPInImage 0%nat (js "<old/>") [[0xFF; 0xD8; 0xFF; 0xD9]] = (h1, Return r1)
    /\ embedXMPInImage r1 (js "<new/>") h1 = (h2, Return r2)
    /\ extractXMPFromJPEG (content h2 r2) = Some (js "<new/>").
Proof.
  destruct (embed_twice [[0xFF; 0xD8; 0xFF; 0xD9]] 0%nat [0xFF; 0xD9]
              (js "<old/>") (js "<new/>") eq_refl)
    as (h1 & r1 & h2 & r2 & H1 & H2 & _ & H4).
  exists h1, r1, h2, r2. split; [exact H1|]. split; [exact H2|].
  apply H4; [reflexivity | discriminate | vm_compute; discriminate].
Defined.

Lemma lookup_obj_set_other (k k' : jsstring) (v : value)
    (props : list (jsstring * value)) :
  k <> k' -> lookup k (obj_set k' v props) = lookup k props.
Proof.
  intros Hne. induction props as [|[k0 v0] props IH]; cbn [obj_set lookup].
  - destruct (str_eqb k' k) eqn:E; [|reflexivity].
    apply str_eqb_eq in E. congruence.
  - destruct (str_eqb k0 k') eqn:E0; cbn [lookup].
    + apply str_eqb_eq in E0. subst k0.
      destruct (str_eqb k' k) eqn:E; [|reflexivity].
      apply str_eqb_eq in E. congruence.
    + rewrite IH. reflexivity.
Qed.

Lemma lookup_assign_absent (k : jsstring) (source : list (jsstring * value)) :
  ~ In k (map fst source) ->
  forall target, lookup k (fold_left (fun t kv => obj_set (fst kv) (snd kv) t)
                                     source target)
                 = lookup k target.
Proof.
  induction source as [|[k' v'] source IH]; intros Hn target; cbn [fold_left].
  - reflexivity.
  - cbn [map fst snd] in *. rewrite IH by (intros H; apply Hn; right; exact H).
    apply lookup_obj_set_other. intros ->. apply Hn. left. reflexivity.
Qed.

(** The schema that the processor reports for a packet read through its
    Ledger is taken from the recovered tree, not from the packet: when the
    tree has no property [lifestyle] or [product], and none named
    [__proto__], which would replace the prototype of the result, the
    answer is [orbit], whatever schema the packet was written with. *)
Theorem ledger_schema_is_orbit (xmpContent : jsstring) (enhanced original : value) :
  ledger_metadata xmpContent (js "lifestyle") = Some enhanced ->
  Scenarios.recovered_original xmpContent = Some original ->
  ~ In (js "__proto__") (Object_keys original) ->
  ~ In (js "lifestyle") (Object_keys original) ->
  ~ In (js "product") (Object_keys original) ->
  parseXMPContent xmpContent = enhanced
  /\ detectSchemaType enhanced = Serializer.orbit.
Proof.
  intros H Ho _ Hl Hp. split; [unfold parseXMPContent; rewrite H; reflexivity|].
  unfold ledger_metadata in H. unfold Scenarios.recovered_original in Ho.
  destruct (match_raw_json (js "lifestyle") xmpContent) as [captured|]; [|discriminate].
  destruct (Json.JSON_parse _) as [ledger|e]; [|discriminate].
  injection Ho as <-.
  set (original := get_prop ledger (js "original_metadata")) in *.
  destruct (truthy ledger && _); [|discriminate]. injection H as <-.
  assert (Habsent : forall k raw, k <> js "Raw_JSON" -> ~ In k (Object_keys original) ->
            get_prop (VObj (if truthy original
                            then Object_assign [(js "Raw_JSON", VStr raw)] original
                            else [(js "Raw_JSON", VStr raw)])) k = VUndefined).
  { intros k raw Hk Hn. cbn [get_prop].
    assert (Hraw : lookup k [(js "Raw_JSON", VStr raw)] = None).
    { cbn [lookup]. destruct (str_eqb (js "Raw_JSON") k) eqn:E; [|reflexivity].
      apply str_eqb_eq in E. congruence. }
    destruct (truthy original).
    - unfold Object_assign. rewrite lookup_assign_absent by exact Hn.
      rewrite Hraw. reflexivity.
    - rewrite Hraw. reflexivity. }
  unfold detectSchemaType.
  rewrite !Habsent by (assumption || discriminate). reflexivity.
Qed.

Lemma ledger_schema_is_orbit_witness :
  exists packet enhanced,
    Scenarios.packet_of Scenarios.patio_tree = Some packet
    /\ ledger_metadata packet (js "lifestyle") = Some enhanced
    /\ detectSchemaType (parseXMPContent packet) = Serializer.orbit.
Proof.
  assert (H : exists packet, Scenarios.packet_of Scenarios.patio_tree = Some packet).
  { vm_compute. eexists. reflexivity. }
  destruct H as [packet Hp].
  assert (H : exists enhanced, ledger_metadata packet (js "lifestyle") = Some enhanced
                               /\ Scenarios.recovered_original packet
                                  = Some Scenarios.patio_tree).
  { vm_compute in Hp. injection Hp as <-. vm_compute. eexists. split; reflexivity. }
  destruct H as (enhanced & He & Ho).
  exists packet, enhanced. split; [exact Hp|]. split; [exact He|].
  destruct (ledger_schema_is_orbit packet enhanced Scenarios.patio_tree He Ho)
    as (-> & Hs); [cbv; intuition discriminate ..|].
  exact Hs.
Defined.

End InterfaceFacts.

(** ** The metadata of a report *)

Module PipelineFacts.
Import Report Organized ReportFields.

Local Abbreviation is_text := (fun kv : jsstring * value => exists s, snd kv = VStr s).
Local Abbreviation flat props :=
  (Forall is_text props /\ NoDup (map fst props)).

Lemma obj_set_keys (k : jsstring) (v : value) (props : list (jsstring * value)) :
  map fst (obj_set k v props)
  = if has (map fst props) k then map fst props else map fst props ++ [k].
Proof.
  induction props as [|[k' v'] props IH]; [reflexivity|].
  cbn [obj_set map fst has existsb].
  destruct (str_eqb k' k) eqn:E.
  - apply str_eqb_eq in E. subst k'. rewrite (proj2 (str_eqb_eq k k) eq_refl).
    reflexivity.
  - destruct (str_eqb k k') eqn:E'.
    + apply str_eqb_eq in E'. subst k'. rewrite (proj2 (str_eqb_eq k k) eq_refl) in E.
      discriminate.
    + cbn [map fst orb]. rewrite IH. unfold has.
      destruct (existsb (str_eqb k) (map fst props)); reflexivity.
Qed.

Lemma obj_set_flat (k : jsstring) (s : jsstring) (props : list (jsstring * value)) :
  flat props -> flat (obj_set k (VStr s) props).
Proof.
  intros [Ht Hn]. split.
  - clear Hn. induction Ht as [|[k' v'] props Hk Hrest IH]; cbn [obj_set].
    + constructor; [eexists; reflexivity | constructor].
    + destruct (str_eqb k' k); constructor; try assumption.
      eexists. reflexivity.
  - rewrite obj_set_keys. destruct (has (map fst props) k) eqn:E; [exact Hn|].
    apply OrganizerFacts.has_false in E.
    apply NoDup_app; [exact Hn | repeat constructor; intros [] |].
    intros x Hx [<-|[]]. exact (E Hx).
Qed.

Lemma add_field_flat (prefix : jsstring) (st : enhancer_state) (entry : jsstring * value) :
  flat (fst st) -> flat (fst (add_field prefix st entry)).
Proof.
  destruct st as [enhanced seen]. unfold add_field. cbn [fst].
  destruct (has seen _); [tauto|]. cbn [fst]. apply obj_set_flat.
Qed.

Lemma add_fields_flat (prefix : jsstring) (entries : list (jsstring * value)) :
  forall st, flat (fst st) -> flat (fst (fold_left (add_field prefix) entries st)).
Proof.
  induction entries as [|e entries IH]; intros st H; [exact H|].
  cbn [fold_left]. apply IH, add_field_flat, H.
Qed.

Lemma add_section_flat (standard : value) (section prefix : jsstring)
    (st : enhancer_state) :
  flat (fst st) -> flat (fst (add_section standard section prefix st)).
Proof.
  intros H. unfold add_section. destruct (truthy _); [|exact H].
  apply add_fields_flat, H.
Qed.

Lemma add_ledger_flat (rawJson : value) (st : enhancer_state) :
  flat (fst st) -> flat (fst (add_ledger rawJson st)).
Proof.
  intros H. unfold add_ledger. destruct (truthy rawJson); [|exact H].
  set (st1 := if truthy (get_prop rawJson (js "original_metadata")) then _ else _).
  assert (H1 : flat (fst st1)).
  { subst st1. destruct (truthy (get_prop rawJson (js "original_metadata")));
      [apply add_fields_flat, H|].
    destruct (truthy _); [apply add_fields_flat, H | exact H]. }
  set (st2 := if truthy (get_prop rawJson (js "standard_metadata")) then _ else _).
  assert (H2 : flat (fst st2)).
  { subst st2. destruct (truthy (get_prop rawJson (js "standard_metadata")));
      [|exact H1].
    repeat apply add_section_flat. exact H1. }
  destruct (truthy (get_prop rawJson (js "processing"))); [|exact H2].
  cbn [fst]. generalize (fst st2) H2.
  induction (own_entries (get_prop rawJson (js "processing"))) as [|e entries IH];
    intros props Hp; [exact Hp|].
  cbn [fold_left]. apply IH, obj_set_flat, Hp.
Qed.

Lemma enhanced_flat (parsedMetadata : value) (enhanced : list (jsstring * value)) :
  enhanceMetadataWithAllFields parsedMetadata = Return enhanced -> flat enhanced.
Proof.
  unfold enhanceMetadataWithAllFields.
  destruct (Object_entries parsedMetadata) as [entries|e]; cbn [ebind eret];
    [|discriminate].
  intros [= <-].
  generalize (add_ledger (extractRawJSONFromMetadata parsedMetadata) ([], []))
             (add_ledger_flat (extractRawJSONFromMetadata parsedMetadata) ([], [])
                (conj (Forall_nil _) (NoDup_nil _))).
  induction entries as [|e entries IH]; intros st H; [exact H|].
  cbn [fold_left]. apply IH. destruct (str_eqb (fst e) _); [exact H|].
  apply add_field_flat, H.
Qed.

Lemma lookup_In (k : jsstring) (props : list (jsstring * value)) (v : value) :
  lookup k props = Some v -> In (k, v) props.
Proof.
  induction props as [|[k' v'] props IH]; cbn [lookup]; [discriminate|].
  destruct (str_eqb k' k) eqn:E.
  - apply str_eqb_eq in E. intros [= <-]. left. congruence.
  - intros H. right. exact (IH H).
Qed.

Lemma lookup_None (k : jsstring) (props : list (jsstring * value)) :
  ~ In k (map fst props) -> lookup k props = None.
Proof.
  induction props as [|[k' v'] props IH]; cbn [lookup map fst]; intros H; [reflexivity|].
  destruct (str_eqb k' k) eqn:E.
  - apply str_eqb_eq in E. exfalso. apply H. left. exact E.
  - apply IH. intros Hin. apply H. right. exact Hin.
Qed.

(** A property of an object whose values are texts is a text or is
    missing. *)
Lemma get_prop_text (props : list (jsstring * value)) (k : jsstring) :
  Forall is_text props ->
  (exists s, get_prop (VObj props) k = VStr s) \/ get_prop (VObj props) k = VUndefined.
Proof.
  intros H. cbn [get_prop]. destruct (lookup k props) as [v|] eqn:E; [|right; reflexivity].
  left. apply lookup_In in E. rewrite Forall_forall in H. exact (H _ E).
Qed.

(** The total of the organizer is the number of keys other than
    [Raw_JSON]. *)
Lemma organize_totalFields (metadata : value) (schemaType : jsstring) :
  let keys := Object_keys (schemaDataOf metadata schemaType) in
  metadata <> VNull -> metadata <> VUndefined ->
  ~ In schemaType objectPrototypeNames ->
  NoDup keys ->
  exists r,
    organizeMetadataByCategories metadata schemaType = Return r
    /\ totalFields r = Z.of_nat (length (filter is_field keys)).
Proof.
  intros keys Hnull Hundef Hname Hnd.
  destruct (proj2 (OrganizerFacts.schemaCategoryMap_spec schemaType) Hname)
    as [table Htable].
  destruct (OrganizerFacts.organize_result metadata schemaType table
              Hnull Hundef Htable Hnd) as (r & Hr & _ & Htotal & _).
  exists r. split; [exact Hr|].
  set (schemaData := schemaDataOf metadata schemaType) in *.
  set (st := fold_left (claim_category schemaData schemaType) table
               {| organizedCategories := []; assignedFields := []; fieldCounter := 0 |})
    in *.
  assert (Hst : state_ok schemaData table st).
  { apply OrganizerFacts.claim_categories_spec; [exact Hnd | apply incl_refl |].
    unfold state_ok. cbn [organizedCategories assignedFields fieldCounter].
    split; [reflexivity|]. split; [split; [constructor | intros k []]|].
    split; [reflexivity|]. split; [reflexivity | constructor]. }
  destruct Hst as [_ [[Hnda Hval] [_ [Hcount _]]]].
  rewrite Htotal, Hcount. unfold unmatched.
  rewrite OrganizerFacts.filter_filter_fields.
  rewrite <- (OrganizerFacts.count_partition (filter is_field keys))
    with (a := assignedFields st).
  - rewrite Nat2Z.inj_add. reflexivity.
  - apply NoDup_filter. exact Hnd.
  - exact Hnda.
  - intros k Hk. apply filter_In. exact (Hval k Hk).
Qed.

(** The metadata that the report tool organizes are the work of
    [enhanceMetadataWithAllFields]: every value is a text and no key occurs
    twice.  When no key is [__proto__], which an assignment cannot make a
    property, the organizer throws on them for a schema type that names a
    member of [Object.prototype]; for every other schema type it takes the
    metadata themselves for the schema data, never the value under the
    schema name, and the field count of the report is the number of keys
    other than [Raw_JSON]. *)
Theorem enhanced_metadata_is_flat
    (parsedMetadata : value) (enhanced : list (jsstring * value)) :
  enhanceMetadataWithAllFields parsedMetadata = Return enhanced ->
  ~ In (js "__proto__") (map fst enhanced) ->
  Forall (fun kv => exists s, snd kv = VStr s) enhanced
  /\ NoDup (map fst enhanced)
  /\ forall schemaType,
       (In schemaType objectPrototypeNames ->
        exists message,
          organizeMetadataByCategories (VObj enhanced) schemaType = Throw message)
       /\ (~ In schemaType objectPrototypeNames ->
           schemaDataOf (VObj enhanced) schemaType = VObj enhanced
           /\ exists r,
                organizeMetadataByCategories (VObj enhanced) schemaType = Return r
                /\ totalFields r
                   = Z.of_nat (length (filter is_field (map fst enhanced)))).
Proof.
  intros H _. apply enhanced_flat in H as [Ht Hn].
  split; [exact Ht|]. split; [exact Hn|]. intros schemaType.
  split; [apply OrganizerFacts.organize_throws|]. intros Hname.
  assert (Hdata : schemaDataOf (VObj enhanced) schemaType = VObj enhanced).
  { unfold schemaDataOf.
    assert (Hp : str_eqb schemaType (js "__proto__") = false).
    { destruct (str_eqb schemaType (js "__proto__")) eqn:E; [|reflexivity].
      apply str_eqb_eq in E. exfalso. apply Hname. rewrite E.
      do 10 right. left. reflexivity. }
    rewrite Hp.
    destruct (get_prop_text enhanced schemaType Ht) as [[s ->]| ->];
      [rewrite andb_false_r|]; reflexivity. }
  split; [exact Hdata|].
  destruct (organize_totalFields (VObj enhanced) schemaType) as (r & Hr & Htotal);
    [discriminate | discriminate | exact Hname | rewrite Hdata; exact Hn |].
  exists r. split; [exact Hr|]. rewrite Htotal, Hdata. reflexivity.
Qed.

Lemma enhanced_metadata_is_flat_witness :
  let parsedMetadata :=
    VObj [ (js "Raw_JSON",
            VStr (Json.JSON_stringify
                    (VObj [ (js "original_metadata",
                             VObj [ (js "scene_overview",
                                     VObj [ (js "setting", VStr (js "Patio")) ]) ]);
                            (js "processing",
                             VObj [ (js "schema_type", VStr (js "lifestyle")) ]) ])));
           (js "scene_overview", VObj [ (js "setting", VStr (js "Patio")) ]) ] in
  exists enhanced r,
    enhanceMetadataWithAllFields parsedMetadata = Return enhanced
    /\ map fst enhanced = [ js "scene_overview_setting"; js "processing_schema_type";
                            js "scene_overview" ]
    /\ organizeMetadataByCategories (VObj enhanced) (js "lifestyle") = Return r
    /\ totalFields r = 3.
Proof.
  intros parsedMetadata.
  assert (H : exists enhanced,
            enhanceMetadataWithAllFields parsedMetadata = Return enhanced
            /\ map fst enhanced = [ js "scene_overview_setting";
                                    js "processing_schema_type"; js "scene_overview" ]).
  { vm_compute. eexists. split; reflexivity. }
  destruct H as (enhanced & He & Hk).
  assert (Hproto : ~ In (js "__proto__") (map fst enhanced)).
  { rewrite Hk. cbv. intuition discriminate. }
  destruct (enhanced_metadata_is_flat parsedMetadata enhanced He Hproto) as (_ & _ & H).
  destruct (proj2 (H (js "lifestyle"))) as (_ & r & Hr & Htotal).
  { cbv. intuition discriminate. }
  exists enhanced, r. split; [exact He|]. split; [exact Hk|]. split; [exact Hr|].
  rewrite Htotal, Hk. reflexivity.
Defined.

Section Coverage.
Variable percentage : Z -> Z -> Z.

(** The coverage line of the detailed report is computed from the enhanced
    metadata.  Unless they have a field named [Raw_JSON], no Ledger is found
    in them: the number of embedded fields is then taken to be the number
    of fields captured and no field is reported missing. *)
Theorem coverage_of_enhanced_metadata
    (parsedMetadata : value) (enhanced : list (jsstring * value))
    (schemaType : jsstring) :
  enhanceMetadataWithAllFields parsedMetadata = Return enhanced ->
  ~ In (js "Raw_JSON") (map fst enhanced) ->
  exists c,
    validateFieldCoverage percentage (VObj enhanced) schemaType = Return c
    /\ capturedFields c = Z.of_nat (length enhanced)
    /\ totalEmbeddedFields c = capturedFields c
    /\ missingFields c = 0.
Proof.
  intros H Hraw. apply enhanced_flat in H as [Ht _].
  assert (Hroot : get_prop (VObj enhanced) (js "Raw_JSON") = VUndefined).
  { cbn [get_prop]. rewrite lookup_None by exact Hraw. reflexivity. }
  assert (Hnested : forall k,
            get_prop_opt (get_prop (VObj enhanced) k) (js "Raw_JSON") = VUndefined).
  { intros k. destruct (get_prop_text enhanced k Ht) as [[s ->]| ->]; reflexivity. }
  assert (Hledger : extractRawJSONFromMetadata (VObj enhanced) = VNull).
  { unfold extractRawJSONFromMetadata. rewrite Hroot, !Hnested. reflexivity. }
  unfold validateFieldCoverage. cbn [Object_entries own_entries ebind eret].
  rewrite Hledger. cbn [truthy].
  assert (Hcount : filter (fun key => negb (str_eqb key (js "Raw_JSON"))) (map fst enhanced)
                   = map fst enhanced).
  { clear - Hraw. induction enhanced as [|[k v] rest IH]; [reflexivity|].
    cbn [map fst filter] in *.
    destruct (str_eqb k (js "Raw_JSON")) eqn:E.
    - apply str_eqb_eq in E. exfalso. apply Hraw. left. exact E.
    - cbn [negb]. f_equal. apply IH. intros Hin. apply Hraw. right. exact Hin. }
  rewrite Hcount, length_map. cbn [Z.eqb].
  eexists. split; [reflexivity|].
  cbn [capturedFields totalEmbeddedFields missingFields].
  split; [reflexivity|]. split; [reflexivity | lia].
Qed.

End Coverage.

Lemma coverage_of_enhanced_metadata_witness :
  let parsedMetadata :=
    VObj [ (js "scene_overview", VObj [ (js "setting", VStr (js "Patio")) ]);
           (js "mood", VStr (js "Calm")) ] in
  exists enhanced c,
    enhanceMetadataWithAllFields parsedMetadata = Return enhanced
    /\ ~ In (js "Raw_JSON") (map fst enhanced)
    /\ validateFieldCoverage (fun captured total => 100) (VObj enhanced) (js "lifestyle")
       = Return c
    /\ capturedFields c = 2
    /\ missingFields c = 0.
Proof.
  intros parsedMetadata.
  assert (H : exists enhanced,
            enhanceMetadataWithAllFields parsedMetadata = Return enhanced
            /\ map fst enhanced = [ js "scene_overview"; js "mood" ]).
  { vm_compute. eexists. split; reflexivity. }
  destruct H as (enhanced & He & Hk).
  assert (Hraw : ~ In (js "Raw_JSON") (map fst enhanced)).
  { rewrite Hk. cbn. intuition discriminate. }
  destruct (coverage_of_enhanced_metadata (fun captured total => 100) parsedMetadata
              enhanced (js "lifestyle") He Hraw) as (c & Hc & Hcap & _ & Hmiss).
  exists enhanced, c. split; [exact He|]. split; [exact Hraw|]. split; [exact Hc|].
  split; [|exact Hmiss].
  rewrite Hcap, <- (length_map fst), Hk. reflexivity.
Defined.

End PipelineFacts.

(** ** Keywords and packet creation *)

Module SerializerFacts.
Import Serializer Shapes.

Lemma dedupe_spec (l : list jsstring) : forall seen,
  NoDup (dedupe seen l)
  /\ forall k, In k (dedupe seen l) <-> In k l /\ ~ In k seen.
Proof.
  induction l as [|x l IH]; intros seen; cbn [dedupe].
  - split; [constructor | intros k; cbn; tauto].
  - destruct (existsb (str_eqb x) seen) eqn:E.
    + destruct (IH seen) as [Hn Hin]. split; [exact Hn|].
      intros k. rewrite Hin. cbn [In]. split; [tauto|].
      intros [[<-|H] Hs]; [|tauto]. exfalso. apply Hs.
      apply existsb_exists in E as (y & Hy & Hxy). apply str_eqb_eq in Hxy. subst. exact Hy.
    + destruct (IH (x :: seen)) as [Hn Hin].
      assert (Hx : ~ In x seen).
      { intros Hx. apply not_true_iff_false in E. apply E. apply existsb_exists.
        exists x. split; [exact Hx | apply str_eqb_eq; reflexivity]. }
      split.
      * constructor; [|exact Hn]. rewrite Hin. cbn [In]. tauto.
      * intros k. cbn [In]. rewrite Hin. cbn [In]. split.
        -- intros [<-|[H1 H2]]; tauto.
        -- intros [[<-|H] Hs]; [tauto|].
           destruct (list_eq_dec Z.eq_dec x k) as [->|Hne]; [tauto|]. right. tauto.
Qed.

Lemma NoDup_firstn {A} (n : nat) (l : list A) : NoDup l -> NoDup (firstn n l).
Proof.
  revert n. induction l as [|x l IH]; intros n H; destruct n; cbn [firstn];
    try constructor.
  - inversion H as [|? ? Hx Hl]; subst. intros Hin. apply Hx.
    rewrite <- (firstn_skipn n l). apply in_or_app. left. exact Hin.
  - inversion H; subst. apply IH. assumption.
Qed.

Lemma In_firstn {A} (n : nat) (l : list A) (x : A) : In x (firstn n l) -> In x l.
Proof.
  intros H. rewrite <- (firstn_skipn n l). apply in_or_app. left. exact H.
Qed.

Lemma toLowerCase_idem (s : jsstring) : toLowerCase (toLowerCase s) = toLowerCase s.
Proof.
  unfold toLowerCase. rewrite map_map. apply map_ext.
  apply CanonicalizerFacts.lower_cu_idem.
Qed.

Lemma keywords_tail (keywords2 : list jsstring) (activity location : value)
    (keywords : list jsstring) :
  Forall (fun k => toLowerCase k = k) keywords2 ->
  (let* keywords3 :=
     if truthy activity then
       let* a := call_toLowerCase activity in eret (keywords2 ++ [a])
     else eret keywords2 in
   let* keywords4 :=
     if truthy location then
       let* l := call_toLowerCase location in eret (keywords3 ++ [l])
     else eret keywords3 in
   eret (firstn 10 (dedupe [] keywords4))) = Return keywords ->
  (length keywords <= 10)%nat
  /\ NoDup keywords
  /\ Forall (fun keyword => toLowerCase keyword = keyword) keywords.
Proof.
  intros H2.
  assert (Hlower : forall v a, call_toLowerCase v = Return a -> toLowerCase a = a).
  { intros [] a; cbn; try discriminate. intros [= <-]. apply toLowerCase_idem. }
  assert (Hgen : forall keywords4, Forall (fun k => toLowerCase k = k) keywords4 ->
            (length (firstn 10 (dedupe [] keywords4)) <= 10)%nat
            /\ NoDup (firstn 10 (dedupe [] keywords4))
            /\ Forall (fun k => toLowerCase k = k) (firstn 10 (dedupe [] keywords4))).
  { intros k4 H4. destruct (dedupe_spec k4 []) as [Hn Hin].
    split; [apply firstn_le_length|]. split; [apply NoDup_firstn, Hn|].
    apply Forall_forall. intros k Hk. apply In_firstn, Hin in Hk as [Hk _].
    rewrite Forall_forall in H4. exact (H4 _ Hk). }
  assert (Hsnoc : forall l v a, Forall (fun k => toLowerCase k = k) l ->
            call_toLowerCase v = Return a ->
            Forall (fun k => toLowerCase k = k) (l ++ [a])).
  { intros l v a Hl Ha. apply Forall_app. split; [exact Hl|].
    constructor; [exact (Hlower _ _ Ha) | constructor]. }
  destruct (truthy activity).
  - destruct (call_toLowerCase activity) as [a|e] eqn:Ea; cbn [ebind eret]; [|discriminate].
    destruct (truthy location).
    + destruct (call_toLowerCase location) as [l|e] eqn:El; cbn [ebind eret];
        [|discriminate].
      intros [= <-]. apply Hgen. eauto.
    + intros [= <-]. apply Hgen. eauto.
  - cbn [ebind eret]. destruct (truthy location).
    + destruct (call_toLowerCase location) as [l|e] eqn:El; cbn [ebind eret];
        [|discriminate].
      intros [= <-]. apply Hgen. eauto.
    + intros [= <-]. apply Hgen. exact H2.
Qed.

(** The keywords of the Dublin Core subject: at most ten, no two alike, each
    in lower case. *)
Theorem extractKeywords_distinct (metadata : value) (keywords : list jsstring) :
  extractKeywords metadata = Return keywords ->
  (length keywords <= 10)%nat
  /\ NoDup keywords
  /\ Forall (fun keyword => toLowerCase keyword = keyword) keywords.
Proof.
  unfold extractKeywords. intros H.
  eapply keywords_tail; [|exact H].
  assert (Hmap : forall l, Forall (fun k => toLowerCase k = k) (map toLowerCase l)).
  { intros l. apply Forall_forall. intros k Hk. apply in_map_iff in Hk as (x & <- & _).
    apply toLowerCase_idem. }
  destruct (truthy (field_of metadata (js "key_objects") (js "furniture")));
    destruct (truthy (field_of metadata (js "key_objects") (js "food_and_beverage")));
    try apply Forall_app; try split; try apply Hmap; constructor.
Qed.

Lemma extractKeywords_distinct_witness :
  let metadata :=
    VObj [ (js "key_objects",
            VObj [ (js "food_and_beverage", VStr (js "Wine, wine, Cheese")) ]);
           (js "primary_activity", VStr (js "Dining")) ] in
  extractKeywords metadata = Return [js "wine"; js "cheese"; js "dining"]
  /\ NoDup [js "wine"; js "cheese"; js "dining"].
Proof.
  intros metadata.
  assert (H : extractKeywords metadata = Return [js "wine"; js "cheese"; js "dining"])
    by reflexivity.
  split; [exact H|]. exact (proj1 (proj2 (extractKeywords_distinct _ _ H))).
Defined.

Lemma lower_text (v : value) :
  text_or_absent v -> truthy v = true -> exists s, call_toLowerCase v = Return s.
Proof.
  intros [H|[s ->]] Ht; [congruence|]. eexists. reflexivity.
Qed.

Section WithClock.
Variable now : nat -> jsstring.

Section Returns.
Variable metadata : value.
Hypothesis setting_text :
  text_or_absent (field_of metadata (js "scene_overview") (js "setting")).
Hypothesis activity_text :
  text_or_absent (field_of metadata (js "scene_overview") (js "primary_activity")).
Hypothesis time_text :
  text_or_absent (field_of metadata (js "scene_overview") (js "time_of_day")).
Hypothesis mood_text :
  text_or_absent (field_of metadata (js "atmospheric_elements") (js "mood")).
Hypothesis location_text :
  text_or_absent (field_of metadata (js "environment") (js "location_type")).

Lemma generateSceneDescription_returns :
  exists description, generateSceneDescription metadata = Return description.
Proof.
  unfold generateSceneDescription.
  set (setting := field_of metadata (js "scene_overview") (js "setting")) in *.
  set (activity := field_of metadata (js "scene_overview") (js "primary_activity")) in *.
  set (timeOfDay := field_of metadata (js "scene_overview") (js "time_of_day")) in *.
  set (mood := field_of metadata (js "atmospheric_elements") (js "mood")) in *.
  destruct (truthy setting) eqn:Hs; destruct (truthy activity) eqn:Ha; cbn [andb];
    try (destruct (lower_text _ setting_text Hs) as [s ->]);
    try (destruct (lower_text _ activity_text Ha) as [a ->]);
    cbn [ebind eret];
    (destruct (truthy timeOfDay) eqn:Ht;
     [destruct (lower_text _ time_text Ht) as [t ->]|]);
    cbn [ebind eret];
    (destruct (truthy mood) eqn:Hm;
     [destruct (lower_text _ mood_text Hm) as [m ->]|]);
    cbn [ebind eret]; eexists; reflexivity.
Qed.

Lemma extractKeywords_returns :
  exists keywords, extractKeywords metadata = Return keywords.
Proof.
  unfold extractKeywords.
  set (activity := field_of metadata (js "scene_overview") (js "primary_activity")) in *.
  set (location := field_of metadata (js "environment") (js "location_type")) in *.
  (destruct (truthy activity) eqn:Ha;
   [destruct (lower_text _ activity_text Ha) as [a ->]|]);
  cbn [ebind eret];
  (destruct (truthy location) eqn:Hl;
   [destruct (lower_text _ location_text Hl) as [l ->]|]);
  cbn [ebind eret]; eexists; reflexivity.
Qed.

Lemma mapToDublinCore_returns :
  exists dcFields, mapToDublinCore metadata = Return dcFields.
Proof.
  unfold mapToDublinCore.
  destruct generateSceneDescription_returns as [d ->].
  destruct extractKeywords_returns as [k ->].
  cbn [ebind eret]. eexists. reflexivity.
Qed.

Lemma mapToIPTC_returns :
  exists iptcFields, mapToIPTC metadata = Return iptcFields.
Proof.
  unfold mapToIPTC.
  set (locationText := field_of metadata (js "environment") (js "location_type")) in *.
  destruct (truthy locationText) eqn:Hl; [|eexists; reflexivity].
  destruct location_text as [H|[s Hs]]; [congruence|]. rewrite Hs.
  cbn [call_includes call_toLowerCase ebind eret].
  destruct (includes s (js "restaurant")); cbn [ebind eret];
    [eexists; reflexivity|].
  destruct (includes s (js "bar")); cbn [ebind eret]; [eexists; reflexivity|].
  destruct (includes s (js "cafe")); cbn [ebind eret]; eexists; reflexivity.
Qed.

End Returns.

Lemma or_else_fields (metadata : value) (section field : jsstring) :
  field_of (or_else metadata (VObj [])) section field
  = if truthy metadata then field_of metadata section field else VUndefined.
Proof. unfold or_else. destruct (truthy metadata); reflexivity. Qed.

Lemma absent_undefined : text_or_absent VUndefined.
Proof. left. reflexivity. Qed.


End WithClock.


End SerializerFacts.

(** ** Aligned lines and nested metadata *)

Module LayoutFacts.
Import Canonicalizer Serializer Layout.

Lemma record_set_keys (k v : jsstring) (r : record) (x : jsstring) :
  In x (map fst (record_set k v r)) <-> x = k \/ In x (map fst r).
Proof.
  induction r as [|[k' v'] r IH]; cbn [record_set map fst In].
  - intuition congruence.
  - destruct (str_eqb k' k) eqn:E; cbn [map fst In].
    + apply str_eqb_eq in E. subst. intuition congruence.
    + rewrite IH. intuition congruence.
Qed.

Lemma record_assign_keys (source target : record) (x : jsstring) :
  In x (map fst (record_assign target source))
  <-> In x (map fst target) \/ In x (map fst source).
Proof.
  unfold record_assign. revert target.
  induction source as [|[k v] source IH]; intros target; cbn [fold_left map fst In].
  - tauto.
  - rewrite IH, record_set_keys. intuition congruence.
Qed.

Lemma emap_total {A B} (f : A -> Exc B) (g : A -> B) (l : list A) :
  (forall x, In x l -> f x = Return (g x)) -> emap f l = Return (map g l).
Proof.
  induction l as [|x l IH]; intros H; [reflexivity|].
  cbn [emap map]. rewrite H by (left; reflexivity). cbn [ebind].
  rewrite IH by (intros y Hy; apply H; right; exact Hy). reflexivity.
Qed.

(** [formatFieldsWithAlignment] never throws: the count of spaces is never
    negative.  Every line is the display name of a field, spaces up to a
    width that is the same for all lines, a colon, a space and the value;
    the width is 20, or the length of the longest display name when that is
    more. *)
Theorem formatFieldsWithAlignment_aligned (flattenedMetadata processingInfo : record) :
  exists w,
    20 <= w
    /\ (forall kv, In kv (flattenedMetadata ++ processingInfo) ->
                   len (beautifyFieldName (fst kv)) <= w)
    /\ (w = 20 \/ exists kv, In kv (flattenedMetadata ++ processingInfo)
                             /\ w = len (beautifyFieldName (fst kv)))
    /\ formatFieldsWithAlignment flattenedMetadata processingInfo
       = Return (join nl
           (map (fun kv =>
                   beautifyFieldName (fst kv)
                   ++ repeat 32 (Z.to_nat (w - len (beautifyFieldName (fst kv))))
                   ++ js ": " ++ snd kv)
                (flattenedMetadata ++ processingInfo))).
Proof.
  unfold formatFieldsWithAlignment.
  set (allFields := record_assign flattenedMetadata processingInfo).
  set (fieldNames := map (fun kv => beautifyFieldName (fst kv)) allFields).
  destruct (FieldFacts.max_length_fold fieldNames None) as (_ & Hle & Hmax).
  cbv zeta in Hle, Hmax. fold (max_length fieldNames) in Hle, Hmax.
  set (w := match max_length fieldNames with
            | None => 20
            | Some maxLength => Z.max maxLength 20
            end).
  assert (Hkeys : forall kv, In kv (flattenedMetadata ++ processingInfo) ->
                  In (beautifyFieldName (fst kv)) fieldNames).
  { intros kv Hkv. unfold fieldNames.
    assert (Hin : In (fst kv) (map fst allFields)).
    { apply record_assign_keys. apply in_app_or in Hkv as [H|H];
        [left | right]; apply in_map; exact H. }
    apply in_map_iff in Hin as (kv' & E & Hin').
    apply in_map_iff. exists kv'. split; [rewrite E; reflexivity | exact Hin']. }
  assert (Hw : forall kv, In kv (flattenedMetadata ++ processingInfo) ->
               len (beautifyFieldName (fst kv)) <= w).
  { intros kv Hkv. destruct (Hle _ (Hkeys kv Hkv)) as (m & Hm & Hlen).
    unfold w. rewrite Hm. lia. }
  assert (H20 : 20 <= w) by (unfold w; destruct (max_length fieldNames); lia).
  assert (Horigin : w = 20 \/ exists kv, In kv (flattenedMetadata ++ processingInfo)
                                        /\ w = len (beautifyFieldName (fst kv))).
  { unfold w. destruct Hmax as [->|(n & Hn & ->)]; [left; reflexivity|].
    destruct (Z.max_spec (len n) 20) as [[_ E]|[_ E]]; rewrite E; [left; reflexivity|].
    right. unfold fieldNames in Hn. apply in_map_iff in Hn as (kv' & <- & Hin').
    assert (Hin : In (fst kv') (map fst (flattenedMetadata ++ processingInfo))).
    { rewrite map_app. apply in_or_app. apply record_assign_keys.
      apply in_map. exact Hin'. }
    apply in_map_iff in Hin as (kv & E' & Hkv).
    exists kv. split; [exact Hkv | rewrite E'; reflexivity]. }
  clearbody w. exists w. split; [exact H20|].
  split; [exact Hw|]. split; [exact Horigin|].
  set (line := fun kv : jsstring * jsstring =>
                   beautifyFieldName (fst kv)
                   ++ repeat 32 (Z.to_nat (w - len (beautifyFieldName (fst kv))))
                   ++ js ": " ++ snd kv).
    assert (Hline : forall l, incl l (flattenedMetadata ++ processingInfo) ->
              @emap (jsstring * jsstring) jsstring
                   (fun kv : jsstring * jsstring =>
                      let* padding := spaces (w - len (beautifyFieldName (fst kv))) in
                      eret (beautifyFieldName (fst kv) ++ padding ++ js ": " ++ snd kv)) l
              = Return (map line l)).
    { intros l Hl. apply emap_total. intros kv Hkv. unfold spaces.
      specialize (Hw kv (Hl kv Hkv)).
      destruct (Z.ltb_spec (w - len (beautifyFieldName (fst kv))) 0); [exfalso; unfold jsstring in *; lia|].
      reflexivity. }
    cbv zeta.
    rewrite (Hline flattenedMetadata) by (apply incl_appl, incl_refl).
    cbn [ebind].
    rewrite (Hline processingInfo) by (apply incl_appr, incl_refl).
    cbn [ebind eret]. rewrite map_app. reflexivity.
Qed.

End LayoutFacts.

Module NestedFacts.
Import Serializer ReportFields.

Local Abbreviation leaf := (fun kv : jsstring * value => forall props, snd kv <> VObj props).

Lemma obj_set_leaf (k : jsstring) (v : value) (l : list (jsstring * value)) :
  (forall props, v <> VObj props) -> Forall leaf l -> Forall leaf (obj_set k v l).
Proof.
  intros Hv. induction 1 as [|[k' v'] l Hk Hl IH]; cbn [obj_set].
  - constructor; [exact Hv | constructor].
  - destruct (str_eqb k' k); constructor; assumption.
Qed.

Lemma assign_leaf (source target : list (jsstring * value)) :
  Forall leaf source -> Forall leaf target ->
  Forall leaf (Object_assign target (VObj source)).
Proof.
  unfold Object_assign. cbn [own_entries]. intros Hs. revert target.
  induction Hs as [|[k v] source Hk Hs IH]; intros target Ht; cbn [fold_left].
  - exact Ht.
  - apply IH. apply obj_set_leaf; [exact Hk | exact Ht].
Qed.

Lemma nested_fold_leaf (entries : list (jsstring * value)) :
  Forall (fun kv => forall prefix, Forall leaf (flatten_nested (snd kv) prefix)) entries ->
  forall prefix acc, Forall leaf acc ->
    Forall leaf (fold_left (nested_step flatten_nested prefix) entries acc).
Proof.
  induction 1 as [|[k v] entries Hv _ IH]; intros prefix acc Hacc; cbn [fold_left].
  - exact Hacc.
  - apply IH. unfold nested_step. cbn [fst snd] in *.
    destruct v; try (apply obj_set_leaf; [discriminate | exact Hacc]).
    apply assign_leaf; [apply Hv | exact Hacc].
Qed.

Lemma flatten_nested_leaf (v : value) :
  forall prefix, Forall leaf (flatten_nested v prefix).
Proof.
  induction v as [ | | | | | | items _ | props IH] using FlattenFacts.value_induction;
    intros prefix; try (constructor; fail).
  cbn [flatten_nested]. apply nested_fold_leaf; [exact IH | constructor].
Qed.

(** [flattenNestedMetadata] throws on [null] and [undefined] only, and leaves
    no object among the values of its result: what it keeps are texts,
    numbers, booleans, [null] and lists. *)
Theorem flattenNestedMetadata_leaves (nestedData : value) (prefix : jsstring) :
  ((exists message, flattenNestedMetadata nestedData prefix = Throw message)
   <-> nestedData = VNull \/ nestedData = VUndefined)
  /\ forall flattened,
       flattenNestedMetadata nestedData prefix = Return flattened ->
       Forall (fun kv => forall props, snd kv <> VObj props) flattened.
Proof.
  split.
  - destruct nestedData; cbn; split; try (intros [? H]; discriminate);
      try (intros [H|H]; discriminate); eauto.
  - intros flattened H. unfold flattenNestedMetadata in H.
    destruct (Object_entries nestedData) as [entries|e] eqn:E; [|discriminate].
    cbn [ebind eret] in H. injection H as <-.
    apply nested_fold_leaf; [|constructor].
    apply Forall_forall. intros kv _. apply flatten_nested_leaf.
Qed.

Lemma flattenNestedMetadata_leaves_witness :
  let nestedData :=
    VObj [ (js "scene_overview", VObj [ (js "setting", VStr (js "Patio")) ]);
           (js "tags", VArr [ VStr (js "wine"); VObj [] ]) ] in
  exists flattened,
    flattenNestedMetadata nestedData [] = Return flattened
    /\ Forall (fun kv => forall props, snd kv <> VObj props) flattened.
Proof.
  intros nestedData.
  assert (H : exists flattened, flattenNestedMetadata nestedData [] = Return flattened).
  { vm_compute. eexists. reflexivity. }
  destruct H as (flattened & E). exists flattened. split; [exact E|].
  exact (proj2 (flattenNestedMetadata_leaves nestedData []) flattened E).
Defined.

End NestedFacts.

(** ** The category of a field *)

Module PlacementFacts.
Import Report Organized.

Section Placement.

Variable schemaData : value.
Variable schemaType : jsstring.
Hypothesis keys_nodup : NoDup (Object_keys schemaData).

Local Abbreviation keys := (Object_keys schemaData).
Local Abbreviation free k asg := (In k keys /\ is_field k = true /\ ~ In k asg).
Local Abbreviation matches_some k patterns :=
  (exists p, In p patterns /\ fieldMatchesPattern k p schemaType = true).

Lemma matching_iff (asg : list jsstring) (p k : jsstring) :
  In k (matching schemaData schemaType asg p)
  <-> free k asg /\ fieldMatchesPattern k p schemaType = true.
Proof.
  unfold matching. rewrite filter_In. unfold is_field.
  destruct (str_eqb k (js "Raw_JSON")); cbn [negb].
  - intuition discriminate.
  - destruct (has asg k) eqn:E.
    + apply OrganizerFacts.has_spec in E. intuition discriminate.
    + apply OrganizerFacts.has_false in E. tauto.
Qed.

Lemma In_dec_key (k : jsstring) (l : list jsstring) : In k l \/ ~ In k l.
Proof.
  destruct (has l k) eqn:E.
  - left. apply OrganizerFacts.has_spec. exact E.
  - right. apply OrganizerFacts.has_false. exact E.
Qed.

Lemma claim_patterns_keys (patterns : list jsstring) :
  forall (cf : list (jsstring * value)) (asg0 asg : list jsstring) (tot0 tot : Z),
    asg = asg0 ++ map fst cf ->
    tot = tot0 + Z.of_nat (length cf) ->
    valid schemaData asg ->
    exists cf',
      fold_left (claim_pattern schemaData schemaType) patterns (cf, asg, tot)
      = (cf', asg0 ++ map fst cf', tot0 + Z.of_nat (length cf'))
      /\ forall k, In k (map fst cf')
                   <-> In k (map fst cf) \/ (free k asg /\ matches_some k patterns).
Proof.
  induction patterns as [|p patterns IH]; intros cf asg0 asg tot0 tot Hasg Htot Hv.
  - exists cf. subst. split; [reflexivity|].
    intros k. split; [tauto|]. intros [H|(_ & p & [] & _)]. exact H.
  - cbn [fold_left].
    destruct (OrganizerFacts.claim_pattern_spec schemaData schemaType keys_nodup
                cf asg tot p) as [E Hv'].
    { subst. intros x Hx. apply in_or_app. right. exact Hx. }
    { exact Hv. }
    cbv zeta in E, Hv'. rewrite E.
    set (claimed := matching schemaData schemaType asg p) in *.
    destruct (IH (cf ++ map (entry_of schemaData) claimed) asg0 (asg ++ claimed)
                 tot0 (tot + Z.of_nat (length claimed))) as (cf' & E' & Hk).
    { subst. rewrite map_app, OrganizerFacts.map_fst_entry_of, app_assoc. reflexivity. }
    { subst. rewrite length_app, length_map. lia. }
    { exact Hv'. }
    exists cf'. split; [exact E'|].
    intros k. rewrite Hk, map_app, OrganizerFacts.map_fst_entry_of, in_app_iff.
    unfold claimed. rewrite matching_iff. split.
    + intros [[H|H]|((Hin & Hf & Hn) & q & Hq & Hm)].
      * left. exact H.
      * right. split; [tauto|]. exists p. split; [left; reflexivity | tauto].
      * right. split.
        -- split; [exact Hin|]. split; [exact Hf|]. intros Hk'. apply Hn.
           apply in_or_app. left. exact Hk'.
        -- exists q. split; [right; exact Hq | exact Hm].
    + intros [H|(Hfree & q & [<-|Hq] & Hm)].
      * left. left. exact H.
      * left. right. tauto.
      * destruct (In_dec_key k (matching schemaData schemaType asg p)) as [Hc|Hc].
        -- left. right. apply matching_iff. exact Hc.
        -- right. split.
           ++ split; [tauto|]. split; [tauto|]. intros Hk'.
              apply in_app_or in Hk' as [Hk'|Hk']; tauto.
           ++ exists q. split; [exact Hq | exact Hm].
Qed.

(** One turn of the loop over the categories. *)
Lemma claim_category_keys (st : organizer_state) (category : CategoryDefinition) :
  valid schemaData (assignedFields st) ->
  exists cf,
    claim_category schemaData schemaType st category
    = {| organizedCategories :=
           match cf with
           | [] => organizedCategories st
           | _ => organizedCategories st ++ [(category, cf)]
           end;
         assignedFields := assignedFields st ++ map fst cf;
         fieldCounter := fieldCounter st + Z.of_nat (length cf) |}
    /\ forall k, In k (map fst cf)
                 <-> free k (assignedFields st) /\ matches_some k (fields category).
Proof.
  intros Hv. unfold claim_category.
  destruct (claim_patterns_keys (fields category) [] (assignedFields st)
              (assignedFields st) (fieldCounter st) (fieldCounter st))
    as (cf & E & Hk).
  { cbn. rewrite app_nil_r. reflexivity. }
  { cbn. lia. }
  { exact Hv. }
  exists cf. rewrite E. split; [reflexivity|].
  intros k. rewrite Hk. cbn. tauto.
Qed.

Lemma claim_categories_keys (table cats : list CategoryDefinition) :
  incl cats table ->
  forall st, state_ok schemaData table st ->
    let st' := fold_left (claim_category schemaData schemaType) cats st in
    (exists more, organizedCategories st' = organizedCategories st ++ more)
    /\ (forall k, In k (assignedFields st')
                  <-> In k (assignedFields st)
                      \/ (free k (assignedFields st)
                          /\ exists c, In c cats /\ matches_some k (fields c)))
    /\ (forall pre c post k,
          cats = pre ++ c :: post ->
          free k (assignedFields st) ->
          (forall c', In c' pre -> ~ matches_some k (fields c')) ->
          matches_some k (fields c) ->
          exists fields', In (c, fields') (organizedCategories st')
                          /\ In k (map fst fields')).
Proof.
  induction cats as [|c cats IH]; intros Hincl st Hst.
  - cbn [fold_left]. split; [exists []; rewrite app_nil_r; reflexivity|]. split.
    + intros k. split; [tauto|]. intros [H|(_ & c & [] & _)]. exact H.
    + intros [|? ?] c0 post k E; discriminate.
  - cbn [fold_left].
    assert (Hst1 : state_ok schemaData table (claim_category schemaData schemaType st c)).
    { apply OrganizerFacts.claim_category_spec;
        [exact keys_nodup | apply Hincl; left; reflexivity | exact Hst]. }
    destruct (claim_category_keys st c) as (cf & E & Hcf).
    { destruct Hst as (_ & Hv & _). exact Hv. }
    destruct (IH (fun x Hx => Hincl x (or_intror Hx)) _ Hst1) as ((more & Hmore) & Hk & Hfirst).
    clear IH. rewrite E in Hmore, Hk, Hfirst.
    cbn [organizedCategories assignedFields] in Hmore, Hk, Hfirst.
    rewrite E. cbv zeta.
    set (st' := fold_left (claim_category schemaData schemaType) cats _) in *.
    split; [|split].
    + destruct cf as [|e cf].
      * exists more. exact Hmore.
      * exists ([(c, e :: cf)] ++ more). rewrite Hmore, <- app_assoc. reflexivity.
    + intros k. rewrite Hk, in_app_iff, Hcf. split.
      * intros [[H|(Hfree & Hm)]|((Hin & Hf & Hn) & c' & Hc' & Hm)].
        -- left. exact H.
        -- right. split; [exact Hfree|]. exists c. split; [left; reflexivity | exact Hm].
        -- right. split.
           ++ split; [exact Hin|]. split; [exact Hf|]. intros Hk'. apply Hn.
              left. exact Hk'.
           ++ exists c'. split; [right; exact Hc' | exact Hm].
      * intros [H|(Hfree & c' & [<-|Hc'] & Hm)].
        -- left. left. exact H.
        -- left. right. split; [exact Hfree | exact Hm].
        -- destruct (In_dec_key k (map fst cf)) as [Hc|Hc].
           ++ left. right. apply Hcf. exact Hc.
           ++ right. split.
              ** split; [tauto|]. split; [tauto|]. intros [Hk'|Hk']; [tauto|].
                 apply Hc, Hcf. exact Hk'.
              ** exists c'. split; [exact Hc' | exact Hm].
    + intros pre c0 post k Ecats Hfree Hpre Hm.
      destruct pre as [|c1 pre]; cbn [app] in Ecats; injection Ecats as <- ->.
      * assert (Hin : In k (map fst cf)) by (apply Hcf; split; [exact Hfree | exact Hm]).
        exists cf. split; [|exact Hin].
        rewrite Hmore. apply in_or_app. left.
        destruct cf as [|e cf]; [destruct Hin|].
        apply in_or_app. right. left. reflexivity.
      * apply (Hfirst pre c0 post k eq_refl).
        -- split; [tauto|]. split; [tauto|]. intros Hk'.
           apply in_app_or in Hk' as [Hk'|Hk']; [tauto|].
           apply Hcf in Hk'. apply (Hpre c); [left; reflexivity | tauto].
        -- intros c' Hc'. apply Hpre. right. exact Hc'.
        -- exact Hm.
Qed.

End Placement.

(** Where [organizeMetadataByCategories] places a field, when the lookup of
    the schema type finds a table of categories (one of the three of the
    literal, or the empty list for a name that nothing defines).  A key of
    the schema data, other than [Raw_JSON], goes to the first category of
    the table that has a pattern matching it, and to the category
    [Additional Metadata] exactly when no pattern of the table matches it. *)
Theorem organize_first_match (metadata : value) (schemaType : jsstring)
    (table : list CategoryDefinition) :
  let keys := Object_keys (schemaDataOf metadata schemaType) in
  let matched k (c : CategoryDefinition) :=
    exists p, In p (fields c) /\ fieldMatchesPattern k p schemaType = true in
  metadata <> VNull -> metadata <> VUndefined ->
  schemaCategoryMap schemaType = Some table ->
  NoDup keys ->
  exists r claimed extra,
    organizeMetadataByCategories metadata schemaType = Return r
    /\ categories r = claimed ++ extra
    /\ Forall (fun c => In (fst c) table) claimed
    /\ (extra = [] \/ exists fields, extra = [(additionalMetadata, fields)])
    /\ forall k, In k keys -> k <> js "Raw_JSON" ->
         (In k (category_keys extra) <-> forall c, In c table -> ~ matched k c)
         /\ forall pre c post,
              table = pre ++ c :: post ->
              (forall c', In c' pre -> ~ matched k c') ->
              matched k c ->
              exists fields', In (c, fields') claimed /\ In k (map fst fields').
Proof.
  intros keys matched Hnull Hundef Htable Hnd.
  destruct (OrganizerFacts.organize_result metadata schemaType table
              Hnull Hundef Htable Hnd) as (r & Hr & Hcats & _).
  set (schemaData := schemaDataOf metadata schemaType) in *.
  set (st0 := {| organizedCategories := []; assignedFields := []; fieldCounter := 0 |})
    in *.
  set (st := fold_left (claim_category schemaData schemaType) table st0) in *.
  assert (Hst0 : state_ok schemaData table st0).
  { unfold state_ok, st0. cbn [organizedCategories assignedFields fieldCounter].
    split; [reflexivity|]. split; [split; [constructor | intros k []]|].
    split; [reflexivity|]. split; [reflexivity | constructor]. }
  assert (Hst : state_ok schemaData table st).
  { apply OrganizerFacts.claim_categories_spec;
      [exact Hnd | apply incl_refl | exact Hst0]. }
  destruct (claim_categories_keys schemaData schemaType Hnd table table
              (incl_refl _) st0 Hst0) as (_ & Hk & Hfirst).
  fold st in Hk, Hfirst. cbn [assignedFields st0] in Hk, Hfirst.
  destruct Hst as [Hkeys [[Hnda Hval] [Hsum [Hcount Htab]]]].
  set (um := unmatched schemaData (assignedFields st)) in *.
  exists r, (organizedCategories st),
    (match um with [] => [] | _ => [(additionalMetadata, map (entry_of schemaData) um)] end).
  split; [exact Hr|]. split; [exact Hcats|]. split; [exact Htab|]. split.
  - destruct um; [left; reflexivity | right; eexists; reflexivity].
  - intros k Hin Hraw.
    assert (Hf : is_field k = true) by (apply OrganizerFacts.is_field_spec; exact Hraw).
    assert (Hextra :
      In k (category_keys
              (match um with
               | [] => []
               | _ => [(additionalMetadata, map (entry_of schemaData) um)]
               end)) <-> In k um).
    { destruct um as [|u um']; [reflexivity|].
      cbn [category_keys flat_map snd]. rewrite app_nil_r, OrganizerFacts.map_fst_entry_of.
      reflexivity. }
    split.
    + rewrite Hextra. unfold um. rewrite OrganizerFacts.unmatched_spec, Hk. split.
      * intros (_ & Hn & _) c Hc Hm. apply Hn. right.
        split; [split; [exact Hin | split; [exact Hf | intros []]]|].
        exists c. split; [exact Hc | exact Hm].
      * intros Hno. split; [exact Hin|]. split; [|exact Hf].
        intros [[]|(_ & c & Hc & Hm)]. exact (Hno c Hc Hm).
    + intros pre c post Etable Hpre Hm.
      apply (Hfirst pre c post k Etable);
        [split; [exact Hin | split; [exact Hf | intros []]] | exact Hpre | exact Hm].
Qed.

Lemma organize_first_match_witness :
  let metadata := VObj [ (js "Raw_JSON", VStr (js "{}"));
                         (js "scene_overview_setting", VStr (js "Outdoor patio"));
                         (js "zzqx", VStr (js "unclassified")) ] in
  exists r claimed extra,
    organizeMetadataByCategories metadata (js "lifestyle") = Return r
    /\ categories r = claimed ++ extra
    /\ (In (js "zzqx") (category_keys extra)
        <-> forall c, In c lifestyleCategories ->
              ~ exists p, In p (fields c)
                          /\ fieldMatchesPattern (js "zzqx") p (js "lifestyle") = true).
Proof.
  intros metadata.
  assert (Hnd : NoDup (Object_keys (schemaDataOf metadata (js "lifestyle")))).
  { repeat constructor; cbn; intuition discriminate. }
  destruct (organize_first_match metadata (js "lifestyle") lifestyleCategories
              ltac:(discriminate) ltac:(discriminate) eq_refl Hnd)
    as (r & claimed & extra & Hr & E & _ & _ & H).
  exists r, claimed, extra. split; [exact Hr|]. split; [exact E|].
  apply (H (js "zzqx")).
  - right. right. left. reflexivity.
  - discriminate.
Defined.

End PlacementFacts.

(** ** The key fields of the simple report *)

Module KeyFieldFacts.
Import Report Organized ReportFields.

Lemma set_entries (l : list (jsstring * value)) :
  NoDup (map fst l) ->
  forall acc : list (jsstring * value),
    (forall k, In k (map fst l) -> ~ In k (map fst acc)) ->
    fold_left (fun acc kv => obj_set (fst kv) (snd kv) acc) l acc = acc ++ l.
Proof.
  induction l as [|[k v] l IH]; intros Hnd acc Hfresh.
  - cbn. rewrite app_nil_r. reflexivity.
  - cbn [map fst] in Hnd. inversion Hnd as [|? ? Hk Hl]; subst.
    cbn [fold_left fst snd].
    rewrite OrganizerFacts.obj_set_fresh by (apply Hfresh; left; reflexivity).
    rewrite IH.
    + rewrite <- app_assoc. reflexivity.
    + exact Hl.
    + intros x Hx Hin. rewrite map_app in Hin.
      apply in_app_or in Hin as [Hin|[Hin|[]]].
      * apply (Hfresh x); [right; exact Hx | exact Hin].
      * cbn in Hin. subst. exact (Hk Hx).
Qed.

Lemma NoDup_app_l {A} (a b : list A) : NoDup (a ++ b) -> NoDup a.
Proof.
  induction a as [|x a IH]; intros H; [constructor|].
  cbn [app] in H. inversion H as [|? ? Hx Ha]; subst. constructor.
  - intros Hin. apply Hx. apply in_or_app. left. exact Hin.
  - apply IH. exact Ha.
Qed.

Lemma NoDup_app_r {A} (a b : list A) : NoDup (a ++ b) -> NoDup b.
Proof.
  induction a as [|x a IH]; intros H; [exact H|].
  cbn [app] in H. inversion H; subst. apply IH. assumption.
Qed.

Lemma NoDup_app_disjoint {A} (a b : list A) (x : A) :
  NoDup (a ++ b) -> In x a -> ~ In x b.
Proof.
  induction a as [|y a IH]; intros H Hin Hb; [destruct Hin|].
  destruct Hin as [<-|Hin].
  - cbn [app] in H. inversion H as [|? ? Hx _]; subst. apply Hx.
    apply in_or_app. right. exact Hb.
  - cbn [app] in H. inversion H; subst. exact (IH ltac:(assumption) Hin Hb).
Qed.

Lemma select_fold (cats : list (CategoryDefinition * list (jsstring * value))) :
  NoDup (category_keys cats) ->
  forall acc : list (jsstring * value),
    (forall k, In k (category_keys cats) -> ~ In k (map fst acc)) ->
    fold_left (fun keyFields c =>
                 fold_left (fun acc kv => obj_set (fst kv) (snd kv) acc)
                           (firstn 2 (snd c)) keyFields)
              cats acc
    = acc ++ flat_map (fun c => firstn 2 (snd c)) cats.
Proof.
  induction cats as [|c cats IH]; intros Hnd acc Hfresh.
  - cbn. rewrite app_nil_r. reflexivity.
  - cbn [fold_left flat_map]. cbn [category_keys flat_map] in Hnd, Hfresh.
    fold (category_keys cats) in Hnd, Hfresh.
    rewrite set_entries.
    + rewrite IH.
      * rewrite <- app_assoc. reflexivity.
      * exact (NoDup_app_r _ _ Hnd).
      * intros k Hk Hin. rewrite map_app in Hin.
        apply in_app_or in Hin as [Hin|Hin].
        -- apply (Hfresh k); [apply in_or_app; right; exact Hk | exact Hin].
        -- rewrite <- firstn_map in Hin. apply SerializerFacts.In_firstn in Hin.
           exact (NoDup_app_disjoint _ _ k Hnd Hin Hk).
    + rewrite <- firstn_map. apply SerializerFacts.NoDup_firstn.
      exact (NoDup_app_l _ _ Hnd).
    + intros k Hk. rewrite <- firstn_map in Hk. apply SerializerFacts.In_firstn in Hk.
      apply Hfresh. apply in_or_app. left. exact Hk.
Qed.

Lemma two_each_length (cats : list (CategoryDefinition * list (jsstring * value))) :
  Forall (fun c => snd c <> []) cats ->
  (length cats <= length (flat_map (fun c => firstn 2 (snd c)) cats)
   <= 2 * length cats)%nat.
Proof.
  induction 1 as [|c cats Hc _ IH]; [cbn; lia|].
  cbn [flat_map length]. rewrite length_app, length_firstn.
  destruct (snd c) as [|e l]; [congruence|]. cbn [length]. lia.
Qed.

Section Claimed.

Variable schemaData : value.
Variable schemaType : jsstring.
Hypothesis keys_nodup : NoDup (Object_keys schemaData).

Lemma claim_patterns_result (patterns : list jsstring) (asg : list jsstring) (tot : Z) :
  valid schemaData asg ->
  exists cf,
    fold_left (claim_pattern schemaData schemaType) patterns ([], asg, tot)
    = (cf, asg ++ map fst cf, tot + Z.of_nat (length cf)).
Proof.
  intros Hv.
  destruct (OrganizerFacts.claim_patterns_spec schemaData schemaType keys_nodup
              patterns [] asg asg tot tot) as (cf & E & _).
  - cbn. rewrite app_nil_r. reflexivity.
  - cbn. lia.
  - exact Hv.
  - exists cf. exact E.
Qed.

Lemma claim_categories_nonempty (table cats : list CategoryDefinition) :
  incl cats table ->
  forall st, state_ok schemaData table st ->
    Forall (fun c => snd c <> []) (organizedCategories st) ->
    Forall (fun c => snd c <> [])
           (organizedCategories (fold_left (claim_category schemaData schemaType) cats st)).
Proof.
  induction cats as [|c cats IH]; intros Hincl st Hst Hne; [exact Hne|].
  cbn [fold_left]. apply IH.
  - intros x Hx. apply Hincl. right. exact Hx.
  - apply OrganizerFacts.claim_category_spec;
      [exact keys_nodup | apply Hincl; left; reflexivity | exact Hst].
  - unfold claim_category.
    destruct (claim_patterns_result (fields c) (assignedFields st) (fieldCounter st))
      as (cf & E).
    { destruct Hst as (_ & Hv & _). exact Hv. }
    rewrite E. cbn [organizedCategories].
    destruct cf as [|e cf]; [exact Hne|].
    apply Forall_app. split; [exact Hne|]. constructor; [discriminate | constructor].
Qed.

End Claimed.

(** The key fields of the simple report, for metadata that are neither
    [null] nor [undefined].  When the schema type names a member of
    [Object.prototype] the function throws, as the organizer does.
    Otherwise the key fields are, category after category, the first two
    fields of each category of the organizer, with their values; no field
    replaces another, so that there are at least as many key fields as
    categories and at most twice as many. *)
Theorem selectKeyFieldsByCategory_two_each (metadata : value) (schemaType : jsstring) :
  metadata <> VNull -> metadata <> VUndefined ->
  NoDup (Object_keys (schemaDataOf metadata schemaType)) ->
  (In schemaType objectPrototypeNames ->
   exists message, selectKeyFieldsByCategory metadata schemaType = Throw message)
  /\ (~ In schemaType objectPrototypeNames ->
      exists r keyFields,
        organizeMetadataByCategories metadata schemaType = Return r
        /\ selectKeyFieldsByCategory metadata schemaType = Return keyFields
        /\ keyFields = flat_map (fun c => firstn 2 (snd c)) (categories r)
        /\ totalCategories r <= Z.of_nat (length keyFields) <= 2 * totalCategories r).
Proof.
  intros Hnull Hundef Hnd. split.
  { intros Hname. unfold selectKeyFieldsByCategory.
    destruct (OrganizerFacts.organize_throws metadata schemaType Hname) as [message ->].
    eexists. reflexivity. }
  intros Hname.
  destruct (proj2 (OrganizerFacts.schemaCategoryMap_spec schemaType) Hname)
    as [table Htable].
  destruct (OrganizerFacts.organize_result metadata schemaType table
              Hnull Hundef Htable Hnd) as (r & Hr & Hcats & _ & Htc).
  set (schemaData := schemaDataOf metadata schemaType) in *.
  set (st0 := {| organizedCategories := []; assignedFields := []; fieldCounter := 0 |})
    in *.
  set (st := fold_left (claim_category schemaData schemaType) table st0) in *.
  assert (Hst0 : state_ok schemaData table st0).
  { unfold state_ok, st0. cbn [organizedCategories assignedFields fieldCounter].
    split; [reflexivity|]. split; [split; [constructor | intros k []]|].
    split; [reflexivity|]. split; [reflexivity | constructor]. }
  assert (Hst : state_ok schemaData table st).
  { apply OrganizerFacts.claim_categories_spec;
      [exact Hnd | apply incl_refl | exact Hst0]. }
  assert (Hne : Forall (fun c => snd c <> []) (organizedCategories st)).
  { apply (claim_categories_nonempty schemaData schemaType Hnd table table
             (incl_refl _) st0 Hst0). constructor. }
  destruct Hst as [Hkeys [[Hnda Hval] _]].
  set (um := unmatched schemaData (assignedFields st)) in *.
  assert (Hum : NoDup um) by (apply NoDup_filter; exact Hnd).
  assert (Hck : category_keys (categories r) = assignedFields st ++ um).
  { rewrite Hcats, OrganizerFacts.category_keys_app, Hkeys. f_equal.
    destruct um as [|u um']; [reflexivity|].
    cbn [category_keys flat_map snd]. rewrite app_nil_r.
    apply OrganizerFacts.map_fst_entry_of. }
  assert (Hdistinct : NoDup (category_keys (categories r))).
  { rewrite Hck. apply NoDup_app; [exact Hnda | exact Hum |].
    intros k Ha Hb. apply OrganizerFacts.unmatched_spec in Hb. tauto. }
  assert (Hall : Forall (fun c => snd c <> []) (categories r)).
  { rewrite Hcats. apply Forall_app. split; [exact Hne|].
    destruct um as [|u um']; [constructor|].
    constructor; [discriminate | constructor]. }
  exists r, (flat_map (fun c => firstn 2 (snd c)) (categories r)).
  split; [exact Hr|]. split.
  { unfold selectKeyFieldsByCategory. rewrite Hr. cbn [ebind eret].
    rewrite select_fold; [reflexivity | exact Hdistinct | intros k _ []]. }
  split; [reflexivity|].
  rewrite Htc. pose proof (two_each_length _ Hall). lia.
Qed.

Lemma selectKeyFieldsByCategory_two_each_witness :
  let metadata := VObj [ (js "Raw_JSON", VStr (js "{}"));
                         (js "scene_overview_setting", VStr (js "Outdoor patio"));
                         (js "scene_overview_time_of_day", VStr (js "Morning"));
                         (js "scene_overview_season", VStr (js "Summer"));
                         (js "zzqx", VStr (js "unclassified")) ] in
  NoDup (Object_keys (schemaDataOf metadata (js "lifestyle")))
  /\ exists keyFields,
       selectKeyFieldsByCategory metadata (js "lifestyle") = Return keyFields
       /\ map fst keyFields
          = [js "scene_overview_setting"; js "scene_overview_time_of_day"; js "zzqx"].
Proof.
  intros metadata.
  assert (Hnd : NoDup (Object_keys (schemaDataOf metadata (js "lifestyle")))).
  { repeat constructor; cbn; intuition discriminate. }
  split; [exact Hnd|].
  destruct (selectKeyFieldsByCategory_two_each metadata (js "lifestyle")
              ltac:(discriminate) ltac:(discriminate) Hnd) as [_ H].
  destruct H as (r & keyFields & Hr & Hk & E & _).
  { cbv. intuition discriminate. }
  exists keyFields. split; [exact Hk|].
  rewrite E. vm_compute in Hr. injection Hr as <-. vm_compute. reflexivity.
Defined.

End KeyFieldFacts.
